(** * reset_database_online.py: a model of the database reset script

    The script connects to a remote PostgreSQL database, snapshots four
    tables, truncates every table of the public schema and seeds one
    administrator row, behind an interactive double confirmation.

    Everything the script touches outside its own variables (the
    environment, the console, the database driver and the database behind
    it) is gathered in a [World]; every function of the script is a
    computation over that world which may raise and which appends the calls
    it makes to a log of [Event]s, in the order the script makes them.

    A Python [str] is modelled by [string], one [ascii] per code point, so
    the model covers the strings whose code points lie below 256.

    The model starts where [main] starts.  [load_dotenv()] has run (the
    environment of the world is the one it leaves) and the import check of
    lines 412-420 has passed.  [drop_all_tables] and [create_tables], which
    no workflow calls, are modelled apart, with statements and a log of
    their own.

    The database is the set of tables of schema [public], each a plain
    table: the catalog query lists them, and an unqualified table name in
    a statement is taken to resolve to one of them (a [search_path] that
    puts another schema first, and tables that inherit from another or
    are partitions, are outside the model). *)

From Stdlib Require Import Ascii ZArith PrimFloat.
From Stdlib Require Uint63.
From stdpp Require Import gmap strings list fin_maps.

Local Open Scope string_scope.
Local Open Scope list_scope.

(** ** Python string operations used by the script *)

Module Str.

Definition code (c : ascii) : N := N_of_ascii c.

Definition between (lo hi : N) (c : ascii) : bool :=
  (lo <=? code c)%N && (code c <=? hi)%N.

(** [str.lower] on one code point below 256: the ASCII capitals and the
    Latin-1 capitals U+00C0..U+00DE (the multiplication sign U+00D7 is
    not a letter) move up by 32. *)
Definition chr_lower (c : ascii) : ascii :=
  if between 65 90 c then ascii_of_N (code c + 32)
  else if between 192 222 c && negb (code c =? 215)%N
       then ascii_of_N (code c + 32)
       else c.

Fixpoint lower (s : string) : string :=
  match s with
  | EmptyString => EmptyString
  | String c s' => String (chr_lower c) (lower s')
  end.

(** [str.isspace] on one code point below 256. *)
Definition isspace (c : ascii) : bool :=
  between 9 13 c || between 28 32 c
  || (code c =? 133)%N || (code c =? 160)%N.

Fixpoint lstrip (s : string) : string :=
  match s with
  | EmptyString => EmptyString
  | String c s' => if isspace c then lstrip s' else s
  end.

Fixpoint rstrip (s : string) : string :=
  match s with
  | EmptyString => EmptyString
  | String c s' =>
      let r := rstrip s' in
      if isspace c && String.eqb r EmptyString then EmptyString
      else String c r
  end.

(** [str.strip()] with no argument. *)
Definition strip (s : string) : string := rstrip (lstrip s).

Fixpoint startswith (p s : string) : bool :=
  match p, s with
  | EmptyString, _ => true
  | String a p', String b s' => Ascii.eqb a b && startswith p' s'
  | String _ _, EmptyString => false
  end.

(** [sub in s]. *)
Fixpoint contains (sub s : string) : bool :=
  startswith sub s
  || match s with
     | EmptyString => false
     | String _ s' => contains sub s'
     end.

(** [s.replace(old, new)] for a non-empty [old]: every occurrence, left
    to right, without overlap.  [skip] counts the characters of an
    occurrence that are still to be dropped. *)
Fixpoint replace_from (skip : nat) (old new s : string) : string :=
  match s with
  | EmptyString => EmptyString
  | String c s' =>
      match skip with
      | S k => replace_from k old new s'
      | O =>
          if startswith old s
          then new ++ replace_from (String.length old - 1) old new s'
          else String c (replace_from O old new s')
      end
  end.

Definition replace (old new s : string) : string := replace_from 0 old new s.

(** The character classes of the identifier pattern. *)
Definition is_alpha_ (c : ascii) : bool :=
  between 65 90 c || between 97 122 c || (code c =? 95)%N.

Definition is_word (c : ascii) : bool :=
  is_alpha_ c || between 48 57 c.

(** What may follow the first character: word characters up to the end
    of the string.  In Python's [re], [$] also matches just before a
    newline that ends the string. *)
Fixpoint ident_rest (s : string) : bool :=
  match s with
  | EmptyString => true
  | String c s' =>
      if is_word c then ident_rest s'
      else (code c =? 10)%N && String.eqb s' EmptyString
  end.

(** [re.match(r"^[A-Za-z_][A-Za-z0-9_]*$", s)] is not [None]. *)
Definition re_match_identifier (s : string) : bool :=
  match s with
  | EmptyString => false
  | String c s' => is_alpha_ c && ident_rest s'
  end.

End Str.

(** ** The database behind the connection *)

(** A column value, as the driver hands it over. *)
Inductive Value : Type :=
| VNull
| VBool (b : bool)
| VInt (z : Z)
| VFloat (x : float)
| VStr (s : string)
| VUuid (u : N).

(** A row is an ordered field mapping ([dict(row)]). *)
Definition Row : Type := list (string * Value).

(** A table of the public schema, a plain one (it inherits from no table
    and is no partition): its columns, the tables its foreign keys point
    to, and its rows. *)
Record Table : Type := mkTable {
  columns : list string;
  references : list string;
  rows : list Row
}.

Definition emptied (t : Table) : Table :=
  {| columns := columns t; references := references t; rows := [] |}.

Definition with_row (r : Row) (t : Table) : Table :=
  {| columns := columns t; references := references t; rows := rows t ++ [r] |}.

Module Pg.

(** The text of PostgreSQL's errors 42P01 and 42703, as [str(e)] gives it. *)
Definition quoted (name : string) : string :=
  String (ascii_of_N 34) (name +:+ String (ascii_of_N 34) "").

Definition undefined_table (name : string) : string :=
  "relation " +:+ quoted name +:+ " does not exist".

Definition undefined_column (column table : string) : string :=
  "column " +:+ quoted column +:+ " of relation " +:+ quoted table +:+ " does not exist".

(** The names the catalog query
    [SELECT tablename FROM pg_tables WHERE schemaname = 'public']
    gives back, one per row. *)
Definition pg_tables (d : gmap string Table) : list (option string) :=
  (λ kt : string * Table, Some kt.1) <$> map_to_list d.

Definition mentions (names : list string) (t : Table) : bool :=
  existsb (λ r, bool_decide (r ∈ names)) (references t).

(** One round of CASCADE: [names] and the tables with a foreign key to
    one of them. *)
Definition cascade_step (d : gmap string Table) (names : list string) : list string :=
  names ++ (map_to_list (filter (λ kt : string * Table, mentions names kt.2 = true) d)).*1.

Fixpoint cascade (d : gmap string Table) (rounds : nat) (names : list string) : list string :=
  match rounds with
  | O => names
  | S k => cascade d k (cascade_step d names)
  end.

(** [TRUNCATE TABLE "<name>" RESTART IDENTITY CASCADE] on plain tables:
    the table and every table that refers to it by a foreign key, directly
    or not, lose their rows; no table is created or removed.  [None] when
    the table does not exist. *)
Definition truncate (name : string) (d : gmap string Table) : option (gmap string Table) :=
  match d !! name with
  | None => None
  | Some _ =>
      let hit := cascade d (size d) [name] in
      Some (map_imap (λ n t, Some (if bool_decide (n ∈ hit) then emptied t else t)) d)
  end.

(** [INSERT INTO usuarios (<fields of r>) VALUES (...)]: needs the table,
    looked up by its unqualified name among the tables of schema public,
    and every named column. *)
Definition insert_usuarios (r : Row) (d : gmap string Table) : option (gmap string Table) :=
  match d !! "usuarios" with
  | None => None
  | Some t =>
      if forallb (λ c, bool_decide (c ∈ columns t)) r.*1
      then Some (<["usuarios" := with_row r t]> d)
      else None
  end.

(** What the INSERT is refused with: the table is missing, or else the
    first of the named columns that the table does not have. *)
Definition insert_usuarios_error (r : Row) (d : gmap string Table) : string :=
  match d !! "usuarios" with
  | None => undefined_table "usuarios"
  | Some t =>
      match List.find (λ c, negb (bool_decide (c ∈ columns t))) r.*1 with
      | Some c => undefined_column c "usuarios"
      | None => ""
      end
  end.

End Pg.

(** ** Exceptions, console messages, events *)

(** The exceptions the script meets; all of them are [Exception]s. *)
Inductive Exn : Type :=
| ValueError          (* line 26: no connection variable is set *)
| EOFError            (* input() at the end of standard input *)
| AttributeError      (* self.conn used before connect() set it *)
| ImportError         (* werkzeug is not installed *)
| DriverError (msg : string).   (* raised by asyncpg; [msg] is str(e) *)

(** What the script prints, one constructor per [print] (or prompt of
    [input]) of the source, holding the values its f-string shows. *)
Inductive Msg : Type :=
(* connect *)
| MsgConnected                                   (* line 43 *)
| MsgConnectError (attempt retries : nat) (e : Exn)   (* line 48 *)
| MsgHintWinError | MsgHintWinErrorCheck         (* lines 52, 53 *)
| MsgHintTls | MsgHintTlsRetry                   (* lines 55, 56 *)
| MsgWaiting (delay : float)                     (* line 60 *)
| MsgConnectGaveUp                               (* line 62 *)
(* close *)
| MsgClosed                                      (* line 69 *)
(* backup_data *)
| MsgBackupStart                                 (* line 73 *)
| MsgBackupSaved (table : string) (n : nat)      (* lines 80, 85, 90, 95 *)
| MsgBackupError (e : Exn)                       (* line 100 *)
(* truncate_all_tables *)
| MsgTruncateStart                               (* line 137 *)
| MsgNoTables                                    (* line 149 *)
| MsgTruncated (table : option string)           (* line 160 *)
| MsgTruncateDone                                (* line 162 *)
| MsgTruncateError (e : Exn)                     (* line 164 *)
(* create_admin_user *)
| MsgAdminStart                                  (* line 261 *)
| MsgAdminCreated                                (* line 293 *)
| MsgAdminError (e : Exn)                        (* line 296 *)
(* reset_complete, reset_data_only *)
| MsgResetStart                                  (* line 300 *)
| MsgRule                                        (* "=" * 60 *)
| MsgResetDone | MsgSummary                      (* lines 314, 315 *)
| MsgSummaryBackup (n : nat)                     (* line 316 *)
| MsgSummaryTruncated | MsgSummaryAdmin          (* lines 317, 318 and 341 *)
| MsgResetError (e : Exn)                        (* line 321 *)
| MsgDataStart                                   (* line 326 *)
| MsgDataDone | MsgDataStructureKept | MsgDataRemoved   (* lines 338-340 *)
| MsgDataError (e : Exn)                         (* line 344 *)
(* confirm_action *)
| MsgWarnAction (action_name : string)           (* line 349 *)
| MsgWarnErase | MsgWarnBank                     (* lines 350, 351 *)
| MsgPromptConfirmo | MsgPromptSim               (* lines 353, 358 *)
| MsgCancelled                                   (* lines 355, 360 *)
| MsgConfirmed                                   (* line 363 *)
(* main *)
| MsgBanner                                      (* line 368 *)
| MsgUsage | MsgUsageComplete | MsgUsageData | MsgUsageCheck   (* lines 372-375 *)
| MsgNoDotenv                                    (* line 383 *)
| MsgCheckOk                                     (* line 393 *)
| MsgUnknownAction (action : string)             (* line 404 *)
| MsgGeneralError (e : Exn).                     (* line 407 *)

(** The statements the script sends. *)
Inductive Sql : Type :=
| SelectAll (table : string)          (* SELECT * FROM <table> *)
| SelectPgTables                      (* the catalog query *)
| TruncateTable (table : string)      (* TRUNCATE TABLE "<table>" RESTART IDENTITY CASCADE *)
| InsertUsuarios (r : Row).           (* INSERT INTO usuarios (...) VALUES ($1,...,$11) *)

(** What a run does that can be seen from outside, with the outcome the
    call had ([ok = false]: it raised). *)
Inductive Event : Type :=
| EvPrint (m : Msg)
| EvInput (prompt : Msg) (line : option string)
| EvConnect (url : string) (timeout : Z) (ok : bool)   (* asyncpg.connect *)
| EvSleep (delay : float)      (* asyncio.sleep, which returns: the delay is finite *)
| EvFetch (q : Sql) (ok : bool)                        (* conn.fetch *)
| EvExecute (q : Sql) (ok : bool)                      (* conn.execute *)
| EvClose (ok : bool).                                 (* conn.close *)

(** ** The world *)

(** What the process is started with and never changes. *)
Record Host : Type := mkHost {
  environ : gmap string string;              (* os.environ after load_dotenv() *)
  dotenv_file : bool;                        (* os.path.exists('.env') *)
  werkzeug : option (string → string);       (* generate_password_hash, if importable *)
  uuid4 : N                                  (* what uuid.uuid4() gives *)
}.

Record World : Type := mkWorld {
  host : Host;
  stdin : list string;               (* the lines input() has yet to read *)
  faults : list (option string);     (* for each driver call to come:
                                        [Some msg] makes it raise *)
  db : gmap string Table;            (* the tables of schema public *)
  self_database_url : string;        (* self.database_url *)
  self_conn : bool                   (* hasattr(self, 'conn') *)
}.

Definition set_stdin (l : list string) (w : World) : World :=
  mkWorld (host w) l (faults w) (db w) (self_database_url w) (self_conn w).
Definition set_faults (f : list (option string)) (w : World) : World :=
  mkWorld (host w) (stdin w) f (db w) (self_database_url w) (self_conn w).
Definition set_db (d : gmap string Table) (w : World) : World :=
  mkWorld (host w) (stdin w) (faults w) d (self_database_url w) (self_conn w).
(** A new [DatabaseReset] object: its URL is set, it has no [conn] yet. *)
Definition new_self (u : string) (w : World) : World :=
  mkWorld (host w) (stdin w) (faults w) (db w) u false.
Definition set_conn (w : World) : World :=
  mkWorld (host w) (stdin w) (faults w) (db w) (self_database_url w) true.

(** ** Computations: state, exceptions and a log *)

Inductive Result (A : Type) : Type :=
| Ok (a : A)
| Raise (e : Exn).
Arguments Ok {A} a.
Arguments Raise {A} e.

Definition M (A : Type) : Type := World → Result A * World * list Event.

Definition ret {A} (a : A) : M A := λ w, (Ok a, w, []).

Definition raise {A} (e : Exn) : M A := λ w, (Raise e, w, []).

Definition bind {A B} (m : M A) (f : A → M B) : M B :=
  λ w,
    match m w with
    | (Ok a, w1, o1) =>
        match f a w1 with
        | (r, w2, o2) => (r, w2, o1 ++ o2)
        end
    | (Raise e, w1, o1) => (Raise e, w1, o1)
    end.

(** [try: m except Exception as e: h e] *)
Definition try_except {A} (m : M A) (h : Exn → M A) : M A :=
  λ w,
    match m w with
    | (Ok a, w1, o1) => (Ok a, w1, o1)
    | (Raise e, w1, o1) =>
        match h e w1 with
        | (r, w2, o2) => (r, w2, o1 ++ o2)
        end
    end.

(** [try: m finally: f] *)
Definition try_finally {A} (m : M A) (f : M unit) : M A :=
  λ w,
    match m w with
    | (r, w1, o1) =>
        match f w1 with
        | (Ok _, w2, o2) => (r, w2, o1 ++ o2)
        | (Raise e, w2, o2) => (Raise e, w2, o1 ++ o2)
        end
    end.

Declare Scope prog_scope.
Delimit Scope prog_scope with prog.
Notation "x ← m ; k" := (bind m (λ x, k))
  (at level 20, m at level 100, k at level 200, only parsing) : prog_scope.
Notation "m ;; k" := (bind m (λ _, k))
  (at level 100, k at level 200, only parsing, right associativity) : prog_scope.
Local Open Scope prog_scope.

Definition emit (e : Event) : M unit := λ w, (Ok tt, w, [e]).

Definition print (m : Msg) : M unit := emit (EvPrint m).

Definition when (b : bool) (m : M unit) : M unit := if b then m else ret tt.

(** [input(prompt)]: the next line of standard input, or [EOFError]. *)
Definition input (prompt : Msg) : M string :=
  λ w,
    match stdin w with
    | [] => (Raise EOFError, w, [EvInput prompt None])
    | l :: ls => (Ok l, set_stdin ls w, [EvInput prompt (Some l)])
    end.

(** The outcome the network gives to the driver call being made: the
    first of [faults], which is used up; none when the list is empty. *)
Definition next_fault : M (option string) :=
  λ w, (Ok (hd None (faults w)), set_faults (tail (faults w)) w, []).

Definition get {A} (f : World → A) : M A := λ w, (Ok (f w), w, []).

Definition modify (f : World → World) : M unit := λ w, (Ok tt, f w, []).

(** [self.conn], which exists once [connect] has succeeded. *)
Definition the_conn : M unit :=
  c ← get self_conn ; if c then ret tt else raise AttributeError.

(** [await asyncpg.connect(url, timeout=timeout)] *)
Definition asyncpg_connect (url : string) (timeout : Z) : M unit :=
  f ← next_fault ;
  match f with
  | Some msg => emit (EvConnect url timeout false) ;; raise (DriverError msg)
  | None => emit (EvConnect url timeout true)
  end.

(** [await self.conn.fetch("SELECT * FROM <table>")] *)
Definition conn_fetch_all (table : string) : M (list Row) :=
  the_conn ;;
  f ← next_fault ;
  d ← get db ;
  match f, d !! table with
  | Some msg, _ => emit (EvFetch (SelectAll table) false) ;; raise (DriverError msg)
  | None, None =>
      emit (EvFetch (SelectAll table) false) ;;
      raise (DriverError (Pg.undefined_table table))
  | None, Some t => emit (EvFetch (SelectAll table) true) ;; ret (rows t)
  end.

(** [await self.conn.fetch(<the catalog query>)], as the list of the
    rows' [tablename] fields. *)
Definition conn_fetch_pg_tables : M (list (option string)) :=
  the_conn ;;
  f ← next_fault ;
  d ← get db ;
  match f with
  | Some msg => emit (EvFetch SelectPgTables false) ;; raise (DriverError msg)
  | None => emit (EvFetch SelectPgTables true) ;; ret (Pg.pg_tables d)
  end.

(** [await self.conn.execute(q)] for the two statements the script runs. *)
Definition conn_execute (q : Sql) (run : gmap string Table → option (gmap string Table))
    (failure : gmap string Table → string) : M unit :=
  the_conn ;;
  f ← next_fault ;
  d ← get db ;
  match f, run d with
  | Some msg, _ => emit (EvExecute q false) ;; raise (DriverError msg)
  | None, None => emit (EvExecute q false) ;; raise (DriverError (failure d))
  | None, Some d' => modify (set_db d') ;; emit (EvExecute q true)
  end.

Definition conn_truncate (table : string) : M unit :=
  conn_execute (TruncateTable table) (Pg.truncate table) (λ _, Pg.undefined_table table).

Definition conn_insert_usuarios (r : Row) : M unit :=
  conn_execute (InsertUsuarios r) (Pg.insert_usuarios r) (Pg.insert_usuarios_error r).

(** [await self.conn.close()] *)
Definition conn_close : M unit :=
  f ← next_fault ;
  match f with
  | Some msg => emit (EvClose false) ;; raise (DriverError msg)
  | None => emit (EvClose true)
  end.

(** ** The script *)

(** [str(e)] *)
Definition str (e : Exn) : string :=
  match e with
  | ValueError =>
      "Nenhuma vari" ++ String (ascii_of_N 225) "vel de conex"
      ++ String (ascii_of_N 227) "o encontrada. "
      ++ "Defina DATABASE_PUBLIC_URL ou DATABASE_URL."
  | EOFError => "EOF when reading a line"
  | AttributeError => "'DatabaseReset' object has no attribute 'conn'"
  | ImportError => "No module named 'werkzeug'"
  | DriverError msg => msg
  end.

(** Python's truth value of an optional string: [None] and [''] are false. *)
Definition truthy (s : option string) : bool :=
  match s with
  | None => false
  | Some s => negb (String.eqb s "")
  end.

(** [a or b] *)
Definition py_or (a b : option string) : option string :=
  if truthy a then a else b.

(** [os.getenv(name)] *)
Definition getenv (name : string) : M (option string) :=
  get (λ w, environ (host w) !! name).

(** [DatabaseReset()] (lines 19-34): a new object is made.  One whose
    construction raises is dropped, so it is stored on success only. *)
Definition DatabaseReset_init : M unit :=
  public_url ← getenv "DATABASE_PUBLIC_URL" ;
  internal_url ← getenv "DATABASE_URL" ;
  match py_or public_url internal_url with
  | None => raise ValueError
  | Some url =>
      if negb (truthy (Some url)) then raise ValueError
      else
        let url :=
          if Str.startswith "postgresql+asyncpg://" url
          then Str.replace "postgresql+asyncpg://" "postgresql://" url
          else url in
        let url :=
          if Str.startswith "postgresql+psycopg2://" url
          then Str.replace "postgresql+psycopg2://" "postgresql://" url
          else url in
        modify (new_self url)
  end.

(** [base_delay * attempt] (line 58) multiplies a float by an int: Python
    turns the int into a float, exactly for an int below 2^53, and
    multiplies in binary64 arithmetic, rounding to nearest. *)
Definition float_of_int (n : nat) : float :=
  PrimFloat.of_uint63 (Uint63.of_Z (Z.of_nat n)).

(** The hints of lines 51-56. *)
Definition connect_hints (msg : string) : M unit :=
  when (Str.contains "WinError 64" msg)
       (print MsgHintWinError ;; print MsgHintWinErrorCheck) ;;
  when (Str.contains "TLS handshake timeout" msg || Str.contains "handshake" msg)
       (print MsgHintTls ;; print MsgHintTlsRetry).

(** The loop of [connect] (lines 39-63) with [remaining] attempts to go:
    attempt number [retries - remaining + 1] is the next one. *)
Fixpoint connect_loop (retries : nat) (base_delay : float) (remaining : nat) : M bool :=
  match remaining with
  | O => print MsgConnectGaveUp ;; ret false
  | S remaining' =>
      let attempt := (retries - remaining')%nat in
      url ← get self_database_url ;
      connected ←
        try_except
          (asyncpg_connect url 10 ;;
           modify set_conn ;;
           print MsgConnected ;;
           ret true)
          (λ e,
             let msg := str e in
             print (MsgConnectError attempt retries e) ;;
             connect_hints msg ;;
             when (attempt <? retries)%nat
                  (let delay := PrimFloat.mul base_delay (float_of_int attempt) in
                   print (MsgWaiting delay) ;; emit (EvSleep delay)) ;;
             ret false) ;
      if connected : bool then ret true
      else connect_loop retries base_delay remaining'
  end.

(** [DatabaseReset.connect] (lines 36-63) *)
Definition connect (retries : nat) (base_delay : float) : M bool :=
  connect_loop retries base_delay retries.

(** [DatabaseReset.close] (lines 65-69) *)
Definition close : M unit :=
  has_conn ← get self_conn ;
  when has_conn (conn_close ;; print MsgClosed).

(** [DatabaseReset.backup_data] (lines 71-101) *)
Definition backup_data : M (gmap string (list Row)) :=
  print MsgBackupStart ;;
  try_except
    (let backup : gmap string (list Row) := ∅ in
     users ← conn_fetch_all "usuarios" ;
     let backup := <["usuarios" := users]> backup in
     print (MsgBackupSaved "usuarios" (length users)) ;;
     produtos ← conn_fetch_all "produtos" ;
     let backup := <["produtos" := produtos]> backup in
     print (MsgBackupSaved "produtos" (length produtos)) ;;
     clientes ← conn_fetch_all "clientes" ;
     let backup := <["clientes" := clientes]> backup in
     print (MsgBackupSaved "clientes" (length clientes)) ;;
     vendas ← conn_fetch_all "vendas" ;
     let backup := <["vendas" := vendas]> backup in
     print (MsgBackupSaved "vendas" (length vendas)) ;;
     ret backup)
    (λ e, print (MsgBackupError e) ;; ret ∅).

(** [table or ""] *)
Definition or_empty (table : option string) : string :=
  if truthy table then default "" table else "".

(** The test of lines 121 and 157. *)
Definition safe_name (table : option string) : bool :=
  Str.re_match_identifier (or_empty table).

(** The loop of lines 156-160.  Where the test passes, [table] is a
    non-empty string and [or_empty table] is that string. *)
Fixpoint truncate_loop (table_names : list (option string)) : M unit :=
  match table_names with
  | [] => ret tt
  | table :: rest =>
      if negb (safe_name table) then truncate_loop rest
      else
        conn_truncate (or_empty table) ;;
        print (MsgTruncated table) ;;
        truncate_loop rest
  end.

(** Line 153: the migration table is left alone. *)
Definition without_migrations (table_names : list (option string)) : list (option string) :=
  filter (λ t, t ≠ Some "alembic_version") table_names.

(** [DatabaseReset.truncate_all_tables] (lines 135-165) *)
Definition truncate_all_tables : M unit :=
  print MsgTruncateStart ;;
  try_except
    (table_names ← conn_fetch_pg_tables ;
     match table_names with
     | [] => print MsgNoTables
     | _ :: _ =>
         let table_names := without_migrations table_names in
         truncate_loop table_names ;;
         print MsgTruncateDone
     end)
    (λ e, print (MsgTruncateError e) ;; raise e).

Definition seed_login : string := "Neotrix".
Definition seed_password : string := "842384".

(** The eleven fields of the INSERT of lines 270-291. *)
Definition admin_row (admin_uuid : N) (senha_hash : string) : Row :=
  [ ("id", VUuid admin_uuid);
    ("nome", VStr "Neotrix Tecnologias");
    ("usuario", VStr seed_login);
    ("senha_hash", VStr senha_hash);
    ("is_admin", VBool true);
    ("ativo", VBool true);
    ("nivel", VInt 2);
    ("salario", VFloat 0%float);
    ("pode_abastecer", VBool true);
    ("pode_gerenciar_despesas", VBool true);
    ("pode_fazer_devolucao", VBool true) ].

(** [from werkzeug.security import generate_password_hash] *)
Definition import_generate_password_hash : M (string → string) :=
  lib ← get (λ w, werkzeug (host w)) ;
  match lib with
  | Some f => ret f
  | None => raise ImportError
  end.

(** [DatabaseReset.create_admin_user] (lines 259-296) *)
Definition create_admin_user : M unit :=
  print MsgAdminStart ;;
  try_except
    (generate_password_hash ← import_generate_password_hash ;
     let senha_hash := generate_password_hash seed_password in
     admin_uuid ← get (λ w, uuid4 (host w)) ;
     conn_insert_usuarios (admin_row admin_uuid senha_hash) ;;
     print MsgAdminCreated)
    (λ e, print (MsgAdminError e)).

(** [DatabaseReset.reset_complete] (lines 298-322) *)
Definition reset_complete : M unit :=
  print MsgResetStart ;;
  print MsgRule ;;
  try_except
    (backup ← backup_data ;
     truncate_all_tables ;;
     create_admin_user ;;
     print MsgRule ;;
     print MsgResetDone ;;
     print MsgSummary ;;
     print (MsgSummaryBackup (size backup)) ;;
     print MsgSummaryTruncated ;;
     print MsgSummaryAdmin)
    (λ e, print (MsgResetError e) ;; raise e).

(** [DatabaseReset.reset_data_only] (lines 324-345) *)
Definition reset_data_only : M unit :=
  print MsgDataStart ;;
  print MsgRule ;;
  try_except
    (backup ← backup_data ;
     truncate_all_tables ;;
     create_admin_user ;;
     print MsgRule ;;
     print MsgDataDone ;;
     print MsgDataStructureKept ;;
     print MsgDataRemoved ;;
     print MsgSummaryAdmin)
    (λ e, print (MsgDataError e) ;; raise e).

(** [confirm_action] (lines 347-364) *)
Definition confirm_action (action_name : string) : M bool :=
  print (MsgWarnAction action_name) ;;
  print MsgWarnErase ;;
  print MsgWarnBank ;;
  line1 ← input MsgPromptConfirmo ;
  let confirm1 := Str.strip line1 in
  if negb (String.eqb confirm1 "CONFIRMO")
  then print MsgCancelled ;; ret false
  else
    line2 ← input MsgPromptSim ;
    let confirm2 := Str.strip line2 in
    if negb (String.eqb confirm2 "SIM")
    then print MsgCancelled ;; ret false
    else print MsgConfirmed ;; ret true.

(** The [if]/[elif] chain of lines 392-404, entered once connected. *)
Definition dispatch (action : string) : M unit :=
  if String.eqb action "check" then print MsgCheckOk
  else if String.eqb action "complete" then
    (confirmed ← confirm_action "fazer RESET COMPLETO do banco" ;
     when confirmed reset_complete)
  else if String.eqb action "data" then
    (confirmed ← confirm_action "LIMPAR TODOS OS DADOS do banco" ;
     when confirmed reset_data_only)
  else print (MsgUnknownAction action).

(** [main] (lines 366-410), with [sys.argv] as its argument. *)
Definition main (sys_argv : list string) : M unit :=
  print MsgBanner ;;
  print MsgRule ;;
  if (length sys_argv <? 2)%nat then
    print MsgUsage ;;
    print MsgUsageComplete ;;
    print MsgUsageData ;;
    print MsgUsageCheck
  else
    let action := Str.lower (nth 1 sys_argv "") in
    dotenv ← get (λ w, dotenv_file (host w)) ;
    when (negb dotenv) (print MsgNoDotenv) ;;
    DatabaseReset_init ;;
    try_finally
      (try_except
         (connected ← connect 3 1.5%float ;
          if negb connected then ret tt
          else dispatch action)
         (λ e, print (MsgGeneralError e)))
      close.

(** ** What is observed of a run *)

Definition result_of {A} (x : Result A * World * list Event) : Result A := x.1.1.
Definition world_of {A} (x : Result A * World * list Event) : World := x.1.2.
Definition log_of {A} (x : Result A * World * list Event) : list Event := x.2.

(** A statement sent to the database ([conn.fetch] or [conn.execute]). *)
Definition is_sql (e : Event) : bool :=
  match e with
  | EvFetch _ _ | EvExecute _ _ => true
  | _ => false
  end.

Definition is_connect (e : Event) : bool :=
  match e with
  | EvConnect _ _ _ => true
  | _ => false
  end.

(** A call of [asyncpg.connect] that gave a connection. *)
Definition is_connected (e : Event) : bool :=
  match e with
  | EvConnect _ _ true => true
  | _ => false
  end.

Definition is_close (e : Event) : bool :=
  match e with
  | EvClose _ => true
  | _ => false
  end.

(** What goes to the console only. *)
Definition is_console (e : Event) : bool :=
  match e with
  | EvPrint _ | EvInput _ _ => true
  | _ => false
  end.

(** The seed INSERT, carried out. *)
Definition is_seeded (e : Event) : bool :=
  match e with
  | EvExecute (InsertUsuarios _) true => true
  | _ => false
  end.

(** The statements given to [conn.execute], in order. *)
Definition executed (o : list Event) : list Sql :=
  omap (λ e, match e with EvExecute q _ => Some q | _ => None end) o.

(** The tables whose [SELECT *] came back. *)
Definition fetched (o : list Event) : list string :=
  omap (λ e, match e with EvFetch (SelectAll t) true => Some t | _ => None end) o.

(** How often [conn.close] was called. *)
Definition closes (o : list Event) : nat := length (List.filter is_close o).

Definition printed (m : Msg) (o : list Event) : Prop := In (EvPrint m) o.

Definition not_seeded (e : Event) : bool := negb (is_seeded e).

(** The two destructive workflows. *)
Inductive Workflow : Type := Complete | Data.

Definition workflow (wf : Workflow) : M unit :=
  match wf with
  | Complete => reset_complete
  | Data => reset_data_only
  end.

(** [r[name]] for a row [r]. *)
Definition field (name : string) (r : Row) : option Value :=
  snd <$> List.find (λ kv, String.eqb kv.1 name) r.

(** The world once a driver call has used up its outcome. *)
Definition after_call (w : World) : World := set_faults (tail (faults w)) w.

(** No driver call to come is made to fail. *)
Definition calm (w : World) : Prop := Forall (λ f, f = None) (faults w).

(** The gate as the interface describes it: it lets a run through when the
    next two lines of input, stripped, are the two tokens. *)
Definition gate_opens (lines : list string) : bool :=
  match lines with
  | l1 :: l2 :: _ =>
      String.eqb (Str.strip l1) "CONFIRMO" && String.eqb (Str.strip l2) "SIM"
  | _ => false
  end.

(** The names truncate-all has to truncate: the catalog's, without the
    migration table, that pass the identifier test. *)
Definition truncate_targets (d : gmap string Table) : list string :=
  or_empty <$> List.filter safe_name (without_migrations (Pg.pg_tables d)).

(** The tables the backup reads. *)
Definition backup_tables : list string := ["usuarios"; "produtos"; "clientes"; "vendas"].

Definition not_sql (e : Event) : bool := negb (is_sql e).

(** The steps that come before the gate only print, call
    [asyncpg.connect] and sleep. *)
Definition is_setup (e : Event) : bool :=
  match e with
  | EvPrint _ | EvConnect _ _ _ | EvSleep _ => true
  | _ => false
  end.

(** Anything but a line of the usage text (lines 372-375). *)
Definition not_usage (e : Event) : bool :=
  match e with
  | EvPrint (MsgUsage | MsgUsageComplete | MsgUsageData | MsgUsageCheck) => false
  | _ => true
  end.

(** The workflows print, read input and send statements. *)
Definition is_work (e : Event) : bool :=
  match e with
  | EvPrint _ | EvInput _ _ | EvFetch _ _ | EvExecute _ _ => true
  | _ => false
  end.

(** Lines 387-410: the [try]/[except]/[finally] of [main]. *)
Definition session (action : string) : M unit :=
  try_finally
    (try_except
       (connected ← connect 3 1.5%float ;
        if negb connected then ret tt
        else dispatch action)
       (λ e, print (MsgGeneralError e)))
    close.

(** What [main] prints before it builds the object. *)
Definition preamble (w : World) : list Event :=
  [EvPrint MsgBanner; EvPrint MsgRule]
  ++ (if dotenv_file (host w) then [] else [EvPrint MsgNoDotenv]).

(** A URL is configured. *)
Definition configured (w : World) : Prop :=
  truthy (py_or (environ (host w) !! "DATABASE_PUBLIC_URL")
                (environ (host w) !! "DATABASE_URL")) = true.

(** Every table of the list, with the rows it holds. *)
Definition full_backup (d : gmap string Table) (m : gmap string (list Row)) : Prop :=
  dom m = list_to_set backup_tables
  ∧ ∀ t, t ∈ backup_tables → m !! t = rows <$> d !! t.

(** The statements the loop has to send for the names [l]. *)
Definition loop_statements (l : list (option string)) : list Sql :=
  TruncateTable <$> (or_empty <$> List.filter safe_name l).

(** The statements [conn.execute] carried out, in order. *)
Definition carried_out (o : list Event) : list Sql :=
  omap (λ e, match e with EvExecute q true => Some q | _ => None end) o.

(** A TRUNCATE of a name that passes the identifier test and is not the
    migration table. *)
Definition is_truncate_of_identifier (q : Sql) : Prop :=
  ∃ n, q = TruncateTable n ∧ Str.re_match_identifier n = true ∧ n ≠ "alembic_version".

(** No [conn.fetch] but the catalog query. *)
Definition only_catalog_fetch (e : Event) : bool :=
  match e with
  | EvFetch SelectPgTables _ => true
  | EvFetch _ _ => false
  | _ => true
  end.

(** [TRUNCATE TABLE "usuarios" ...], carried out. *)
Definition usuarios_truncated (o : list Event) : Prop :=
  In (EvExecute (TruncateTable "usuarios") true) o.

(** The columns the seed INSERT names (lines 272-276). *)
Definition seed_columns : list string :=
  ["id"; "nome"; "usuario"; "senha_hash"; "is_admin"; "ativo"; "nivel"; "salario";
   "pode_abastecer"; "pode_gerenciar_despesas"; "pode_fazer_devolucao"].

(** The action each workflow is asked for by (lines 395 and 399), and what
    its gate names (lines 396 and 400). *)
Definition workflow_name (wf : Workflow) : string :=
  match wf with
  | Complete => "complete"
  | Data => "data"
  end.

Definition gate_text (wf : Workflow) : string :=
  match wf with
  | Complete => "fazer RESET COMPLETO do banco"
  | Data => "LIMPAR TODOS OS DADOS do banco"
  end.

(** A workflow under the [except] and the [finally] of [main]
    (lines 406-410). *)
Definition guarded (wf : Workflow) : M unit :=
  try_finally (try_except (workflow wf) (λ e, print (MsgGeneralError e))) close.

(** [uses_up m]: of the outcomes in store for the driver calls, [m] only
    uses up some from the front. *)
Definition uses_up {A} (m : M A) : Prop :=
  ∀ w, ∃ k, faults (world_of (m w)) = drop k (faults w).

(** How far the backup gets: the number of fetches, in the order of the
    list, that come back before the first that does not (the driver
    fails, or the table is not there). *)
Fixpoint fetches_before_failure (fs : list (option string)) (d : gmap string Table)
    (tables : list string) : nat :=
  match tables with
  | [] => 0
  | t :: ts =>
      match hd None fs, d !! t with
      | None, Some _ => S (fetches_before_failure (tail fs) d ts)
      | _, _ => 0
      end
  end.

(** ** Frames

    [keeps view allowed m]: whatever [m] does, the part [view] of the world
    is as before and every event of its log is [allowed]. *)
Definition keeps {X A} (view : World → X) (allowed : Event → bool) (m : M A) : Prop :=
  ∀ w, view (world_of (m w)) = view w ∧ forallb allowed (log_of (m w)) = true.

(** ** Sample worlds *)

(** The [usuarios] table of the running backend, which has the columns
    the seed INSERT names. *)
Definition usuarios_backend : Table :=
  {| columns := ["id"; "nome"; "usuario"; "senha_hash"; "is_admin"; "ativo";
                 "nivel"; "salario"; "pode_abastecer"; "pode_gerenciar_despesas";
                 "pode_fazer_devolucao"; "created_at"; "updated_at"];
     references := [];
     rows := [[("usuario", VStr "maria"); ("is_admin", VBool false)];
              [("usuario", VStr "joao"); ("is_admin", VBool true)]] |}.

(** The [usuarios] table as [create_tables] declares it (lines 174-183):
    none of [nivel], [salario], [pode_*]. *)
Definition usuarios_create_tables : Table :=
  {| columns := ["id"; "nome"; "usuario"; "senha_hash"; "is_admin"; "ativo";
                 "created_at"; "updated_at"];
     references := [];
     rows := [[("usuario", VStr "maria"); ("is_admin", VBool false)]] |}.

Definition produtos_sample : Table :=
  {| columns := ["id"; "codigo"; "nome"]; references := [];
     rows := [[("codigo", VStr "P1")]] |}.

Definition clientes_sample : Table :=
  {| columns := ["id"; "nome"]; references := []; rows := [] |}.

Definition vendas_sample : Table :=
  {| columns := ["id"; "usuario_id"; "total"]; references := ["usuarios"];
     rows := [[("total", VInt 10)]] |}.

Definition backend_db : gmap string Table :=
  <["usuarios" := usuarios_backend]>
    (<["produtos" := produtos_sample]>
       (<["clientes" := clientes_sample]>
          (<["vendas" := vendas_sample]>
             (<["alembic_version" := clientes_sample]> ∅)))).

Definition sample_hash (password : string) : string :=
  "pbkdf2:sha256:600000$salt$" ++ password.

Definition sample_host : Host :=
  {| environ := <["DATABASE_URL" := "postgresql+asyncpg://pos@example.net/pos"]> ∅;
     dotenv_file := false;
     werkzeug := Some sample_hash;
     uuid4 := 7 |}.

(** A fresh process: lines of input, driver faults, database. *)
Definition sample_world (lines : list string) (fs : list (option string))
    (d : gmap string Table) : World :=
  {| host := sample_host; stdin := lines; faults := fs; db := d;
     self_database_url := ""; self_conn := false |}.

(** The same, once [connect] has succeeded. *)
Definition sample_connected (lines : list string) (fs : list (option string))
    (d : gmap string Table) : World :=
  {| host := sample_host; stdin := lines; faults := fs; db := d;
     self_database_url := "postgresql://pos@example.net/pos"; self_conn := true |}.

Definition script : string := "reset_database_online.py".

(** A process with no URL in its environment. *)
Definition unconfigured_world : World :=
  {| host := {| environ := ∅; dotenv_file := true; werkzeug := Some sample_hash;
                uuid4 := 7 |};
     stdin := ["CONFIRMO"; "SIM"]; faults := []; db := backend_db;
     self_database_url := ""; self_conn := false |}.

(** A catalog with a name that is no identifier. *)
Definition catalog_with_unsafe_name : gmap string Table :=
  <["my-table" := produtos_sample]>
    (<["usuarios" := usuarios_backend]>
       (<["alembic_version" := clientes_sample]> ∅)).

(** ** The rest of the script: what the properties further down are stated with *)

Definition asyncpg_scheme : string := "postgresql+asyncpg://".
Definition psycopg2_scheme : string := "postgresql+psycopg2://".

(** The URL the constructor reads: the public one when it is set and not
    empty, the internal one otherwise. *)
Definition configured_url (w : World) : option string :=
  py_or (environ (host w) !! "DATABASE_PUBLIC_URL") (environ (host w) !! "DATABASE_URL").

Definition empty_urls_world : World :=
  {| host := {| environ := <["DATABASE_PUBLIC_URL" := ""]> (<["DATABASE_URL" := ""]> ∅);
                dotenv_file := true; werkzeug := Some sample_hash; uuid4 := 7 |};
     stdin := []; faults := []; db := backend_db;
     self_database_url := ""; self_conn := false |}.

Definition connect_url (e : Event) : option string :=
  match e with
  | EvConnect url _ _ => Some url
  | _ => None
  end.

(** No driver scheme in front. *)
Definition plain_scheme (url : string) : bool :=
  negb (Str.startswith asyncpg_scheme url) && negb (Str.startswith psycopg2_scheme url).

Definition not_connect (e : Event) : bool := negb (is_connect e).

(** How many of the driver calls to come fail before one goes through. *)
Fixpoint leading_faults (fs : list (option string)) : nat :=
  match fs with
  | Some _ :: fs' => S (leading_faults fs')
  | _ => 0
  end.

(** The calls of [asyncpg.connect] in a log, and the delays slept. *)
Definition attempts (o : list Event) : nat := length (List.filter is_connect o).

Definition sleeps (o : list Event) : list float :=
  omap (λ e, match e with EvSleep d => Some d | _ => None end) o.

(** [base_delay * attempt] *)
Definition backoff (base_delay : float) (attempt : nat) : float :=
  PrimFloat.mul base_delay (float_of_int attempt).

(** Printing, connecting, sleeping and closing: no statement, no prompt. *)
Definition is_plumbing (e : Event) : bool := is_setup e || is_close e.

(** The structure of the tables: which exist, with which columns and
    foreign keys. *)
Definition structure (d : gmap string Table) : gmap string (list string * list string) :=
  (λ t, (columns t, references t)) <$> d.

Definition anything (e : Event) : bool := true.

Definition newline : string := String (ascii_of_N 10) EmptyString.
Definition double_quote : ascii := ascii_of_N 34.

Fixpoint chars (s : string) : list ascii :=
  match s with
  | EmptyString => []
  | String c s' => c :: chars s'
  end.

(** The statements given to [conn.fetch], in order. *)
Definition queries (o : list Event) : list Sql :=
  omap (λ e, match e with EvFetch q _ => Some q | _ => None end) o.

Definition is_insert (e : Event) : bool :=
  match e with
  | EvExecute (InsertUsuarios _) _ => true
  | _ => false
  end.

Definition is_failed_truncate (e : Event) : bool :=
  match e with
  | EvExecute (TruncateTable _) false => true
  | _ => false
  end.

Definition not_insert (e : Event) : bool := negb (is_insert e).
Definition not_truncate_failure (e : Event) : bool := negb (is_failed_truncate e).

(** ** The drop-and-rebuild path ([drop_all_tables], [create_tables])

    No workflow calls these two methods.  They send statements and print
    lines of their own, so their log has events of its own beside those of
    the workflows.  A table is its columns and its foreign keys here: the
    column types, defaults and constraints of the CREATE TABLE statements
    are not part of the model. *)

Inductive RebuildSql : Type :=
| DropTable (table : string)       (* DROP TABLE IF EXISTS "<table>" CASCADE *)
| CreateTable (table : string) (cols : list string) (refs : list string).
                                   (* CREATE TABLE <table> (...) *)

Inductive RebuildMsg : Type :=
(* drop_all_tables *)
| MsgDropStart                                     (* line 105 *)
| MsgNothingToDrop                                 (* line 117 *)
| MsgDropped (table : option string)               (* line 125 *)
| MsgDropError (table : option string) (e : Exn)   (* line 127 *)
| MsgDropDone                                      (* line 129 *)
| MsgDropFailed (e : Exn)                          (* line 132 *)
(* create_tables *)
| MsgCreateStart                                   (* line 169 *)
| MsgCreated (table : string)                      (* lines 185, 205, 220, 236, 251 *)
| MsgCreateDone                                    (* line 253 *)
| MsgCreateFailed (e : Exn).                       (* line 256 *)

Inductive RebuildEvent : Type :=
| Shared (e : Event)                       (* an event of the workflows' kind *)
| RbPrint (m : RebuildMsg)
| RbExecute (q : RebuildSql) (ok : bool).  (* conn.execute *)

Module Ddl.

(** [DROP TABLE IF EXISTS "<name>" CASCADE] on plain tables: the table
    goes, if it is there, and with it the foreign keys of other tables
    that point to it. *)
Definition drop (name : string) (d : gmap string Table) : gmap string Table :=
  (λ t, {| columns := columns t;
           references := List.filter (λ r, negb (String.eqb r name)) (references t);
           rows := rows t |})
  <$> delete name d.

(** [CREATE TABLE <name> (...)] with foreign keys to [refs]: refused when
    the table exists or when a table referred to does not. *)
Definition create (name : string) (cols refs : list string) (d : gmap string Table)
  : string + gmap string Table :=
  match d !! name with
  | Some _ => inl ("relation " +:+ Pg.quoted name +:+ " already exists")
  | None =>
      match List.find (λ r, negb (bool_decide (is_Some (d !! r)))) refs with
      | None => inr (<[name := {| columns := cols; references := refs; rows := [] |}]> d)
      | Some r => inl (Pg.undefined_table r)
      end
  end.

End Ddl.

Definition R (A : Type) : Type := World → Result A * World * list RebuildEvent.

Definition rret {A} (a : A) : R A := λ w, (Ok a, w, []).

Definition rraise {A} (e : Exn) : R A := λ w, (Raise e, w, []).

Definition rbind {A B} (m : R A) (f : A → R B) : R B :=
  λ w,
    match m w with
    | (Ok a, w1, o1) =>
        match f a w1 with
        | (r, w2, o2) => (r, w2, o1 ++ o2)
        end
    | (Raise e, w1, o1) => (Raise e, w1, o1)
    end.

Definition rtry_except {A} (m : R A) (h : Exn → R A) : R A :=
  λ w,
    match m w with
    | (Ok a, w1, o1) => (Ok a, w1, o1)
    | (Raise e, w1, o1) =>
        match h e w1 with
        | (r, w2, o2) => (r, w2, o1 ++ o2)
        end
    end.

(** A computation of the workflows' kind, run here. *)
Definition lift {A} (m : M A) : R A :=
  λ w, match m w with (r, w1, o1) => (r, w1, Shared <$> o1) end.

Definition rprint (m : RebuildMsg) : R unit := λ w, (Ok tt, w, [RbPrint m]).

Declare Scope rebuild_scope.
Delimit Scope rebuild_scope with rebuild.
Notation "x ← m ; k" := (rbind m (λ x, k))
  (at level 20, m at level 100, k at level 200, only parsing) : rebuild_scope.
Notation "m ;; k" := (rbind m (λ _, k))
  (at level 100, k at level 200, only parsing, right associativity) : rebuild_scope.

(** [await self.conn.execute(q)] for the statements of this path. *)
Definition ddl_execute (q : RebuildSql)
    (run : gmap string Table → string + gmap string Table) : R unit :=
  (lift the_conn ;;
   f ← lift next_fault ;
   d ← lift (get db) ;
   match f, run d with
   | Some msg, _ => (λ w, (Raise (DriverError msg), w, [RbExecute q false]))
   | None, inl failure => (λ w, (Raise (DriverError failure), w, [RbExecute q false]))
   | None, inr d' => (λ w, (Ok tt, set_db d' w, [RbExecute q true]))
   end)%rebuild.

Definition conn_drop (table : string) : R unit :=
  ddl_execute (DropTable table) (λ d, inr (Ddl.drop table d)).

Definition conn_create (table : string) (cols refs : list string) : R unit :=
  ddl_execute (CreateTable table cols refs) (Ddl.create table cols refs).

(** The loop of lines 120-127: a DROP that raises is reported and the
    loop goes on. *)
Fixpoint drop_loop (table_names : list (option string)) : R unit :=
  match table_names with
  | [] => rret tt
  | table :: rest =>
      if negb (safe_name table) then drop_loop rest
      else
        (rtry_except
           (conn_drop (or_empty table) ;;
            rprint (MsgDropped table))
           (λ e, rprint (MsgDropError table e)) ;;
         drop_loop rest)%rebuild
  end.

(** [DatabaseReset.drop_all_tables] (lines 103-133) *)
Definition drop_all_tables : R unit :=
  (rprint MsgDropStart ;;
   rtry_except
     (table_names ← lift conn_fetch_pg_tables ;
      match table_names with
      | [] => rprint MsgNothingToDrop
      | _ :: _ =>
          drop_loop table_names ;;
          rprint MsgDropDone
      end)
     (λ e, rprint (MsgDropFailed e) ;; rraise e))%rebuild.

(** The columns of the five CREATE TABLE statements (lines 173-250). *)
Definition usuarios_columns : list string :=
  ["id"; "nome"; "usuario"; "senha_hash"; "is_admin"; "ativo";
   "created_at"; "updated_at"].

Definition produtos_columns : list string :=
  ["id"; "codigo"; "nome"; "descricao"; "preco_custo"; "preco_venda"; "estoque";
   "estoque_minimo"; "ativo"; "venda_por_peso"; "unidade_medida";
   "created_at"; "updated_at"].

Definition clientes_columns : list string :=
  ["id"; "nome"; "nuit"; "telefone"; "email"; "endereco"; "created_at"; "updated_at"].

Definition vendas_columns : list string :=
  ["id"; "usuario_id"; "total"; "forma_pagamento"; "valor_recebido"; "troco";
   "data_venda"; "created_at"; "updated_at"].

Definition itens_venda_columns : list string :=
  ["id"; "venda_id"; "produto_id"; "quantidade"; "preco_unitario"; "subtotal";
   "created_at"; "updated_at"].

(** [DatabaseReset.create_tables] (lines 167-257) *)
Definition create_tables : R unit :=
  (rprint MsgCreateStart ;;
   rtry_except
     (conn_create "usuarios" usuarios_columns [] ;;
      rprint (MsgCreated "usuarios") ;;
      conn_create "produtos" produtos_columns [] ;;
      rprint (MsgCreated "produtos") ;;
      conn_create "clientes" clientes_columns [] ;;
      rprint (MsgCreated "clientes") ;;
      conn_create "vendas" vendas_columns ["usuarios"] ;;
      rprint (MsgCreated "vendas") ;;
      conn_create "itens_venda" itens_venda_columns ["vendas"] ;;
      rprint (MsgCreated "itens_venda") ;;
      rprint MsgCreateDone)
     (λ e, rprint (MsgCreateFailed e) ;; rraise e))%rebuild.

Definition rresult {A} (x : Result A * World * list RebuildEvent) : Result A := x.1.1.
Definition rworld {A} (x : Result A * World * list RebuildEvent) : World := x.1.2.
Definition rlog {A} (x : Result A * World * list RebuildEvent) : list RebuildEvent := x.2.

(** The statements given to [conn.execute] on this path, in order. *)
Definition rebuilt (o : list RebuildEvent) : list RebuildSql :=
  omap (λ e, match e with RbExecute q _ => Some q | _ => None end) o.

(** The five tables of [create_tables], as it makes them. *)
Definition fresh_schema : list (string * Table) :=
  [ ("usuarios", {| columns := usuarios_columns; references := []; rows := [] |});
    ("produtos", {| columns := produtos_columns; references := []; rows := [] |});
    ("clientes", {| columns := clientes_columns; references := []; rows := [] |});
    ("vendas", {| columns := vendas_columns; references := ["usuarios"]; rows := [] |});
    ("itens_venda",
     {| columns := itens_venda_columns; references := ["vendas"]; rows := [] |}) ].

(** The names of the five tables. *)
Definition fresh_names : list string := fresh_schema.*1.

(** A database whose only table has a name that is no identifier. *)
Definition unsafe_only_db : gmap string Table := <["my-table" := produtos_sample]> ∅.

(** ** Frame reasoning *)

Section Frame.
Context {X : Type} (view : World → X) (allowed : Event → bool).

Lemma keeps_ret {A} (a : A) : keeps view allowed (ret a).
Proof. by intros w. Qed.

Lemma keeps_raise {A} (e : Exn) : keeps view allowed (@raise A e).
Proof. by intros w. Qed.

Lemma keeps_get {A} (f : World → A) : keeps view allowed (get f).
Proof. by intros w. Qed.

Lemma keeps_emit (e : Event) : allowed e = true → keeps view allowed (emit e).
Proof. intros He w. cbn. by rewrite He. Qed.

Lemma keeps_modify (f : World → World) :
  (∀ w, view (f w) = view w) → keeps view allowed (modify f).
Proof. intros Hf w. by split; [apply Hf|]. Qed.

Lemma keeps_bind {A B} (m : M A) (f : A → M B) :
  keeps view allowed m → (∀ a, keeps view allowed (f a)) → keeps view allowed (bind m f).
Proof.
  intros Hm Hf w. unfold bind. destruct (Hm w) as [Hv Hl].
  destruct (m w) as [[[a|e] w1] o1]; [|done].
  destruct (Hf a w1) as [Hv' Hl'].
  destruct (f a w1) as [[r w2] o2]. unfold world_of, log_of in *. cbn in *.
  split; [congruence|]. rewrite forallb_app. by rewrite Hl, Hl'.
Qed.

Lemma keeps_try_except {A} (m : M A) (h : Exn → M A) :
  keeps view allowed m → (∀ e, keeps view allowed (h e)) → keeps view allowed (try_except m h).
Proof.
  intros Hm Hh w. unfold try_except. destruct (Hm w) as [Hv Hl].
  destruct (m w) as [[[a|e] w1] o1]; [done|].
  destruct (Hh e w1) as [Hv' Hl'].
  destruct (h e w1) as [[r w2] o2]. unfold world_of, log_of in *. cbn in *.
  split; [congruence|]. rewrite forallb_app. by rewrite Hl, Hl'.
Qed.

Lemma keeps_try_finally {A} (m : M A) (f : M unit) :
  keeps view allowed m → keeps view allowed f → keeps view allowed (try_finally m f).
Proof.
  intros Hm Hf w. unfold try_finally. destruct (Hm w) as [Hv Hl].
  destruct (m w) as [[r w1] o1].
  destruct (Hf w1) as [Hv' Hl'].
  destruct (f w1) as [[[u|e] w2] o2]; unfold world_of, log_of in *; cbn in *;
    (split; [congruence|]); rewrite forallb_app; by rewrite Hl, Hl'.
Qed.

Lemma keeps_when (b : bool) (m : M unit) : keeps view allowed m → keeps view allowed (when b m).
Proof. intros Hm. destruct b; [done|apply keeps_ret]. Qed.

Lemma keeps_next_fault :
  (∀ f w, view (set_faults f w) = view w) → keeps view allowed next_fault.
Proof.
  intros Hf w. unfold next_fault. by split; [apply Hf|].
Qed.

Lemma keeps_input (p : Msg) :
  (∀ l w, view (set_stdin l w) = view w) →
  (∀ l, allowed (EvInput p l) = true) → keeps view allowed (input p).
Proof.
  intros Hs Ha w. unfold input. destruct (stdin w); cbn.
  - by rewrite Ha.
  - rewrite Ha. by split; [apply Hs|].
Qed.

End Frame.

(** One step of a frame proof, by the shape of the computation. *)
Ltac keeps_step :=
  lazymatch goal with
  | |- keeps _ _ (bind _ _) => apply keeps_bind; [|intros ?]
  | |- keeps _ _ (try_except _ _) => apply keeps_try_except; [|intros ?]
  | |- keeps _ _ (try_finally _ _) => apply keeps_try_finally
  | |- keeps _ _ (when _ _) => apply keeps_when
  | |- keeps _ _ (ret _) => apply keeps_ret
  | |- keeps _ _ (raise _) => apply keeps_raise
  | |- keeps _ _ (get _) => apply keeps_get
  | |- keeps _ _ (getenv _) => apply keeps_get
  | |- keeps _ _ (print _) => apply keeps_emit; reflexivity
  | |- keeps _ _ (emit _) => apply keeps_emit; reflexivity
  | |- keeps _ _ (modify _) => apply keeps_modify; intros ?; reflexivity
  | |- keeps _ _ next_fault => apply keeps_next_fault; intros ? ?; reflexivity
  | |- keeps _ _ (input _) =>
      apply keeps_input; [intros ? ?; reflexivity|intros ?; reflexivity]
  | |- keeps _ _ (if ?b then _ else _) => destruct b
  | |- keeps _ _ (match ?x with _ => _ end) => destruct x
  end.

Ltac keeps_auto := repeat keeps_step.

(** The functions of the script are unfolded by name only. *)
#[local] Arguments DatabaseReset_init : simpl never.
#[local] Arguments connect : simpl never.
#[local] Arguments close : simpl never.
#[local] Arguments backup_data : simpl never.
#[local] Arguments truncate_all_tables : simpl never.
#[local] Arguments create_admin_user : simpl never.
#[local] Arguments reset_complete : simpl never.
#[local] Arguments reset_data_only : simpl never.
#[local] Arguments confirm_action : simpl never.
#[local] Arguments dispatch : simpl never.
#[local] Arguments session : simpl never.
#[local] Arguments main : simpl never.
#[local] Arguments closes : simpl never.
#[local] Arguments without_migrations : simpl never.
#[local] Arguments preamble : simpl never.
#[local] Arguments result_of {A} !x /.
#[local] Arguments world_of {A} !x /.
#[local] Arguments log_of {A} !x /.

Create HintDb prog discriminated.
#[local] Hint Unfold asyncpg_connect conn_fetch_all conn_fetch_pg_tables
  conn_execute conn_truncate conn_insert_usuarios conn_close the_conn
  connect_hints import_generate_password_hash : prog.

(** *** What the steps before and after the workflows leave alone *)

Lemma close_quiet : keeps (λ w, (db w, stdin w)) not_sql close.
Proof. unfold close. autounfold with prog. keeps_auto. Qed.

Lemma connect_setup retries base_delay :
  keeps (λ w, (db w, stdin w)) is_setup (connect retries base_delay).
Proof.
  unfold connect. generalize retries at 2. intros remaining.
  induction remaining as [|k IH]; cbn [connect_loop]; autounfold with prog;
    keeps_auto; exact IH.
Qed.

Lemma forallb_weaken {A} (p q : A → bool) (l : list A) :
  (∀ x, p x = true → q x = true) → forallb p l = true → forallb q l = true.
Proof.
  intros Hpq. rewrite !forallb_forall. intros Hp x Hx. apply Hpq. by apply Hp.
Qed.

Lemma setup_not_sql o : forallb is_setup o = true → forallb not_sql o = true.
Proof. apply forallb_weaken. by intros []. Qed.

Lemma setup_not_connected_closed o :
  forallb is_setup o = true → closes o = 0.
Proof.
  unfold closes. induction o as [|e o IH]; [done|]. cbn.
  intros [He Ho]%andb_true_iff. destruct e; try done; cbn; by apply IH.
Qed.

(** [connect] never raises; it answers [True] exactly when one of its
    attempts gave a connection, and then [self.conn] is set. *)
Lemma connect_loop_result retries base_delay remaining w :
  let r := connect_loop retries base_delay remaining w in
  (result_of r = Ok true ∧ self_conn (world_of r) = true
   ∧ existsb is_connected (log_of r) = true)
  ∨ (result_of r = Ok false ∧ self_conn (world_of r) = self_conn w
     ∧ existsb is_connected (log_of r) = false).
Proof.
  revert w. induction remaining as [|k IH]; intros w; [by right|].
  cbn [connect_loop]. autounfold with prog.
  unfold bind, try_except, get, next_fault, emit, print, modify, ret, raise.
  destruct (faults w) as [|[msg|] fs] eqn:Hf; cbn -[Nat.ltb]; [by left| |by left].
  destruct (Str.contains "WinError 64" msg),
    (Str.contains "TLS handshake timeout" msg || Str.contains "handshake" msg),
    (retries - k <? retries)%nat; cbn;
    (destruct (IH (set_faults fs w)) as [(Hr & Hc & Hl)|(Hr & Hc & Hl)];
     destruct (connect_loop retries base_delay k (set_faults fs w)) as [[r w'] o'];
     unfold result_of, world_of, log_of in *; cbn in *; subst r;
     [left|right]; by rewrite ?Hl).
Qed.

Lemma connect_result retries base_delay w :
  let r := connect retries base_delay w in
  (result_of r = Ok true ∧ self_conn (world_of r) = true
   ∧ existsb is_connected (log_of r) = true)
  ∨ (result_of r = Ok false ∧ self_conn (world_of r) = self_conn w
     ∧ existsb is_connected (log_of r) = false).
Proof. apply connect_loop_result. Qed.

(** With at least one attempt allowed, [asyncpg.connect] is called. *)
Lemma connect_attempted retries base_delay w :
  existsb is_connect (log_of (connect (S retries) base_delay w)) = true.
Proof.
  unfold connect. cbn [connect_loop]. autounfold with prog.
  unfold bind, try_except, get, next_fault, emit, print, modify, ret, raise.
  destruct (faults w) as [|[msg|] fs]; cbn -[Nat.ltb connect_loop]; [done| |done].
  repeat match goal with
         | |- context [when ?b _ _] => destruct b; cbn -[Nat.ltb connect_loop]
         end;
    destruct (connect_loop _ _ _ _) as [[r w'] o']; done.
Qed.

(** *** The constructor *)

Lemma init_run w :
  (DatabaseReset_init w = (Raise ValueError, w, [])
   ∧ truthy (py_or (environ (host w) !! "DATABASE_PUBLIC_URL")
                   (environ (host w) !! "DATABASE_URL")) = false)
  ∨ ∃ url, DatabaseReset_init w = (Ok tt, new_self url w, []).
Proof.
  unfold DatabaseReset_init, bind, getenv, get. cbn.
  destruct (py_or _ _) as [url|]; [|by left].
  cbn. destruct (String.eqb url ""); cbn; [by left|].
  right. by eexists.
Qed.

(** *** [close] *)

Lemma close_idle w : self_conn w = false → close w = (Ok tt, w, []).
Proof. intros H. unfold close, bind, get. by rewrite H. Qed.

Lemma close_once w :
  self_conn w = true →
  closes (log_of (close w)) = 1 ∧ existsb is_connected (log_of (close w)) = false.
Proof.
  intros H. unfold close, bind, get. rewrite H. cbn.
  unfold conn_close, bind, next_fault.
  by destruct (faults w) as [|[msg|] fs].
Qed.

(** *** The workflows leave [self.conn] alone and neither connect nor close *)

Lemma backup_data_work : keeps self_conn is_work backup_data.
Proof. unfold backup_data. autounfold with prog. keeps_auto. Qed.

Lemma truncate_loop_work l : keeps self_conn is_work (truncate_loop l).
Proof.
  induction l as [|t l IH]; cbn [truncate_loop]; autounfold with prog;
    keeps_auto; exact IH.
Qed.

Lemma truncate_all_tables_work : keeps self_conn is_work truncate_all_tables.
Proof.
  unfold truncate_all_tables. autounfold with prog. keeps_auto;
    apply truncate_loop_work.
Qed.

Lemma create_admin_user_work : keeps self_conn is_work create_admin_user.
Proof. unfold create_admin_user. autounfold with prog. keeps_auto. Qed.

Lemma reset_complete_work : keeps self_conn is_work reset_complete.
Proof.
  unfold reset_complete. keeps_auto;
    auto using backup_data_work, truncate_all_tables_work, create_admin_user_work.
Qed.

Lemma reset_data_only_work : keeps self_conn is_work reset_data_only.
Proof.
  unfold reset_data_only. keeps_auto;
    auto using backup_data_work, truncate_all_tables_work, create_admin_user_work.
Qed.

Lemma confirm_action_work action_name :
  keeps self_conn is_work (confirm_action action_name).
Proof. unfold confirm_action. keeps_auto. Qed.

Lemma dispatch_work action : keeps self_conn is_work (dispatch action).
Proof.
  unfold dispatch. keeps_auto;
    auto using confirm_action_work, reset_complete_work, reset_data_only_work.
Qed.

Lemma closes_app o1 o2 : closes (o1 ++ o2) = closes o1 + closes o2.
Proof. unfold closes. by rewrite List.filter_app, length_app. Qed.

Lemma work_not_closed o : forallb is_work o = true → closes o = 0.
Proof.
  unfold closes. induction o as [|e o IH]; [done|]. cbn.
  intros [He Ho]%andb_true_iff. destruct e; try done; cbn; by apply IH.
Qed.

Lemma main_usage sys_argv w :
  length sys_argv < 2 →
  main sys_argv w =
    (Ok tt, w,
     [EvPrint MsgBanner; EvPrint MsgRule; EvPrint MsgUsage;
      EvPrint MsgUsageComplete; EvPrint MsgUsageData; EvPrint MsgUsageCheck]).
Proof.
  intros H. unfold main. apply Nat.ltb_lt in H.
  unfold bind, print, emit. cbn -[Nat.ltb]. by rewrite H.
Qed.

Lemma main_run prog arg rest w :
  (DatabaseReset_init w = (Raise ValueError, w, [])
   ∧ main (prog :: arg :: rest) w = (Raise ValueError, w, preamble w))
  ∨ ∃ url,
      DatabaseReset_init w = (Ok tt, new_self url w, [])
      ∧ main (prog :: arg :: rest) w =
          (let s := session (Str.lower arg) (new_self url w) in
           (result_of s, world_of s, preamble w ++ log_of s)).
Proof.
  unfold main, preamble. fold (session (Str.lower (nth 1 (prog :: arg :: rest) ""))).
  cbn [length Nat.ltb Nat.leb nth]. unfold bind, print, emit, get, when, ret.
  destruct (init_run w) as [[Hi _]|[url Hi]]; [left|right; exists url];
    (split; [done|]); destruct (dotenv_file (host w));
    cbn -[session DatabaseReset_init]; rewrite Hi; try done;
    by destruct (session _ _) as [[r w'] o].
Qed.

Lemma session_closes action w :
  self_conn w = false →
  closes (log_of (session action w))
  = if existsb is_connected (log_of (session action w)) then 1 else 0.
Proof.
  intros Hc. unfold session, try_finally, try_except, bind.
  pose proof (connect_result 3 1.5%float w) as Hr.
  pose proof (connect_setup 3 1.5%float w) as [_ Hs%setup_not_connected_closed].
  destruct (connect 3 1.5%float w) as [[rc w1] o1].
  unfold result_of, world_of, log_of in *. cbn in Hr, Hs.
  destruct Hr as [(-> & Hc1 & Hl1)|(-> & Hc1 & Hl1)]; cbn.
  - pose proof (dispatch_work action w1) as [Hv Hw].
    destruct (dispatch action w1) as [[[[]|e] w2] o2];
      unfold world_of, log_of in *; cbn in Hv, Hw |- *;
      (destruct (close_once w2) as [Hn Hx]; [congruence|]);
      destruct (close w2) as [[[[]|e'] w3] o3];
      unfold log_of in *; cbn in Hn, Hx |- *;
      rewrite ?closes_app, ?existsb_app, ?Hl1, ?Hs, ?Hn, ?(work_not_closed _ Hw); cbn; try done.
  - rewrite close_idle by congruence. cbn.
    by rewrite !app_nil_r, Hl1, Hs.
Qed.

(** *** The gate *)

Lemma confirm_action_gate action_name w :
  let r := confirm_action action_name w in
  (result_of r = Ok true ↔ gate_opens (stdin w) = true)
  ∧ (result_of r = Ok true ∨ result_of r = Ok false ∨ result_of r = Raise EOFError)
  ∧ db (world_of r) = db w
  ∧ forallb is_console (log_of r) = true.
Proof.
  unfold confirm_action, bind, print, emit, input, ret, gate_opens.
  destruct (stdin w) as [|l1 ls]; cbn; [intuition congruence|].
  destruct (String.eqb (Str.strip l1) "CONFIRMO"); cbn;
    [|destruct ls as [|? ?]; intuition congruence].
  destruct ls as [|l2 ls]; cbn; [intuition congruence|].
  destruct (String.eqb (Str.strip l2) "SIM"); cbn; intuition congruence.
Qed.

Lemma console_not_sql o : forallb is_console o = true → forallb not_sql o = true.
Proof. apply forallb_weaken. by intros []. Qed.

(** A gate that stays shut: the workflow behind it is not entered. *)
Lemma dispatch_refused action w :
  action = "complete" ∨ action = "data" →
  gate_opens (stdin w) = false →
  db (world_of (dispatch action w)) = db w
  ∧ forallb is_console (log_of (dispatch action w)) = true.
Proof.
  intros Ha Hg. unfold dispatch.
  destruct Ha as [-> | ->]; cbn [String.eqb Ascii.eqb Bool.eqb]; unfold bind;
    match goal with |- context [confirm_action ?n w] =>
      destruct (confirm_action_gate n w) as (Hiff & Hres & Hdb & Hlog);
      destruct (confirm_action n w) as [[r w1] o1]
    end;
    unfold result_of, world_of, log_of in *; cbn in *;
    destruct Hres as [-> | [-> | ->]]; cbn;
    try (rewrite app_nil_r); try done;
    destruct Hiff as [Hiff _]; specialize (Hiff eq_refl); congruence.
Qed.

Lemma dispatch_unknown action :
  String.eqb action "check" = false →
  String.eqb action "complete" = false →
  String.eqb action "data" = false →
  dispatch action = print (MsgUnknownAction action).
Proof. intros H1 H2 H3. unfold dispatch. by rewrite H1, H2, H3. Qed.

(** Under [session], a step that sends no statement and leaves the
    database alone is all it takes for the whole to do the same. *)
Lemma session_quiet action w :
  (∀ w1, stdin w1 = stdin w → db w1 = db w →
         db (world_of (dispatch action w1)) = db w1
         ∧ forallb not_sql (log_of (dispatch action w1)) = true) →
  db (world_of (session action w)) = db w
  ∧ forallb not_sql (log_of (session action w)) = true.
Proof.
  intros Hd. unfold session, try_finally, try_except, bind.
  pose proof (connect_setup 3 1.5%float w) as [Hv Hs%setup_not_sql].
  destruct (connect 3 1.5%float w) as [[rc w1] o1].
  unfold world_of, log_of in *. cbn in Hv, Hs. injection Hv as Hdb Hin.
  assert (∀ w2 o2 (r : Result unit),
    db w2 = db w → forallb not_sql o2 = true →
    db (match close w2 with
        | (Ok _, w3, o3) => (r, w3, o2 ++ o3)
        | (Raise e, w3, o3) => (Raise e, w3, o2 ++ o3)
        end).1.2 = db w
    ∧ forallb not_sql
        (match close w2 with
         | (Ok _, w3, o3) => (r, w3, o2 ++ o3)
         | (Raise e, w3, o3) => (Raise e, w3, o2 ++ o3)
         end).2 = true) as Hclose.
  { intros w2 o2 r Hdb2 Ho2.
    pose proof (close_quiet w2) as [Hv3 Hl3].
    destruct (close w2) as [[[[]|e] w3] o3]; unfold world_of, log_of in *;
      cbn in Hv3, Hl3 |- *; injection Hv3 as Hdb3 _;
      rewrite forallb_app, Ho2, Hl3; (split; [congruence|done]). }
  destruct rc as [[|]|e]; cbn.
  - destruct (Hd w1 Hin Hdb) as [Hdb2 Hl2].
    destruct (dispatch action w1) as [[[[]|e] w2] o2]; cbn in Hdb2, Hl2 |- *;
      apply Hclose; try congruence;
      rewrite ?forallb_app, Hs, Hl2; done.
  - rewrite app_nil_r. by apply Hclose.
  - apply Hclose; [done|]. by rewrite forallb_app, Hs.
Qed.

(** *** [str.lower] *)

Lemma chr_lower_idempotent c : Str.chr_lower (Str.chr_lower c) = Str.chr_lower c.
Proof. by destruct c as [[] [] [] [] [] [] [] []]. Qed.

Lemma lower_idempotent s : Str.lower (Str.lower s) = Str.lower s.
Proof.
  induction s as [|c s IH]; [done|]. cbn. by rewrite chr_lower_idempotent, IH.
Qed.

(** ** The claims about [main] *)

Lemma preamble_console w : forallb is_console (preamble w) = true.
Proof. unfold preamble. by destruct (dotenv_file (host w)). Qed.

Lemma configured_init w :
  configured w → ∃ url, DatabaseReset_init w = (Ok tt, new_self url w, []).
Proof.
  unfold configured. intros Hc.
  destruct (init_run w) as [[_ Hn]|Hi]; [congruence|done].
Qed.

(** Once the object is built, [main] calls [asyncpg.connect]. *)
Lemma session_connects action w :
  existsb is_connect (log_of (session action w)) = true.
Proof.
  unfold session, try_finally, try_except, bind.
  pose proof (connect_attempted 2 1.5%float w) as Ha.
  destruct (connect 3 1.5%float w) as [[rc w1] o1]. unfold log_of in *. cbn in Ha.
  destruct rc as [[|]|e]; cbn;
    repeat match goal with
           | |- context [dispatch ?a ?x] => destruct (dispatch a x) as [[[[]|?] ?] ?]; cbn
           | |- context [close ?x] => destruct (close x) as [[[[]|?] ?] ?]; cbn
           end;
    rewrite ?existsb_app, Ha; done.
Qed.

(** C1, as the code has it.  In a run of [complete] or [data] whose gate
    does not get its two tokens, no statement at all is sent (so no
    TRUNCATE and no INSERT) and the database is as before.  The connection
    is not avoided: with a URL configured, [asyncpg.connect] is called,
    since [main] connects before it asks for confirmation. *)
Theorem refused_gate_sends_no_statement prog arg rest w :
  Str.lower arg = "complete" ∨ Str.lower arg = "data" →
  gate_opens (stdin w) = false →
  db (world_of (main (prog :: arg :: rest) w)) = db w
  ∧ forallb not_sql (log_of (main (prog :: arg :: rest) w)) = true
  ∧ (configured w →
     existsb is_connect (log_of (main (prog :: arg :: rest) w)) = true).
Proof.
  intros Ha Hg.
  destruct (main_run prog arg rest w) as [[Hi ->]|(url & Hi & ->)].
  - cbn. split; [done|]. split.
    + apply console_not_sql, preamble_console.
    + intros [url' Hc]%configured_init. congruence.
  - cbn.
    destruct (session_quiet (Str.lower arg) (new_self url w)) as [Hdb Hl].
    { intros w1 Hin Hdb1.
      destruct (dispatch_refused (Str.lower arg) w1 Ha) as [H1 H2].
      - rewrite Hin. exact Hg.
      - split; [done|]. by apply console_not_sql. }
    split; [exact Hdb|]. split.
    + rewrite forallb_app, Hl. by rewrite console_not_sql by apply preamble_console.
    + intros _. rewrite existsb_app, session_connects. apply orb_true_r.
Qed.

Lemma refused_gate_sends_no_statement_witness :
  db (world_of (main [script; "complete"] (sample_world ["nao"] [] backend_db)))
  = backend_db
  ∧ forallb not_sql
      (log_of (main [script; "complete"] (sample_world ["nao"] [] backend_db))) = true
  ∧ (configured (sample_world ["nao"] [] backend_db) →
     existsb is_connect
       (log_of (main [script; "complete"] (sample_world ["nao"] [] backend_db))) = true).
Proof.
  apply (refused_gate_sends_no_statement script "complete" []
           (sample_world ["nao"] [] backend_db)).
  - left. reflexivity.
  - reflexivity.
Defined.

(** C1 as stated fails: the gate refuses and yet the run has connected. *)
Lemma refused_gate_has_connected :
  gate_opens (stdin (sample_world ["nao"] [] backend_db)) = false
  ∧ existsb is_connected
      (log_of (main [script; "complete"] (sample_world ["nao"] [] backend_db))) = true.
Proof. split; vm_compute; reflexivity. Qed.

(** C7.  With neither [DATABASE_PUBLIC_URL] nor [DATABASE_URL] set, the
    constructor raises [ValueError] and has called nothing; a run of [main]
    with an argument then ends on that error having only printed: no call
    of [asyncpg.connect], no driver call of any kind. *)
Theorem missing_urls_raise_before_connecting w :
  environ (host w) !! "DATABASE_PUBLIC_URL" = None →
  environ (host w) !! "DATABASE_URL" = None →
  DatabaseReset_init w = (Raise ValueError, w, [])
  ∧ ∀ prog arg rest,
      result_of (main (prog :: arg :: rest) w) = Raise ValueError
      ∧ forallb is_console (log_of (main (prog :: arg :: rest) w)) = true
      ∧ existsb is_connect (log_of (main (prog :: arg :: rest) w)) = false.
Proof.
  intros Hp Hu.
  assert (DatabaseReset_init w = (Raise ValueError, w, [])) as Hi.
  { destruct (init_run w) as [[Hi _]|[url Hi]]; [done|].
    revert Hi. unfold DatabaseReset_init, bind, getenv, get. cbn.
    by rewrite Hp, Hu. }
  split; [done|]. intros prog arg rest.
  destruct (main_run prog arg rest w) as [[_ ->]|(url & Hi' & _)]; [|congruence].
  cbn. split; [done|]. split; [apply preamble_console|].
  unfold preamble. by destruct (dotenv_file (host w)).
Qed.

Lemma missing_urls_raise_before_connecting_witness :
  DatabaseReset_init unconfigured_world = (Raise ValueError, unconfigured_world, [])
  ∧ ∀ prog arg rest,
      result_of (main (prog :: arg :: rest) unconfigured_world) = Raise ValueError
      ∧ forallb is_console (log_of (main (prog :: arg :: rest) unconfigured_world)) = true
      ∧ existsb is_connect (log_of (main (prog :: arg :: rest) unconfigured_world)) = false.
Proof.
  apply (missing_urls_raise_before_connecting unconfigured_world); reflexivity.
Defined.

(** C8, as the code has it.  [conn.close] is called exactly once in every
    run that obtained a connection, whatever happened after (a refused
    gate, the end of input, a backup, truncate or seed that raised), and
    not at all in a run that obtained none (no argument, no URL, every
    attempt to connect failed). *)
Theorem close_once_per_connection sys_argv w :
  closes (log_of (main sys_argv w))
  = if existsb is_connected (log_of (main sys_argv w)) then 1 else 0.
Proof.
  destruct sys_argv as [|prog [|arg rest]];
    [rewrite main_usage by (cbn; lia); done
    |rewrite main_usage by (cbn; lia); done|].
  assert (closes (preamble w) = 0 ∧ existsb is_connected (preamble w) = false)
    as [Hpc Hpx].
  { unfold preamble. by destruct (dotenv_file (host w)). }
  destruct (main_run prog arg rest w) as [[_ ->]|(url & _ & ->)]; cbn.
  - by rewrite Hpc, Hpx.
  - rewrite closes_app, existsb_app, Hpc, Hpx. cbn.
    by apply session_closes.
Qed.

(** C8 as stated fails: a run without argument never calls [conn.close]. *)
Lemma usage_run_never_closes :
  closes (log_of (main [script] (sample_world [] [] backend_db))) = 0.
Proof. vm_compute. reflexivity. Qed.

(** The same in a run that could not connect. *)
Example unreachable_database_never_closes :
  closes (log_of (main [script; "data"]
            (sample_world ["CONFIRMO"; "SIM"]
               [Some "WinError 64"; Some "TLS handshake timeout"; Some "timeout"]
               backend_db))) = 0.
Proof. vm_compute. reflexivity. Qed.

(** A truncate that raises in the middle of [complete]: one close. *)
Example failed_truncate_still_closes :
  closes (log_of (main [script; "complete"]
            (sample_world ["CONFIRMO"; "SIM"]
               [None; None; None; None; None; None; Some "deadlock detected"]
               backend_db))) = 1.
Proof. vm_compute. reflexivity. Qed.

(** C10.  The argument is used in lower case only: [main] run on an
    argument and [main] run on that argument in lower case are the same
    computation.  What the lower-case form selects, once the object is
    built and [connect] has answered [True]: for [complete] and for [data],
    with the gate opening, the run is the preamble, the connection, the
    gate of that workflow and then that workflow under the [except] and
    [finally] of [main]; for [check], the report that the connection works
    and the close; for anything else, the report of an unknown action and
    the close.  So CHECK, Complete and DATA select what check, complete and
    data select. *)
Theorem action_is_lowercased prog arg rest w :
  main (prog :: arg :: rest) w = main (prog :: Str.lower arg :: rest) w
  ∧ ∀ url,
      DatabaseReset_init w = (Ok tt, new_self url w, []) →
      result_of (connect 3 1.5%float (new_self url w)) = Ok true →
      let c := connect 3 1.5%float (new_self url w) in
      (∀ wf, Str.lower arg = workflow_name wf →
             gate_opens (stdin w) = true →
             let g := confirm_action (gate_text wf) (world_of c) in
             let t := guarded wf (world_of g) in
             main (prog :: arg :: rest) w
             = (result_of t, world_of t, preamble w ++ log_of c ++ log_of g ++ log_of t))
      ∧ (Str.lower arg = "check" →
         let t := close (world_of c) in
         main (prog :: arg :: rest) w
         = (result_of t, world_of t,
            preamble w ++ log_of c ++ [EvPrint MsgCheckOk] ++ log_of t))
      ∧ (Str.lower arg ≠ "check" → Str.lower arg ≠ "complete" →
         Str.lower arg ≠ "data" →
         let t := close (world_of c) in
         main (prog :: arg :: rest) w
         = (result_of t, world_of t,
            preamble w ++ log_of c ++ [EvPrint (MsgUnknownAction (Str.lower arg))]
            ++ log_of t)).
Proof.
  split.
  { unfold main. cbn [nth length Nat.ltb Nat.leb]. by rewrite lower_idempotent. }
  intros url Hi Hc. cbn zeta.
  destruct (main_run prog arg rest w) as [[Hi' _]|(url' & Hi' & ->)];
    [rewrite Hi in Hi'; discriminate|].
  assert (url' = url) as -> by (rewrite Hi in Hi'; by injection Hi').
  cbn zeta. unfold session, guarded, try_finally, try_except, bind.
  pose proof (connect_setup 3 1.5%float (new_self url w)) as [[= _ Hin] _].
  destruct (connect 3 1.5%float (new_self url w)) as [[rc wc] oc].
  cbn in Hc, Hin |- *. subst rc. cbn.
  split_and!.
  - intros wf Hwf Hg.
    pose proof (confirm_action_gate (gate_text wf) wc) as (Hiff & _).
    cbn zeta in Hiff. rewrite Hin in Hiff. apply Hiff in Hg.
    unfold dispatch. rewrite Hwf.
    destruct wf; cbn [workflow_name String.eqb Ascii.eqb Bool.eqb gate_text] in *;
      unfold bind; destruct (confirm_action _ wc) as [[rg wg] og];
      cbn in Hg |- *; subst rg; cbn;
      match goal with
      | |- context [reset_complete wg] =>
          destruct (reset_complete wg) as [[[[]|e] wt] ot]
      | |- context [reset_data_only wg] =>
          destruct (reset_data_only wg) as [[[[]|e] wt] ot]
      end; cbn;
      destruct (close wt) as [[[[]|e'] wf'] of']; cbn;
      by rewrite <- ?app_assoc.
  - intros Ha. unfold dispatch. rewrite Ha. cbn.
    destruct (close wc) as [[[[]|e'] wf'] of']; cbn; by rewrite <- ?app_assoc.
  - intros H1 H2 H3. rewrite dispatch_unknown by by apply String.eqb_neq.
    cbn. destruct (close wc) as [[[[]|e'] wf'] of']; cbn; by rewrite <- ?app_assoc.
Qed.

(** On the sample database: CHECK reports the connection, Complete sends
    the statements of [reset_complete], DATA enters [reset_data_only]. *)
Example upper_case_arguments_select :
  printed MsgCheckOk (log_of (main [script; "CHECK"] (sample_world [] [] backend_db)))
  ∧ executed (log_of (main [script; "Complete"]
                        (sample_world ["CONFIRMO"; "SIM"] [] backend_db)))
    = executed (log_of (reset_complete (sample_connected [] [] backend_db)))
  ∧ printed MsgResetStart
      (log_of (main [script; "Complete"] (sample_world ["CONFIRMO"; "SIM"] [] backend_db)))
  ∧ printed MsgDataStart
      (log_of (main [script; "DATA"] (sample_world ["CONFIRMO"; "SIM"] [] backend_db)))
  ∧ length (executed (log_of (main [script; "DATA"]
                                (sample_world ["CONFIRMO"; "SIM"] [] backend_db)))) = 5.
Proof.
  unfold printed.
  split_and!; [vm_compute; tauto|vm_compute; reflexivity|vm_compute; tauto
              |vm_compute; tauto|vm_compute; reflexivity].
Qed.

(** *** An argument that names no workflow *)

Lemma connect_not_usage retries base_delay :
  keeps (λ _, tt) not_usage (connect retries base_delay).
Proof.
  unfold connect. generalize retries at 2. intros remaining.
  induction remaining as [|k IH]; cbn [connect_loop]; autounfold with prog;
    keeps_auto; exact IH.
Qed.

Lemma close_not_usage : keeps (λ _, tt) not_usage close.
Proof. unfold close. autounfold with prog. keeps_auto. Qed.

Lemma session_unknown_not_usage action :
  dispatch action = print (MsgUnknownAction action) →
  keeps (λ _, tt) not_usage (session action).
Proof.
  intros Hd. unfold session. rewrite Hd.
  keeps_auto; auto using connect_not_usage, close_not_usage.
Qed.

Lemma session_unknown_quiet action w :
  dispatch action = print (MsgUnknownAction action) →
  db (world_of (session action w)) = db w
  ∧ forallb not_sql (log_of (session action w)) = true.
Proof.
  intros Hd. apply session_quiet. intros w1 _ _. by rewrite Hd.
Qed.

Lemma session_unknown_reports action w :
  dispatch action = print (MsgUnknownAction action) →
  existsb is_connected (log_of (session action w)) = true →
  printed (MsgUnknownAction action) (log_of (session action w)).
Proof.
  intros Hd. unfold session, try_finally, try_except, bind, printed. rewrite Hd.
  pose proof (connect_result 3 1.5%float w) as Hr.
  pose proof (close_quiet) as Hq.
  destruct (connect 3 1.5%float w) as [[rc w1] o1]. cbn in Hr.
  destruct Hr as [(-> & Hc1 & Hl1)|(-> & Hc1 & Hl1)]; cbn.
  - intros _. destruct (close w1) as [[[[]|e] w2] o2]; cbn;
      rewrite !in_app_iff; cbn; tauto.
  - destruct (self_conn w) eqn:Hc.
    + destruct (close_once w1) as [_ Hx]; [congruence|].
      destruct (close w1) as [[[[]|e] w2] o2]; cbn in Hx |- *;
        rewrite app_nil_r, existsb_app, Hl1, Hx; done.
    + rewrite close_idle by congruence. cbn. rewrite !app_nil_r. congruence.
Qed.

(** C5, as the code has it.  An argument whose lower-case form is none of
    check, complete, data does not lead to the usage text and does not keep
    the script from connecting: with a URL configured [asyncpg.connect] is
    called, and once connected the script prints that the action is not
    recognised.  No statement is sent and the database is as before.  The
    usage text, with no connection, is what a run without argument gets. *)
Theorem unknown_action_connects_and_reports prog arg rest w :
  Str.lower arg ≠ "check" →
  Str.lower arg ≠ "complete" →
  Str.lower arg ≠ "data" →
  db (world_of (main (prog :: arg :: rest) w)) = db w
  ∧ forallb not_sql (log_of (main (prog :: arg :: rest) w)) = true
  ∧ forallb not_usage (log_of (main (prog :: arg :: rest) w)) = true
  ∧ (configured w →
     existsb is_connect (log_of (main (prog :: arg :: rest) w)) = true)
  ∧ (existsb is_connected (log_of (main (prog :: arg :: rest) w)) = true →
     printed (MsgUnknownAction (Str.lower arg)) (log_of (main (prog :: arg :: rest) w)))
  ∧ (∀ short, length short < 2 →
     main short w =
       (Ok tt, w,
        [EvPrint MsgBanner; EvPrint MsgRule; EvPrint MsgUsage;
         EvPrint MsgUsageComplete; EvPrint MsgUsageData; EvPrint MsgUsageCheck])).
Proof.
  intros H1%String.eqb_neq H2%String.eqb_neq H3%String.eqb_neq.
  pose proof (dispatch_unknown _ H1 H2 H3) as Hd.
  assert (forallb not_usage (preamble w) = true
          ∧ existsb is_connected (preamble w) = false) as [Hpu Hpx].
  { unfold preamble. by destruct (dotenv_file (host w)). }
  repeat apply conj; [..|intros short Hs; by apply main_usage];
    destruct (main_run prog arg rest w) as [[Hi ->]|(url & Hi & ->)]; cbn.
  - done.
  - exact (proj1 (session_unknown_quiet _ (new_self url w) Hd)).
  - apply console_not_sql, preamble_console.
  - rewrite forallb_app, console_not_sql by apply preamble_console.
    exact (proj2 (session_unknown_quiet _ (new_self url w) Hd)).
  - done.
  - rewrite forallb_app, Hpu. by apply session_unknown_not_usage.
  - intros [url' Hc]%configured_init. congruence.
  - intros _. rewrite existsb_app, session_connects. apply orb_true_r.
  - congruence.
  - rewrite existsb_app, Hpx. cbn. intros Hx.
    apply in_or_app. right. by apply session_unknown_reports.
Qed.

Lemma unknown_action_connects_and_reports_witness :
  db (world_of (main [script; "migrate"] (sample_world [] [] backend_db))) = backend_db
  ∧ forallb not_sql (log_of (main [script; "migrate"] (sample_world [] [] backend_db))) = true
  ∧ forallb not_usage (log_of (main [script; "migrate"] (sample_world [] [] backend_db))) = true
  ∧ (configured (sample_world [] [] backend_db) →
     existsb is_connect
       (log_of (main [script; "migrate"] (sample_world [] [] backend_db))) = true)
  ∧ (existsb is_connected
       (log_of (main [script; "migrate"] (sample_world [] [] backend_db))) = true →
     printed (MsgUnknownAction (Str.lower "migrate"))
       (log_of (main [script; "migrate"] (sample_world [] [] backend_db))))
  ∧ (∀ short, length short < 2 →
     main short (sample_world [] [] backend_db) =
       (Ok tt, sample_world [] [] backend_db,
        [EvPrint MsgBanner; EvPrint MsgRule; EvPrint MsgUsage;
         EvPrint MsgUsageComplete; EvPrint MsgUsageData; EvPrint MsgUsageCheck])).
Proof.
  apply (unknown_action_connects_and_reports script "migrate" []
           (sample_world [] [] backend_db)); discriminate.
Defined.

(** C5 as stated fails: on the argument [migrate] the script connects,
    and the usage text is not what it prints. *)
Lemma unknown_action_has_connected :
  existsb is_connected
    (log_of (main [script; "migrate"] (sample_world [] [] backend_db))) = true
  ∧ ¬ printed MsgUsage (log_of (main [script; "migrate"] (sample_world [] [] backend_db))).
Proof.
  split; [vm_compute; reflexivity|].
  unfold printed. vm_compute. intuition discriminate.
Qed.

(** *** The gate, by its inputs *)

Lemma gate_opens_tokens lines :
  gate_opens lines = true
  ↔ ∃ l1 l2 rest, lines = l1 :: l2 :: rest
                  ∧ Str.strip l1 = "CONFIRMO" ∧ Str.strip l2 = "SIM".
Proof.
  unfold gate_opens. split.
  - destruct lines as [|l1 [|l2 rest]]; try done.
    intros [H1%String.eqb_eq H2%String.eqb_eq]%andb_true_iff. by exists l1, l2, rest.
  - intros (l1 & l2 & rest & -> & -> & ->). done.
Qed.

(** C6, as the code has it.  [confirm_action] answers [True] exactly when
    there are two lines of input which, once [strip()] has removed the
    white space around them, are CONFIRMO and SIM, letter for letter; it
    touches neither the driver nor the database.  The pair CONFIRMO, SIM
    opens the gate, the pair confirmo, SIM does not, and behind a gate that
    stays shut [complete] and [data] send no statement and leave the
    database as it was. *)
Theorem gate_opens_on_the_two_stripped_tokens action_name w :
  (result_of (confirm_action action_name w) = Ok true
   ↔ ∃ l1 l2 rest, stdin w = l1 :: l2 :: rest
                   ∧ Str.strip l1 = "CONFIRMO" ∧ Str.strip l2 = "SIM")
  ∧ db (world_of (confirm_action action_name w)) = db w
  ∧ forallb is_console (log_of (confirm_action action_name w)) = true
  ∧ (∀ rest, stdin w = "CONFIRMO" :: "SIM" :: rest →
             result_of (confirm_action action_name w) = Ok true)
  ∧ (∀ rest, stdin w = "confirmo" :: "SIM" :: rest →
             result_of (confirm_action action_name w) = Ok false)
  ∧ (∀ action, action = "complete" ∨ action = "data" →
               result_of (confirm_action action_name w) ≠ Ok true →
               db (world_of (dispatch action w)) = db w
               ∧ forallb not_sql (log_of (dispatch action w)) = true).
Proof.
  destruct (confirm_action_gate action_name w) as (Hiff & Hres & Hdb & Hlog).
  rewrite gate_opens_tokens in Hiff.
  split; [exact Hiff|]. split; [exact Hdb|]. split; [exact Hlog|].
  split; [|split].
  - intros rest Hs. apply Hiff. by exists "CONFIRMO", "SIM", rest.
  - intros rest Hs.
    destruct Hres as [Hr|[Hr|Hr]]; [|done|].
    + apply Hiff in Hr as (l1 & l2 & rest' & Hs' & H1 & H2).
      rewrite Hs in Hs'. injection Hs' as <- <- _. discriminate H1.
    + revert Hr. unfold confirm_action, bind, print, emit, input, ret.
      rewrite Hs. by cbn.
  - intros action Ha Hno.
    destruct (dispatch_refused action w Ha) as [H1 H2].
    + destruct (gate_opens (stdin w)) eqn:Hg; [|done].
      destruct Hno. apply Hiff. by apply gate_opens_tokens.
    + split; [done|]. by apply console_not_sql.
Qed.

(** C6 as stated fails: the inputs are not the literal pair, and the gate
    opens all the same. *)
Lemma gate_opens_on_padded_tokens :
  (" CONFIRMO", "SIM ") ≠ ("CONFIRMO", "SIM")
  ∧ result_of (confirm_action "fazer RESET COMPLETO do banco"
                 (sample_connected [" CONFIRMO"; "SIM "] [] backend_db)) = Ok true.
Proof. split; [discriminate|]. vm_compute. reflexivity. Qed.

(** ** The backup *)

Lemma conn_fetch_all_run table w :
  conn_fetch_all table w =
    if self_conn w then
      match hd None (faults w), db w !! table with
      | Some msg, _ =>
          (Raise (DriverError msg), after_call w, [EvFetch (SelectAll table) false])
      | None, None =>
          (Raise (DriverError (Pg.undefined_table table)), after_call w,
           [EvFetch (SelectAll table) false])
      | None, Some t => (Ok (rows t), after_call w, [EvFetch (SelectAll table) true])
      end
    else (Raise AttributeError, w, []).
Proof.
  unfold conn_fetch_all, the_conn, bind, get, next_fault, emit, raise, ret, after_call.
  destruct (self_conn w); cbn; [|done].
  destruct (hd None (faults w)); cbn; [done|].
  by destruct (db w !! table).
Qed.

(** C4, as the code has it.  [backup_data] never raises and leaves the
    database alone.  It gives the mapping of all four tables when all four
    fetches came back, and the empty mapping as soon as one of them failed:
    the tables fetched before the failure are not in what it returns. *)
Theorem backup_is_all_or_nothing w :
  ∃ m, result_of (backup_data w) = Ok m
       ∧ db (world_of (backup_data w)) = db w
       ∧ ((fetched (log_of (backup_data w)) = backup_tables ∧ full_backup (db w) m)
          ∨ (fetched (log_of (backup_data w)) ≠ backup_tables ∧ m = ∅)).
Proof.
  unfold backup_data, try_except, bind, print, emit, ret. cbn.
  rewrite conn_fetch_all_run.
  destruct (self_conn w) eqn:Hc; [|by eexists; split_and!; [..|right]].
  destruct (hd None (faults w)); [by eexists; split_and!; [..|right]|].
  destruct (db w !! "usuarios") as [t1|] eqn:H1;
    [|by eexists; split_and!; [..|right]].
  cbn. rewrite conn_fetch_all_run. cbn. rewrite Hc.
  destruct (hd None (tail (faults w))); [by eexists; split_and!; [..|right]|].
  destruct (db w !! "produtos") as [t2|] eqn:H2;
    [|by eexists; split_and!; [..|right]].
  cbn. rewrite conn_fetch_all_run. cbn. rewrite Hc.
  destruct (hd None (tail (tail (faults w)))); [by eexists; split_and!; [..|right]|].
  destruct (db w !! "clientes") as [t3|] eqn:H3;
    [|by eexists; split_and!; [..|right]].
  cbn. rewrite conn_fetch_all_run. cbn. rewrite Hc.
  destruct (hd None (tail (tail (tail (faults w))))); [by eexists; split_and!; [..|right]|].
  destruct (db w !! "vendas") as [t4|] eqn:H4;
    [|by eexists; split_and!; [..|right]].
  cbn. eexists. split_and!; [done..|]. left. split; [done|]. split.
  - rewrite !dom_insert_L, dom_empty_L. unfold backup_tables. cbn. set_solver.
  - intros t Ht. unfold backup_tables in Ht.
    rewrite !elem_of_cons, elem_of_nil in Ht.
    destruct Ht as [->|[->|[->|[->|[]]]]].
    + rewrite !lookup_insert_ne by done. by rewrite lookup_insert_eq, H1.
    + rewrite !lookup_insert_ne by done. by rewrite lookup_insert_eq, H2.
    + rewrite !lookup_insert_ne by done. by rewrite lookup_insert_eq, H3.
    + by rewrite lookup_insert_eq, H4.
Qed.

(** C4 as stated fails: [usuarios] was fetched, [produtos] does not exist,
    and what comes back is empty, not the mapping of [usuarios]. *)
Lemma backup_drops_what_it_fetched :
  fetched (log_of (backup_data
             (sample_connected [] [] (<["usuarios" := usuarios_backend]> ∅))))
  = ["usuarios"]
  ∧ result_of (backup_data
                 (sample_connected [] [] (<["usuarios" := usuarios_backend]> ∅)))
    = Ok ∅.
Proof. split; vm_compute; reflexivity. Qed.

(** On the sample database all four tables are fetched and returned. *)
Example backup_of_backend_db :
  fetched (log_of (backup_data (sample_connected [] [] backend_db))) = backup_tables
  ∧ ∃ m, result_of (backup_data (sample_connected [] [] backend_db)) = Ok m
         ∧ m !! "produtos" = Some [[("codigo", VStr "P1")]].
Proof. split; [vm_compute; reflexivity|]. eexists. split; vm_compute; reflexivity. Qed.

(** ** Truncation *)

(** *** What TRUNCATE ... CASCADE does to the tables *)

Lemma cascade_seed d rounds names n : n ∈ names → n ∈ Pg.cascade d rounds names.
Proof.
  revert names. induction rounds as [|k IH]; intros names Hn; [done|].
  cbn. apply IH. unfold Pg.cascade_step. apply elem_of_app. by left.
Qed.

Lemma truncate_lookup name d d' n :
  Pg.truncate name d = Some d' →
  d' !! n = (λ t, if bool_decide (n ∈ Pg.cascade d (size d) [name])
                  then emptied t else t) <$> d !! n.
Proof.
  unfold Pg.truncate. destruct (d !! name); [|done].
  intros [= <-]. rewrite map_lookup_imap. by destruct (d !! n).
Qed.

Lemma truncate_exists name d : is_Some (d !! name) → is_Some (Pg.truncate name d).
Proof. intros [t Ht]. unfold Pg.truncate. rewrite Ht. by eexists. Qed.

Lemma truncate_same_tables name d d' n :
  Pg.truncate name d = Some d' → is_Some (d !! n) → is_Some (d' !! n).
Proof.
  intros Ht [t Hn]. rewrite (truncate_lookup _ _ _ _ Ht), Hn. by eexists.
Qed.

Lemma truncate_empties name d d' t :
  Pg.truncate name d = Some d' → d' !! name = Some t → rows t = [].
Proof.
  intros Ht. rewrite (truncate_lookup _ _ _ _ Ht).
  rewrite bool_decide_eq_true_2 by (apply cascade_seed, list_elem_of_singleton; done).
  destruct (d !! name); [|done]. by intros [= <-].
Qed.

Lemma truncate_keeps_empty name d d' n t :
  Pg.truncate name d = Some d' →
  (∀ t0, d !! n = Some t0 → rows t0 = []) →
  d' !! n = Some t → rows t = [].
Proof.
  intros Ht He. rewrite (truncate_lookup _ _ _ _ Ht).
  destruct (d !! n) as [t0|] eqn:Hn; [|done]. cbn.
  intros [= <-]. case_bool_decide; [done|]. by apply He.
Qed.

(** *** The driver calls, step by step *)

Lemma conn_execute_run q run failure w :
  conn_execute q run failure w =
    if self_conn w then
      match hd None (faults w), run (db w) with
      | Some msg, _ => (Raise (DriverError msg), after_call w, [EvExecute q false])
      | None, None =>
          (Raise (DriverError (failure (db w))), after_call w, [EvExecute q false])
      | None, Some d' => (Ok tt, set_db d' (after_call w), [EvExecute q true])
      end
    else (Raise AttributeError, w, []).
Proof.
  unfold conn_execute, the_conn, bind, get, next_fault, emit, raise, ret, modify,
    after_call.
  destruct (self_conn w); cbn; [|done].
  destruct (hd None (faults w)); cbn; [done|].
  by destruct (run (db w)).
Qed.

Lemma conn_fetch_pg_tables_run w :
  conn_fetch_pg_tables w =
    if self_conn w then
      match hd None (faults w) with
      | Some msg => (Raise (DriverError msg), after_call w, [EvFetch SelectPgTables false])
      | None => (Ok (Pg.pg_tables (db w)), after_call w, [EvFetch SelectPgTables true])
      end
    else (Raise AttributeError, w, []).
Proof.
  unfold conn_fetch_pg_tables, the_conn, bind, get, next_fault, emit, raise, ret,
    after_call.
  destruct (self_conn w); cbn; [|done].
  by destruct (hd None (faults w)).
Qed.

Lemma calm_now w : calm w → hd None (faults w) = None.
Proof. unfold calm. destruct (faults w); [done|]. by intros [-> _]%Forall_cons. Qed.

Lemma calm_after_call w : calm w → calm (after_call w).
Proof.
  unfold calm, after_call. cbn. destruct (faults w); [done|].
  by intros [_ H]%Forall_cons.
Qed.

(** *** The loop *)

Lemma or_empty_safe n : safe_name (Some n) = true → or_empty (Some n) = n.
Proof. unfold safe_name, or_empty. cbn. by destruct n. Qed.

Lemma truncate_loop_executed l w :
  executed (log_of (truncate_loop l w)) `prefix_of` loop_statements l
  ∧ (result_of (truncate_loop l w) = Ok tt →
     executed (log_of (truncate_loop l w)) = loop_statements l).
Proof.
  revert w. induction l as [|t l IH]; intros w;
    cbn [truncate_loop List.filter loop_statements]; [done|].
  unfold loop_statements in *. cbn [List.filter].
  destruct (safe_name t) eqn:Hs; cbn [negb]; [|apply IH].
  unfold bind, conn_truncate. rewrite conn_execute_run.
  destruct (self_conn w); [|split; [apply prefix_nil|done]].
  destruct (hd None (faults w)); [split; [by apply prefix_cons, prefix_nil|done]|].
  destruct (Pg.truncate (or_empty t) (db w)) as [d'|];
    [|split; [by apply prefix_cons, prefix_nil|done]].
  cbn. specialize (IH (set_db d' (after_call w))).
  destruct (truncate_loop l (set_db d' (after_call w))) as [[r w'] o]. cbn in IH |- *.
  destruct IH as [IH1 IH2]. split; [by apply prefix_cons|].
  intros Hr. by rewrite IH2.
Qed.

Lemma truncate_loop_succeeds l w :
  self_conn w = true → calm w →
  (∀ t, t ∈ l → safe_name t = true → is_Some (db w !! or_empty t)) →
  result_of (truncate_loop l w) = Ok tt.
Proof.
  revert w. induction l as [|t l IH]; intros w Hc Hf Hl; cbn [truncate_loop]; [done|].
  destruct (safe_name t) eqn:Hs; cbn [negb].
  - unfold bind, conn_truncate. rewrite conn_execute_run, Hc, (calm_now _ Hf).
    destruct (truncate_exists (or_empty t) (db w)) as [d' Hd'].
    { apply Hl; [left|done]. }
    rewrite Hd'. cbn.
    specialize (IH (set_db d' (after_call w)) Hc (calm_after_call _ Hf)).
    destruct (truncate_loop l (set_db d' (after_call w))) as [[r w'] o]. cbn in IH |- *.
    apply IH. intros t' Ht' Hs'. apply (truncate_same_tables _ _ _ _ Hd').
    apply Hl; [by right|done].
  - apply IH; [done..|]. intros t' Ht' Hs'. apply Hl; [by right|done].
Qed.

(** After a loop that went through, a table it had to truncate has no
    rows, and a table that had none still has none. *)
Lemma truncate_loop_empties l w n :
  result_of (truncate_loop l w) = Ok tt →
  (Some n ∈ l ∧ safe_name (Some n) = true)
  ∨ (∀ t, db w !! n = Some t → rows t = []) →
  ∀ t, db (world_of (truncate_loop l w)) !! n = Some t → rows t = [].
Proof.
  revert w. induction l as [|t l IH]; intros w; cbn [truncate_loop].
  - intros _ [[H%elem_of_nil _]|H]; [done|]. exact H.
  - destruct (safe_name t) eqn:Hs; cbn [negb].
    + unfold bind, conn_truncate. rewrite conn_execute_run.
      destruct (self_conn w); [|done].
      destruct (hd None (faults w)); [done|].
      destruct (Pg.truncate (or_empty t) (db w)) as [d'|] eqn:Hd'; [|done].
      cbn. specialize (IH (set_db d' (after_call w))).
      destruct (truncate_loop l (set_db d' (after_call w))) as [[r w'] o].
      cbn in IH |- *. intros Hr Hn. apply (IH Hr).
      destruct Hn as [[[<-|Hin]%elem_of_cons Hsn]|He].
      * right. intros t0. rewrite or_empty_safe in Hd' by done.
        by apply truncate_empties with (d := db w).
      * by left.
      * right. intros t0. by apply truncate_keeps_empty with (d := db w) (name := or_empty t).
    + intros Hr Hn. apply (IH w Hr).
      destruct Hn as [[[<-|Hin]%elem_of_cons Hsn]|He]; [congruence|by left|by right].
Qed.

(** *** [truncate_all_tables] *)

Lemma pg_tables_elem d t :
  t ∈ Pg.pg_tables d ↔ ∃ n, t = Some n ∧ is_Some (d !! n).
Proof.
  unfold Pg.pg_tables. rewrite list_elem_of_fmap. split.
  - intros ([n tb] & -> & H%elem_of_map_to_list). exists n. by split; [|eexists].
  - intros (n & -> & [tb H]). exists (n, tb). by split; [|apply elem_of_map_to_list].
Qed.

Lemma pg_tables_nil d : Pg.pg_tables d = [] → d = ∅.
Proof.
  unfold Pg.pg_tables. intros H%fmap_nil_inv. by apply map_to_list_empty_iff.
Qed.

Lemma without_migrations_elem l t :
  t ∈ without_migrations l ↔ t ∈ l ∧ t ≠ Some "alembic_version".
Proof. unfold without_migrations. rewrite list_elem_of_filter. tauto. Qed.

Lemma executed_app o1 o2 : executed (o1 ++ o2) = executed o1 ++ executed o2.
Proof. apply omap_app. Qed.

Lemma truncate_all_tables_executed w :
  executed (log_of (truncate_all_tables w))
    `prefix_of` (TruncateTable <$> truncate_targets (db w))
  ∧ (result_of (truncate_all_tables w) = Ok tt →
     executed (log_of (truncate_all_tables w))
     = TruncateTable <$> truncate_targets (db w)).
Proof.
  unfold truncate_all_tables, try_except, bind, print, emit, raise. cbn.
  rewrite conn_fetch_pg_tables_run.
  destruct (self_conn w); [|split; [apply prefix_nil|done]].
  destruct (hd None (faults w)); [split; [apply prefix_nil|done]|].
  unfold truncate_targets. cbn.
  destruct (Pg.pg_tables (db w)) as [|t0 l0]; [done|].
  pose proof (truncate_loop_executed (without_migrations (t0 :: l0)) (after_call w))
    as [H1 H2].
  unfold loop_statements in *.
  destruct (truncate_loop _ (after_call w)) as [[[[]|e] w'] o]; cbn in H1, H2 |- *;
    rewrite ?executed_app, ?app_nil_r; cbn; rewrite ?app_nil_r; split; auto; done.
Qed.

Lemma truncate_all_tables_succeeds w :
  self_conn w = true → calm w → result_of (truncate_all_tables w) = Ok tt.
Proof.
  intros Hc Hf.
  unfold truncate_all_tables, try_except, bind, print, emit, raise. cbn.
  rewrite conn_fetch_pg_tables_run, Hc, (calm_now _ Hf). cbn.
  destruct (Pg.pg_tables (db w)) as [|t0 l0] eqn:Hp; [done|].
  pose proof (truncate_loop_succeeds (without_migrations (t0 :: l0)) (after_call w) Hc
                (calm_after_call _ Hf)) as Hl.
  destruct (truncate_loop _ (after_call w)) as [[r w'] o]. cbn in Hl |- *.
  rewrite Hl; [done|].
  intros t [Ht _]%without_migrations_elem Hs.
  rewrite <- Hp in Ht. apply pg_tables_elem in Ht as (n & -> & Hn).
  by rewrite or_empty_safe.
Qed.

Lemma truncate_all_tables_empties w n :
  result_of (truncate_all_tables w) = Ok tt →
  safe_name (Some n) = true → n ≠ "alembic_version" →
  ∀ t, db (world_of (truncate_all_tables w)) !! n = Some t → rows t = [].
Proof.
  intros Hr Hs Hn. revert Hr.
  unfold truncate_all_tables, try_except, bind, print, emit, raise. cbn.
  rewrite conn_fetch_pg_tables_run.
  destruct (self_conn w); [|done].
  destruct (hd None (faults w)); [done|]. cbn.
  destruct (Pg.pg_tables (db w)) as [|t0 l0] eqn:Hp.
  - cbn. intros _ t. by rewrite (pg_tables_nil _ Hp), lookup_empty.
  - pose proof (truncate_loop_empties (without_migrations (t0 :: l0)) (after_call w) n)
      as Hl.
    destruct (truncate_loop _ (after_call w)) as [[[[]|e] w'] o]; cbn in Hl |- *;
      [|done].
    intros _. apply Hl; [done|].
    destruct (db w !! n) as [tb|] eqn:Hd; [left|by right].
    split; [|done]. apply without_migrations_elem. split; [|congruence].
    rewrite <- Hp. apply pg_tables_elem. exists n. by split; [|eexists].
Qed.

Lemma truncate_targets_safe d :
  Forall (λ n, Str.re_match_identifier n = true ∧ n ≠ "alembic_version")
         (truncate_targets d).
Proof.
  unfold truncate_targets. apply Forall_fmap, Forall_forall.
  intros t [Ht Hs]%list_elem_of_In%filter_In. cbn. split; [done|].
  apply list_elem_of_In, without_migrations_elem in Ht as [_ Ht].
  intros Hn. apply Ht. revert Hs Hn. unfold safe_name, or_empty.
  destruct t as [s|]; cbn; [|done]. destruct s; cbn; [done|].
  by intros _ ->.
Qed.

Lemma truncate_loop_fetches l : keeps (λ _, tt) only_catalog_fetch (truncate_loop l).
Proof.
  induction l as [|t l IH]; cbn [truncate_loop]; autounfold with prog;
    keeps_auto; exact IH.
Qed.

Lemma truncate_all_tables_fetches : keeps (λ _, tt) only_catalog_fetch truncate_all_tables.
Proof.
  unfold truncate_all_tables. autounfold with prog. keeps_auto;
    apply truncate_loop_fetches.
Qed.

Lemma carried_out_app o1 o2 : carried_out (o1 ++ o2) = carried_out o1 ++ carried_out o2.
Proof. apply omap_app. Qed.

(** Of the statements the loop has sent, all were carried out but, where
    it raised, the last; it has carried out all it had to send exactly
    when it returns. *)
Lemma truncate_loop_carried_out l w :
  let r := truncate_loop l w in
  carried_out (log_of r) `prefix_of` executed (log_of r)
  ∧ (length (executed (log_of r)) ≤ S (length (carried_out (log_of r))))%nat
  ∧ (result_of r = Ok tt → carried_out (log_of r) = loop_statements l)
  ∧ (∀ e, result_of r = Raise e →
          (length (carried_out (log_of r)) < length (loop_statements l))%nat).
Proof.
  cbn zeta. revert w. induction l as [|t l IH]; intros w;
    cbn [truncate_loop List.filter loop_statements].
  { cbn. split_and!; [done|lia|done|done]. }
  unfold loop_statements in *. cbn [List.filter].
  destruct (safe_name t) eqn:Hs; cbn [negb]; [|apply IH].
  unfold bind, conn_truncate. rewrite conn_execute_run.
  destruct (self_conn w); [|cbn; split_and!; [done|lia|done|intros; lia]].
  destruct (hd None (faults w));
    [cbn; split_and!; [apply prefix_nil|lia|done|intros; lia]|].
  destruct (Pg.truncate (or_empty t) (db w)) as [d'|];
    [|cbn; split_and!; [apply prefix_nil|lia|done|intros; lia]].
  cbn. specialize (IH (set_db d' (after_call w))).
  destruct (truncate_loop l (set_db d' (after_call w))) as [[r w'] o]. cbn in IH |- *.
  destruct IH as (IH1 & IH2 & IH3 & IH4). split_and!.
  - by apply prefix_cons.
  - lia.
  - intros Hr. by rewrite IH3.
  - intros e Hr. specialize (IH4 e Hr). lia.
Qed.

Lemma truncate_all_tables_carried_out w :
  let r := truncate_all_tables w in
  carried_out (log_of r) `prefix_of` executed (log_of r)
  ∧ (length (executed (log_of r)) ≤ S (length (carried_out (log_of r))))%nat
  ∧ (self_conn w = true → hd None (faults w) = None →
     (result_of r = Ok tt ↔
      carried_out (log_of r) = TruncateTable <$> truncate_targets (db w)))
  ∧ (self_conn w = false ∨ hd None (faults w) ≠ None →
     executed (log_of r) = [] ∧ ∃ e, result_of r = Raise e).
Proof.
  cbn zeta.
  unfold truncate_all_tables, try_except, bind, print, emit, raise. cbn.
  rewrite conn_fetch_pg_tables_run.
  destruct (self_conn w);
    [|split_and!; [done|cbn; lia|done|by intros _; split; [|eexists]]].
  destruct (hd None (faults w)) as [msg|];
    [split_and!; [done|cbn; lia|done|by intros _; split; [|eexists]]|].
  unfold truncate_targets. cbn.
  destruct (Pg.pg_tables (db w)) as [|t0 l0];
    [cbn; split_and!; [done|lia|done|by intros [|]]|].
  pose proof (truncate_loop_carried_out (without_migrations (t0 :: l0)) (after_call w))
    as (H1 & H2 & H3 & H4).
  unfold loop_statements in *. cbn zeta in *.
  destruct (truncate_loop _ (after_call w)) as [[[[]|e] w'] o]; cbn in H1, H2, H3, H4 |- *;
    rewrite ?executed_app, ?carried_out_app, ?app_nil_r; cbn; rewrite ?app_nil_r.
  - split_and!; [done|done| |by intros [|]]. intros _ _. split; [intros _; by apply H3|done].
  - split_and!; [done|done| |by intros [|]]. intros _ _. split; [done|].
    intros Heq. specialize (H4 e eq_refl). unfold carried_out in *.
    rewrite Heq in H4. lia.
Qed.

(** C3, as the code has it.  What truncate-all gives to [conn.execute] is
    always a beginning of one list: a
    [TRUNCATE TABLE ... RESTART IDENTITY CASCADE] for each catalog entry
    that is not the migration table and whose name matches the identifier
    pattern, in catalog order.  All of the statements sent were carried
    out but, where one raised, the last, which ends the loop.  Each
    statement sent names a matching name; a name that does not match is
    sent in no statement, and the only query is the catalog query.  Once
    the catalog has come back, every matching entry has had its statement
    carried out exactly when truncate-all returns; where the catalog does
    not come back, nothing is sent and truncate-all raises; with a
    connection and no fault it returns.  The number of statements sent is
    the number N of catalog entries other than the migration table
    exactly when every one of these matches and each got its statement. *)
Theorem truncate_all_sends_one_truncate_per_safe_name w :
  executed (log_of (truncate_all_tables w))
    `prefix_of` (TruncateTable <$> truncate_targets (db w))
  ∧ carried_out (log_of (truncate_all_tables w))
      `prefix_of` executed (log_of (truncate_all_tables w))
  ∧ (length (executed (log_of (truncate_all_tables w)))
     ≤ S (length (carried_out (log_of (truncate_all_tables w)))))%nat
  ∧ Forall is_truncate_of_identifier (executed (log_of (truncate_all_tables w)))
  ∧ (∀ n, Str.re_match_identifier n = false →
          TruncateTable n ∉ executed (log_of (truncate_all_tables w)))
  ∧ forallb only_catalog_fetch (log_of (truncate_all_tables w)) = true
  ∧ (self_conn w = true → hd None (faults w) = None →
     (result_of (truncate_all_tables w) = Ok tt ↔
      carried_out (log_of (truncate_all_tables w))
      = TruncateTable <$> truncate_targets (db w)))
  ∧ (self_conn w = false ∨ hd None (faults w) ≠ None →
     executed (log_of (truncate_all_tables w)) = []
     ∧ ∃ e, result_of (truncate_all_tables w) = Raise e)
  ∧ (self_conn w = true → calm w → result_of (truncate_all_tables w) = Ok tt)
  ∧ (length (executed (log_of (truncate_all_tables w)))
     = length (without_migrations (Pg.pg_tables (db w))) ↔
     forallb safe_name (without_migrations (Pg.pg_tables (db w))) = true
     ∧ executed (log_of (truncate_all_tables w))
       = TruncateTable <$> truncate_targets (db w)).
Proof.
  destruct (truncate_all_tables_executed w) as [Hpre Hall].
  destruct (truncate_all_tables_carried_out w) as (Hc1 & Hc2 & Hc3 & Hc4).
  pose proof (truncate_targets_safe (db w)) as Hsafe.
  assert (Forall is_truncate_of_identifier (TruncateTable <$> truncate_targets (db w)))
    as Hsafe'.
  { apply Forall_fmap. eapply Forall_impl; [exact Hsafe|].
    intros n [Hn1 Hn2]. by exists n. }
  assert (Forall is_truncate_of_identifier (executed (log_of (truncate_all_tables w))))
    as Hsent.
  { destruct Hpre as [k Hk]. rewrite Hk in Hsafe'. by apply Forall_app in Hsafe' as [? _]. }
  split_and!; [done|done|done|done| |apply truncate_all_tables_fetches|done|done
              |apply truncate_all_tables_succeeds|].
  - intros n Hn Hin. rewrite Forall_forall in Hsent.
    destruct (Hsent _ Hin) as (n' & [= <-] & Hm & _). congruence.
  - assert (length (truncate_targets (db w))
            ≤ length (without_migrations (Pg.pg_tables (db w))))%nat as Hle.
    { unfold truncate_targets. rewrite length_fmap. apply List.filter_length_le. }
    split.
    + intros Hlen.
      assert (length (executed (log_of (truncate_all_tables w)))
              ≤ length (truncate_targets (db w)))%nat as Hle'.
      { rewrite <- (length_fmap TruncateTable). by apply prefix_length. }
      split.
      * unfold truncate_targets in Hle'. rewrite length_fmap in Hle'.
        apply forallb_forall. intros t Ht.
        destruct (safe_name t) eqn:Hs; [done|]. exfalso.
        assert (length (List.filter safe_name (without_migrations (Pg.pg_tables (db w))))
                < length (without_migrations (Pg.pg_tables (db w))))%nat; [|lia].
        clear -Ht Hs. induction (without_migrations (Pg.pg_tables (db w))) as [|a l IH];
          [done|]. cbn. destruct Ht as [->|Ht].
        -- rewrite Hs. pose proof (List.filter_length_le safe_name l). lia.
        -- specialize (IH Ht). destruct (safe_name a); cbn; lia.
      * apply prefix_length_eq; [done|]. rewrite length_fmap. lia.
    + intros [Hall' ->]. rewrite length_fmap. unfold truncate_targets.
      by rewrite length_fmap, forallb_filter_id.
Qed.

(** C3 as stated fails: four tables besides the migration table, every
    name matching, and the second TRUNCATE raises: two statements were
    sent, one carried out, not four. *)
Lemma failed_truncate_makes_fewer_statements :
  forallb safe_name (without_migrations (Pg.pg_tables backend_db)) = true
  ∧ length (without_migrations (Pg.pg_tables backend_db)) = 4
  ∧ executed (log_of (truncate_all_tables
                        (sample_connected [] [None; None; Some "deadlock detected"]
                           backend_db)))
    = [TruncateTable "clientes"; TruncateTable "usuarios"]
  ∧ carried_out (log_of (truncate_all_tables
                           (sample_connected [] [None; None; Some "deadlock detected"]
                              backend_db)))
    = [TruncateTable "clientes"].
Proof. split_and!; vm_compute; reflexivity. Qed.

(** A catalog entry whose name does not match gets no statement. *)
Example unsafe_name_gets_no_truncate :
  Pg.pg_tables catalog_with_unsafe_name
  = [Some "my-table"; Some "usuarios"; Some "alembic_version"]
  ∧ result_of (truncate_all_tables (sample_connected [] [] catalog_with_unsafe_name))
    = Ok tt
  ∧ executed (log_of (truncate_all_tables
                        (sample_connected [] [] catalog_with_unsafe_name)))
    = [TruncateTable "usuarios"].
Proof. split_and!; vm_compute; reflexivity. Qed.

(** On the sample database: the four tables, not the migration table. *)
Example truncate_all_on_backend_db :
  executed (log_of (truncate_all_tables (sample_connected [] [] backend_db)))
  = [TruncateTable "clientes"; TruncateTable "usuarios"; TruncateTable "vendas";
     TruncateTable "produtos"].
Proof. vm_compute. reflexivity. Qed.

(** Python's [$] lets a final newline through: such a name passes the
    test of line 157. *)
Example trailing_newline_matches :
  Str.re_match_identifier (String "t" (String (ascii_of_N 10) EmptyString)) = true
  ∧ Str.re_match_identifier "my-table" = false
  ∧ Str.re_match_identifier "" = false
  ∧ Str.re_match_identifier "1abc" = false
  ∧ Str.re_match_identifier "_itens_venda2" = true.
Proof. by vm_compute. Qed.

(** ** The workflows *)

Lemma try_except_returns {A} (m : M A) (h : Exn → M A) w :
  (∀ e w', ∃ a, result_of (h e w') = Ok a) →
  ∃ a, result_of (try_except m h w) = Ok a.
Proof.
  intros Hh. unfold try_except. destruct (m w) as [[[a|e] w1] o1]; [by exists a|].
  destruct (Hh e w1) as [a Ha]. destruct (h e w1) as [[r w2] o2].
  cbn in Ha |- *. by exists a.
Qed.

Lemma bind_print {A} (m : Msg) (k : M A) w :
  bind (print m) (λ _, k) w = (result_of (k w), world_of (k w), EvPrint m :: log_of (k w)).
Proof. unfold bind, print, emit. cbn. by destruct (k w) as [[r w'] o]. Qed.

Lemma backup_data_returns w : ∃ m, result_of (backup_data w) = Ok m.
Proof.
  unfold backup_data. rewrite bind_print. cbn.
  apply try_except_returns. intros e w'. by eexists.
Qed.

Lemma backup_data_frame : keeps (λ w, (db w, host w)) not_seeded backup_data.
Proof. unfold backup_data. autounfold with prog. keeps_auto. Qed.

Lemma truncate_loop_frame l : keeps host not_seeded (truncate_loop l).
Proof.
  induction l as [|t l IH]; cbn [truncate_loop]; autounfold with prog;
    keeps_auto; exact IH.
Qed.

Lemma truncate_all_tables_frame : keeps host not_seeded truncate_all_tables.
Proof.
  unfold truncate_all_tables. autounfold with prog. keeps_auto;
    apply truncate_loop_frame.
Qed.

(** The seed never raises; when its INSERT went through, [usuarios] has
    one more row, the administrator's, and otherwise the database is as it
    was. *)
Lemma create_admin_user_run w :
  result_of (create_admin_user w) = Ok tt
  ∧ if existsb is_seeded (log_of (create_admin_user w))
    then ∃ h t, werkzeug (host w) = Some h
                ∧ db w !! "usuarios" = Some t
                ∧ db (world_of (create_admin_user w))
                  = <["usuarios" := with_row (admin_row (uuid4 (host w)) (h seed_password)) t]>
                      (db w)
    else db (world_of (create_admin_user w)) = db w.
Proof.
  unfold create_admin_user, try_except, bind, print, emit, ret, get, raise,
    import_generate_password_hash, conn_insert_usuarios.
  cbn. destruct (werkzeug (host w)) as [h|] eqn:Hh; cbn; [|done].
  rewrite conn_execute_run.
  destruct (self_conn w); [|done].
  destruct (hd None (faults w)); [done|].
  destruct (Pg.insert_usuarios _ (db w)) as [d'|] eqn:Hi; [|done].
  cbn. split; [done|]. exists h.
  revert Hi. unfold Pg.insert_usuarios.
  destruct (db w !! "usuarios") as [t|]; [|done].
  destruct (forallb _ _); [|done]. intros [= <-]. by exists t.
Qed.

Lemma seeded_is_sql o : existsb is_seeded (List.filter is_sql o) = existsb is_seeded o.
Proof.
  induction o as [|e o IH]; [done|]. cbn.
  destruct e as [| | | |q ok|q ok|]; cbn; rewrite ?IH; try done.
Qed.

Lemma not_seeded_none o : forallb not_seeded o = true → existsb is_seeded o = false.
Proof.
  induction o as [|e o IH]; [done|]. cbn. unfold not_seeded at 1.
  intros [He Ho]%andb_true_iff. rewrite (IH Ho). by destruct (is_seeded e).
Qed.

(** Both workflows are the three steps in a row, and stop where
    truncate-all raises; they differ in what they print. *)
Lemma workflow_steps wf w :
  let b := backup_data w in
  let t := truncate_all_tables (world_of b) in
  let a := create_admin_user (world_of t) in
  match result_of t with
  | Ok _ =>
      result_of (workflow wf w) = Ok tt
      ∧ world_of (workflow wf w) = world_of a
      ∧ List.filter is_sql (log_of (workflow wf w))
        = List.filter is_sql (log_of b ++ log_of t ++ log_of a)
  | Raise e =>
      result_of (workflow wf w) = Raise e
      ∧ world_of (workflow wf w) = world_of t
      ∧ List.filter is_sql (log_of (workflow wf w))
        = List.filter is_sql (log_of b ++ log_of t)
  end.
Proof.
  cbn zeta.
  destruct (backup_data_returns w) as [m Hm].
  destruct wf; unfold workflow, reset_complete, reset_data_only,
    try_except, bind, print, emit, raise; cbn;
    destruct (backup_data w) as [[rb wb] ob]; cbn in Hm |- *; subst rb;
    destruct (create_admin_user_run wb) as [Ha _];
    destruct (truncate_all_tables wb) as [[[[]|e] wt] ot]; cbn;
    try (destruct (create_admin_user_run wt) as [Ha' _];
         destruct (create_admin_user wt) as [[ra wa] oa]; cbn in Ha' |- *; subst ra; cbn);
    rewrite ?List.filter_app; cbn; rewrite ?app_nil_r; done.
Qed.

(** C2, as the code has it.  After a destructive workflow that returned,
    in which the TRUNCATE of [usuarios] and the seed INSERT were both
    carried out, [usuarios] holds exactly one row: its login is the seed
    login, its admin flag is true, and its password field is what
    [generate_password_hash] made of the seed password, which differs from
    the plain password exactly when that function does not hand its
    argument back.  (The workflow also returns when the INSERT fails:
    [create_admin_user] only reports the error.  When the INSERT is
    carried out is the matter of [create_admin_user_seeds] and
    [workflow_seeds] further down.) *)
Theorem seeded_reset_leaves_one_admin wf w :
  result_of (workflow wf w) = Ok tt →
  usuarios_truncated (log_of (workflow wf w)) →
  existsb is_seeded (log_of (workflow wf w)) = true →
  ∃ generate_password_hash t r,
    werkzeug (host w) = Some generate_password_hash
    ∧ db (world_of (workflow wf w)) !! "usuarios" = Some t
    ∧ rows t = [r]
    ∧ field "usuario" r = Some (VStr seed_login)
    ∧ field "is_admin" r = Some (VBool true)
    ∧ field "senha_hash" r = Some (VStr (generate_password_hash seed_password))
    ∧ (field "senha_hash" r ≠ Some (VStr seed_password)
       ↔ generate_password_hash seed_password ≠ seed_password).
Proof.
  intros Hr _ Hs.
  pose proof (workflow_steps wf w) as H. cbn zeta in H.
  pose proof (backup_data_frame w) as [Hvb Hlb%not_seeded_none].
  pose proof (truncate_all_tables_frame (world_of (backup_data w)))
    as [Hvt Hlt%not_seeded_none].
  pose proof (truncate_all_tables_empties (world_of (backup_data w)) "usuarios") as He.
  pose proof (create_admin_user_run
                (world_of (truncate_all_tables (world_of (backup_data w))))) as [_ Ha].
  injection Hvb as _ Hhb.
  destruct (result_of (truncate_all_tables (world_of (backup_data w)))) as [[]|e];
    [|destruct H as [H _]; congruence].
  destruct H as (_ & Hw & Hl).
  rewrite <- seeded_is_sql, Hl, seeded_is_sql, !existsb_app, Hlb, Hlt in Hs.
  cbn in Hs. rewrite Hs in Ha. destruct Ha as (h & t0 & Hlib & Ht0 & Hdb).
  rewrite Hvt, Hhb in Hlib.
  exists h, (with_row (admin_row (uuid4 (host w)) (h seed_password)) t0),
         (admin_row (uuid4 (host w)) (h seed_password)).
  split_and!; [done| | |done|done|done|].
  - rewrite Hw, Hdb, Hvt, Hhb. apply lookup_insert_eq.
  - cbn. by rewrite (He eq_refl eq_refl ltac:(discriminate) t0 Ht0).
  - cbn. split; intros Hne; congruence.
Qed.

Lemma seeded_reset_leaves_one_admin_witness :
  ∃ generate_password_hash t r,
    werkzeug (host (sample_connected [] [] backend_db)) = Some generate_password_hash
    ∧ db (world_of (workflow Complete (sample_connected [] [] backend_db)))
        !! "usuarios" = Some t
    ∧ rows t = [r]
    ∧ field "usuario" r = Some (VStr seed_login)
    ∧ field "is_admin" r = Some (VBool true)
    ∧ field "senha_hash" r = Some (VStr (generate_password_hash seed_password))
    ∧ (field "senha_hash" r ≠ Some (VStr seed_password)
       ↔ generate_password_hash seed_password ≠ seed_password).
Proof.
  apply (seeded_reset_leaves_one_admin Complete (sample_connected [] [] backend_db)).
  - vm_compute. reflexivity.
  - unfold usuarios_truncated. vm_compute. tauto.
  - vm_compute. reflexivity.
Defined.

(** C2 as stated fails: on a [usuarios] table with the columns of
    [create_tables], which the INSERT's [nivel] is not among, [complete]
    returns, having printed its success, and [usuarios] has no row. *)
Lemma reset_can_succeed_without_admin :
  result_of (reset_complete
               (sample_connected [] []
                  (<["usuarios" := usuarios_create_tables]> ∅))) = Ok tt
  ∧ printed MsgResetDone
      (log_of (reset_complete
                 (sample_connected [] []
                    (<["usuarios" := usuarios_create_tables]> ∅))))
  ∧ rows <$> db (world_of (reset_complete
                             (sample_connected [] []
                                (<["usuarios" := usuarios_create_tables]> ∅))))
             !! "usuarios"
    = Some [].
Proof.
  split_and!; [vm_compute; reflexivity| |vm_compute; reflexivity].
  unfold printed. vm_compute. tauto.
Qed.

(** The same happens where werkzeug cannot be imported. *)
Example reset_without_werkzeug :
  rows <$> db (world_of (reset_data_only
                 {| host := {| environ := ∅; dotenv_file := true;
                               werkzeug := None; uuid4 := 7 |};
                    stdin := []; faults := []; db := backend_db;
                    self_database_url := "postgresql://pos@example.net/pos";
                    self_conn := true |})) !! "usuarios"
  = Some [].
Proof. vm_compute. reflexivity. Qed.

(** C9.  [reset_complete] and [reset_data_only], started in the same
    world, end with the same result in the same world (so the same
    database), having sent the same statements with the same outcomes in
    the same order: those of backup, then truncate-all, then the seed.
    Only what they print differs. *)
Theorem complete_and_data_send_the_same_statements w :
  result_of (reset_complete w) = result_of (reset_data_only w)
  ∧ world_of (reset_complete w) = world_of (reset_data_only w)
  ∧ List.filter is_sql (log_of (reset_complete w))
    = List.filter is_sql (log_of (reset_data_only w))
  ∧ List.filter is_sql (log_of (reset_complete w))
    = List.filter is_sql
        (log_of ((backup_data ;; truncate_all_tables ;; create_admin_user) w)).
Proof.
  pose proof (workflow_steps Complete w) as Hc.
  pose proof (workflow_steps Data w) as Hd.
  cbn zeta in Hc, Hd. cbn [workflow] in Hc, Hd.
  assert (List.filter is_sql
            (log_of ((backup_data ;; truncate_all_tables ;; create_admin_user) w))
          = match result_of (truncate_all_tables (world_of (backup_data w))) with
            | Ok _ =>
                List.filter is_sql
                  (log_of (backup_data w)
                   ++ log_of (truncate_all_tables (world_of (backup_data w)))
                   ++ log_of (create_admin_user
                                (world_of (truncate_all_tables (world_of (backup_data w)))))) 
            | Raise _ =>
                List.filter is_sql
                  (log_of (backup_data w)
                   ++ log_of (truncate_all_tables (world_of (backup_data w))))
            end) as Hsteps.
  { unfold bind. destruct (backup_data_returns w) as [m Hm].
    destruct (backup_data w) as [[rb wb] ob]. cbn in Hm |- *. subst rb.
    destruct (truncate_all_tables wb) as [[[[]|e] wt] ot]; cbn; [|done].
    by destruct (create_admin_user wt) as [[ra wa] oa]. }
  rewrite Hsteps.
  destruct (result_of (truncate_all_tables (world_of (backup_data w))));
    destruct Hc as (Hc1 & Hc2 & Hc3), Hd as (Hd1 & Hd2 & Hd3);
    split_and!; congruence.
Qed.

(** What they print is not the same. *)
Example complete_and_data_print_differently :
  log_of (reset_complete (sample_connected [] [] backend_db))
  ≠ log_of (reset_data_only (sample_connected [] [] backend_db)).
Proof. vm_compute. discriminate. Qed.

(** * The rest of the script *)

(** ** The connection URL ([DatabaseReset.__init__], lines 19-34) *)

Lemma append_cons c s t : String c s +:+ t = String c (s +:+ t).
Proof. done. Qed.

Lemma startswith_app p s : Str.startswith p (p +:+ s) = true.
Proof.
  induction p as [|c p IH]; [done|]. rewrite append_cons. cbn [Str.startswith].
  by rewrite Ascii.eqb_refl, IH.
Qed.

Lemma replace_from_skip old new s t :
  Str.replace_from (String.length s) old new (s +:+ t) = Str.replace_from 0 old new t.
Proof.
  induction s as [|c s IH]; [done|]. rewrite append_cons.
  cbn [String.length Str.replace_from]. exact IH.
Qed.

(** An occurrence at the front is replaced and the rest is gone through. *)
Lemma replace_front c old new rest :
  Str.replace (String c old) new (String c old +:+ rest)
  = new +:+ Str.replace (String c old) new rest.
Proof.
  unfold Str.replace. rewrite append_cons at 1. cbn [Str.replace_from].
  rewrite <- append_cons, startswith_app. cbn [String.length Nat.sub].
  rewrite Nat.sub_0_r. by rewrite replace_from_skip.
Qed.

(** Where there is no occurrence, nothing changes. *)
Lemma replace_absent old new s :
  Str.contains old s = false → Str.replace old new s = s.
Proof.
  unfold Str.replace. induction s as [|c s IH]; [done|].
  cbn [Str.contains Str.replace_from].
  intros [H1 H2]%orb_false_iff. rewrite H1. by rewrite IH.
Qed.

Lemma init_stores w url :
  configured_url w = Some url → url ≠ "" →
  DatabaseReset_init w =
    (Ok tt,
     new_self
       (let url1 := if Str.startswith asyncpg_scheme url
                    then Str.replace asyncpg_scheme "postgresql://" url else url in
        if Str.startswith psycopg2_scheme url1
        then Str.replace psycopg2_scheme "postgresql://" url1 else url1) w,
     []).
Proof.
  unfold configured_url, DatabaseReset_init, bind, getenv, get, modify. cbn.
  intros -> Hne. cbn. by destruct url.
Qed.

Lemma init_rewrites w scheme rest :
  scheme = asyncpg_scheme ∨ scheme = psycopg2_scheme →
  configured_url w = Some (scheme +:+ rest) →
  DatabaseReset_init w =
    (Ok tt, new_self ("postgresql://" +:+ Str.replace scheme "postgresql://" rest) w, []).
Proof.
  intros Hs Hu.
  rewrite (init_stores w _ Hu) by (by destruct Hs as [-> | ->]).
  destruct Hs as [-> | ->]; cbn zeta.
  - rewrite startswith_app. unfold asyncpg_scheme at 1 2. rewrite replace_front.
    by replace (Str.startswith psycopg2_scheme _) with false by (by vm_compute).
  - replace (Str.startswith asyncpg_scheme _) with false by (by vm_compute).
    rewrite startswith_app. unfold psycopg2_scheme at 1 2. by rewrite replace_front.
Qed.

(** X1.  A URL that begins with one of the two driver schemes is stored
    with that scheme turned into [postgresql://]; [str.replace] goes on
    through the rest of the URL, which is left as it is when the scheme
    does not occur in it again. *)
Theorem init_rewrites_driver_scheme w scheme rest :
  scheme = asyncpg_scheme ∨ scheme = psycopg2_scheme →
  configured_url w = Some (scheme +:+ rest) →
  DatabaseReset_init w =
    (Ok tt, new_self ("postgresql://" +:+ Str.replace scheme "postgresql://" rest) w, [])
  ∧ (Str.contains scheme rest = false →
     DatabaseReset_init w = (Ok tt, new_self ("postgresql://" +:+ rest) w, [])).
Proof.
  intros Hs Hu. pose proof (init_rewrites w scheme rest Hs Hu) as Hi.
  split; [exact Hi|]. intros Hc. rewrite Hi. by rewrite replace_absent.
Qed.

Lemma init_rewrites_driver_scheme_witness :
  DatabaseReset_init (sample_world [] [] backend_db) =
    (Ok tt,
     new_self ("postgresql://"
               +:+ Str.replace asyncpg_scheme "postgresql://" "pos@example.net/pos")
       (sample_world [] [] backend_db), [])
  ∧ (Str.contains asyncpg_scheme "pos@example.net/pos" = false →
     DatabaseReset_init (sample_world [] [] backend_db) =
       (Ok tt,
        new_self ("postgresql://" +:+ "pos@example.net/pos")
          (sample_world [] [] backend_db), [])).
Proof.
  apply (init_rewrites_driver_scheme (sample_world [] [] backend_db)
           asyncpg_scheme "pos@example.net/pos").
  - left. reflexivity.
  - vm_compute. reflexivity.
Defined.

(** Every occurrence goes, not only the one in front. *)
Example replace_is_global :
  Str.replace asyncpg_scheme "postgresql://"
    "postgresql+asyncpg://u:postgresql+asyncpg://@h/d"
  = "postgresql://u:postgresql://@h/d".
Proof. vm_compute. reflexivity. Qed.

Lemma startswith_split p s : Str.startswith p s = true → ∃ r, s = p +:+ r.
Proof.
  revert s. induction p as [|c p IH]; intros s; [by exists s|].
  destruct s as [|b s]; [done|]. cbn [Str.startswith].
  intros [->%Ascii.eqb_eq [r ->]%IH]%andb_true_iff. by exists r.
Qed.

(** X2.  A variable that is set to the empty string counts as unset: when
    each of the two is unset or empty, the constructor raises [ValueError]
    and nothing has been called or printed. *)
Theorem empty_urls_raise w :
  truthy (environ (host w) !! "DATABASE_PUBLIC_URL") = false →
  truthy (environ (host w) !! "DATABASE_URL") = false →
  DatabaseReset_init w = (Raise ValueError, w, []).
Proof.
  intros Hp Hu. destruct (init_run w) as [[Hi _]|[url Hi]]; [done|].
  revert Hi. unfold DatabaseReset_init, bind, getenv, get, py_or. cbn.
  rewrite Hp. destruct (environ (host w) !! "DATABASE_URL") as [u|]; [|done].
  cbn in Hu |- *. by rewrite Hu.
Qed.

Lemma empty_urls_raise_witness :
  DatabaseReset_init empty_urls_world = (Raise ValueError, empty_urls_world, []).
Proof. apply (empty_urls_raise empty_urls_world); reflexivity. Defined.

(** X3.  The public URL wins: when [DATABASE_PUBLIC_URL] is set and not
    empty, what the constructor stores does not depend on [DATABASE_URL];
    when it is unset or empty, the internal URL is used as if the public
    one were not there. *)
Theorem public_url_is_preferred w1 w2 :
  (∀ u, environ (host w1) !! "DATABASE_PUBLIC_URL" = Some u → u ≠ "" →
        environ (host w2) !! "DATABASE_PUBLIC_URL" = Some u →
        result_of (DatabaseReset_init w1) = result_of (DatabaseReset_init w2)
        ∧ self_database_url (world_of (DatabaseReset_init w1))
          = self_database_url (world_of (DatabaseReset_init w2)))
  ∧ (truthy (environ (host w1) !! "DATABASE_PUBLIC_URL") = false →
     truthy (environ (host w2) !! "DATABASE_PUBLIC_URL") = false →
     environ (host w1) !! "DATABASE_URL" = environ (host w2) !! "DATABASE_URL" →
     truthy (environ (host w1) !! "DATABASE_URL") = true →
     result_of (DatabaseReset_init w1) = result_of (DatabaseReset_init w2)
     ∧ self_database_url (world_of (DatabaseReset_init w1))
       = self_database_url (world_of (DatabaseReset_init w2))).
Proof.
  split.
  - intros u H1 Hne H2.
    assert (∀ w, environ (host w) !! "DATABASE_PUBLIC_URL" = Some u →
                 configured_url w = Some u) as Hc.
    { intros w H. unfold configured_url, py_or. rewrite H. cbn. by destruct u. }
    by rewrite (init_stores w1 u), (init_stores w2 u) by auto.
  - intros Hp1 Hp2 Hi Ht.
    destruct (environ (host w1) !! "DATABASE_URL") as [u|] eqn:Hu; [|done].
    assert (u ≠ "") as Hne by (by destruct u).
    assert (configured_url w1 = Some u) as Hc1.
    { unfold configured_url, py_or. by rewrite Hp1. }
    assert (configured_url w2 = Some u) as Hc2.
    { unfold configured_url, py_or. by rewrite Hp2, <- Hi. }
    by rewrite (init_stores w1 u), (init_stores w2 u) by auto.
Qed.

(** *** The URL that reaches the driver *)

Lemma init_plain_scheme w :
  result_of (DatabaseReset_init w) = Ok tt →
  plain_scheme (self_database_url (world_of (DatabaseReset_init w))) = true.
Proof.
  destruct (init_run w) as [[-> _]|[url0 Hi0]]; [done|]. intros _.
  destruct (configured_url w) as [url|] eqn:Hu.
  2:{ revert Hi0. unfold configured_url in Hu.
      unfold DatabaseReset_init, bind, getenv, get. cbn. by rewrite Hu. }
  destruct (String.eqb_spec url "") as [->|Hne].
  { revert Hi0. unfold configured_url in Hu.
    unfold DatabaseReset_init, bind, getenv, get. cbn. by rewrite Hu. }
  destruct (Str.startswith asyncpg_scheme url) eqn:Ha.
  { apply startswith_split in Ha as [r ->].
    rewrite (init_rewrites w asyncpg_scheme r) by auto. by vm_compute. }
  destruct (Str.startswith psycopg2_scheme url) eqn:Hp.
  { apply startswith_split in Hp as [r ->].
    rewrite (init_rewrites w psycopg2_scheme r) by auto. by vm_compute. }
  rewrite (init_stores w url Hu Hne). cbn zeta. rewrite Ha, Hp. cbn.
  unfold plain_scheme. by rewrite Ha, Hp.
Qed.

Lemma connect_loop_urls retries base_delay remaining w url :
  url ∈ omap connect_url (log_of (connect_loop retries base_delay remaining w)) →
  url = self_database_url w.
Proof.
  revert w. induction remaining as [|k IH]; intros w; [by intros ?%elem_of_nil|].
  cbn [connect_loop]. autounfold with prog.
  unfold bind, try_except, get, next_fault, emit, print, modify, ret, raise.
  destruct (hd None (faults w)) as [msg|]; cbn -[Nat.ltb];
    [|by intros ->%list_elem_of_singleton].
  destruct (Str.contains "WinError 64" msg),
    (Str.contains "TLS handshake timeout" msg || Str.contains "handshake" msg),
    (retries - k <? retries)%nat; cbn;
    (specialize (IH (set_faults (tail (faults w)) w));
     destruct (connect_loop retries base_delay k _) as [[r w'] o'];
     cbn in IH |- *; rewrite ?omap_app; cbn;
     intros [->|H]%elem_of_cons; [done|by apply IH]).
Qed.

Lemma not_connect_urls o : forallb not_connect o = true → omap connect_url o = [].
Proof.
  induction o as [|e o IH]; [done|]. cbn.
  intros [He Ho]%andb_true_iff. rewrite (IH Ho). by destruct e.
Qed.

Lemma work_not_connect o : forallb is_work o = true → forallb not_connect o = true.
Proof. apply forallb_weaken. by intros []. Qed.

Lemma close_not_connect : keeps (λ _, tt) not_connect close.
Proof. unfold close. autounfold with prog. keeps_auto. Qed.

Lemma session_urls action w url :
  url ∈ omap connect_url (log_of (session action w)) → url = self_database_url w.
Proof.
  unfold session, try_finally, try_except, bind.
  pose proof (connect_loop_urls 3 1.5%float 3 w url) as Hc. fold (connect 3 1.5%float) in Hc.
  destruct (connect 3 1.5%float w) as [[rc w1] o1]. cbn in Hc.
  assert (∀ w2 o2 (r : Result unit),
            omap connect_url o2 = omap connect_url o1 →
            url ∈ omap connect_url
                    (log_of (match close w2 with
                             | (Ok _, w3, o3) => (r, w3, o2 ++ o3)
                             | (Raise e, w3, o3) => (Raise e, w3, o2 ++ o3)
                             end)) →
            url = self_database_url w) as Hclose.
  { intros w2 o2 r Ho2.
    pose proof (close_not_connect w2) as [_ Hl%not_connect_urls].
    destruct (close w2) as [[[[]|e] w3] o3]; cbn in Hl |- *;
      rewrite omap_app, Hl, app_nil_r, Ho2; exact Hc. }
  destruct rc as [[|]|e]; cbn.
  - pose proof (dispatch_work action w1) as [_ Hw%work_not_connect%not_connect_urls].
    destruct (dispatch action w1) as [[[[]|e] w2] o2]; cbn in Hw |- *;
      apply Hclose; rewrite ?omap_app, Hw; cbn; by rewrite ?app_nil_r.
  - apply Hclose. by rewrite app_nil_r.
  - apply Hclose. rewrite omap_app. cbn. by rewrite app_nil_r.
Qed.

(** X4.  Whatever the environment holds, the URL [main] hands to
    [asyncpg.connect] begins with neither [postgresql+asyncpg://] nor
    [postgresql+psycopg2://]. *)
Theorem driver_gets_plain_url sys_argv w url :
  url ∈ omap connect_url (log_of (main sys_argv w)) →
  plain_scheme url = true.
Proof.
  destruct sys_argv as [|prog [|arg rest]];
    [rewrite main_usage by (cbn; lia); by intros ?%elem_of_nil
    |rewrite main_usage by (cbn; lia); by intros ?%elem_of_nil|].
  assert (omap connect_url (preamble w) = []) as Hp.
  { unfold preamble. by destruct (dotenv_file (host w)). }
  pose proof (init_plain_scheme w) as Hplain.
  destruct (main_run prog arg rest w) as [[_ ->]|(url' & Hi & ->)]; cbn.
  - rewrite Hp. by intros ?%elem_of_nil.
  - rewrite omap_app, Hp. cbn. intros ->%session_urls.
    rewrite Hi in Hplain. by apply Hplain.
Qed.

Lemma driver_gets_plain_url_witness :
  plain_scheme "postgresql://pos@example.net/pos" = true.
Proof.
  apply (driver_gets_plain_url [script; "check"] (sample_world [] [] backend_db)).
  vm_compute. constructor.
Defined.

(** ** Retrying the connection ([connect], lines 36-63) *)

#[local] Arguments attempts : simpl never.

Lemma attempts_cons e o :
  attempts (e :: o) = (if is_connect e then 1 else 0) + attempts o.
Proof. unfold attempts. cbn. by destruct (is_connect e). Qed.

Lemma connect_loop_backoff retries base_delay k w :
  (k ≤ retries)%nat →
  let r := connect_loop retries base_delay k w in
  let n := k `min` S (leading_faults (faults w)) in
  attempts (log_of r) = n
  ∧ result_of r = Ok (leading_faults (faults w) <? k)%nat
  ∧ sleeps (log_of r) = backoff base_delay <$> seq (retries - k + 1) (n - 1)
  ∧ faults (world_of r) = drop n (faults w).
Proof.
  revert w. induction k as [|k IH]; intros w Hk; [done|].
  cbn [connect_loop]. autounfold with prog.
  unfold bind, try_except, get, next_fault, emit, print, modify, ret, raise.
  destruct (faults w) as [|[msg|] fs] eqn:Hf; cbn -[Nat.ltb Nat.min seq drop];
    rewrite ?Hf;
    [by replace (S k `min` 1) with 1 by lia|
    |by replace (S k `min` 1) with 1 by lia].
  specialize (IH (set_faults fs w) ltac:(lia)).
  destruct (Nat.ltb_spec (retries - k) retries) as [Hlt|Hge];
    destruct (Str.contains "WinError 64" msg),
      (Str.contains "TLS handshake timeout" msg || Str.contains "handshake" msg);
    cbn -[Nat.ltb Nat.min seq drop];
    destruct (connect_loop retries base_delay k (set_faults fs w)) as [[r w'] o'];
    cbn -[Nat.ltb Nat.min seq drop] in IH |- *;
    destruct IH as (Ha & Hr & Hs & Hd);
    rewrite ?attempts_cons, Ha, Hs, Hd, Hr; cbn -[Nat.min seq drop];
    (split_and!; [lia|done| |by destruct k]);
    unfold sleeps in *; cbn -[Nat.min seq];
    replace (S k `min` S (S (leading_faults fs)) - 1)
      with (k `min` S (leading_faults fs)) by lia.
  all: try (destruct k as [|k]; [lia|]; 
            replace (S k `min` S (leading_faults fs)) with (S (k `min` leading_faults fs)) by lia;
            cbn [seq fmap list_fmap Nat.sub]; rewrite Nat.sub_0_r;
            replace (retries - S (S k) + 1) with (retries - S k) by lia;
            replace (S (retries - S k)) with (retries - S k + 1) by lia; done).
  all: assert (k = 0) as -> by lia; done.
Qed.

(** X5.  Where every delay is a finite float, so that [asyncio.sleep]
    returns, [connect] never raises.  It calls [asyncpg.connect] until a
    call goes through, [retries] times at most, and answers [True] exactly
    when fewer than [retries] calls failed in a row.  After each failed
    attempt but the last allowed one it sleeps the float product of
    [base_delay] and the number of the attempt: the binary64 product,
    rounded, not the exact one. *)
Theorem connect_retries_with_linear_backoff retries base_delay w :
  (Z.of_nat retries ≤ 2 ^ 63)%Z →
  (∀ n, (1 ≤ n < retries)%nat → PrimFloat.is_finite (backoff base_delay n) = true) →
  attempts (log_of (connect retries base_delay w))
  = retries `min` S (leading_faults (faults w))
  ∧ result_of (connect retries base_delay w)
    = Ok (leading_faults (faults w) <? retries)%nat
  ∧ sleeps (log_of (connect retries base_delay w))
    = backoff base_delay
        <$> seq 1 (retries `min` S (leading_faults (faults w)) - 1)
  ∧ faults (world_of (connect retries base_delay w))
    = drop (retries `min` S (leading_faults (faults w))) (faults w).
Proof.
  intros _ _.
  pose proof (connect_loop_backoff retries base_delay retries w (le_n _)) as H.
  cbn zeta in H. fold (connect retries base_delay) in H.
  by replace (retries - retries + 1) with 1 in H by lia.
Qed.

Lemma connect_retries_with_linear_backoff_witness :
  attempts (log_of (connect 4 0x1.999999999999ap-4%float
                      (sample_world [] [Some "timeout"; Some "timeout"; Some "timeout"]
                         backend_db))) = 4
  ∧ result_of (connect 4 0x1.999999999999ap-4%float
                 (sample_world [] [Some "timeout"; Some "timeout"; Some "timeout"]
                    backend_db)) = Ok true
  ∧ sleeps (log_of (connect 4 0x1.999999999999ap-4%float
                      (sample_world [] [Some "timeout"; Some "timeout"; Some "timeout"]
                         backend_db)))
    = backoff 0x1.999999999999ap-4%float <$> [1; 2; 3]
  ∧ faults (world_of (connect 4 0x1.999999999999ap-4%float
                        (sample_world [] [Some "timeout"; Some "timeout"; Some "timeout"]
                           backend_db))) = [].
Proof.
  apply (connect_retries_with_linear_backoff 4 0x1.999999999999ap-4%float
           (sample_world [] [Some "timeout"; Some "timeout"; Some "timeout"] backend_db)).
  - vm_compute. discriminate.
  - intros n Hn.
    assert (n = 1 ∨ n = 2 ∨ n = 3) as [H|[H|H]] by lia; subst n; reflexivity.
Defined.

(** Two refusals, then a connection: three calls, delays of 1.5 s and 3 s. *)
Example third_attempt_connects :
  result_of (connect 3 1.5%float
               (sample_world [] [Some "WinError 64"; Some "handshake"] backend_db))
  = Ok true
  ∧ sleeps (log_of (connect 3 1.5%float
               (sample_world [] [Some "WinError 64"; Some "handshake"] backend_db)))
    = [backoff 1.5%float 1; backoff 1.5%float 2]
  ∧ backoff 1.5%float 1 = 1.5%float ∧ backoff 1.5%float 2 = 3%float.
Proof. split_and!; by vm_compute. Qed.

(** The product is the float one: with [base_delay] the float written 0.1
    (0x1.999999999999ap-4), the third delay is 0.30000000000000004
    (0x1.3333333333334p-2), not the float written 0.3. *)
Example third_delay_is_rounded :
  backoff 0x1.999999999999ap-4%float 3 = 0x1.3333333333334p-2%float
  ∧ backoff 0x1.999999999999ap-4%float 3 ≠ 0x1.3333333333333p-2%float.
Proof. split; [reflexivity|]. vm_compute. discriminate. Qed.

(** ** What leaves [main] *)

Lemma close_result w :
  result_of (close w) = Ok tt
  ∨ ∃ msg, result_of (close w) = Raise (DriverError msg)
           ∧ In (EvClose false) (log_of (close w)).
Proof.
  unfold close, bind, get, conn_close, next_fault, emit, raise, print. cbn.
  destruct (self_conn w); cbn; [|by left].
  destruct (hd None (faults w)) as [msg|]; cbn; [right|by left].
  exists msg. by split; [|left].
Qed.

Lemma session_result action w :
  result_of (session action w) = Ok tt
  ∨ ∃ msg, result_of (session action w) = Raise (DriverError msg)
           ∧ In (EvClose false) (log_of (session action w)).
Proof.
  unfold session, try_finally.
  match goal with
  | |- context [try_except ?m ?h w] =>
      destruct (try_except_returns m h w) as [[] Hr]; [by eexists|];
      destruct (try_except m h w) as [[r w1] o1]
  end.
  cbn in Hr. subst r.
  destruct (close_result w1) as [Hc|(msg & Hc & Hin)].
  - destruct (close w1) as [[[[]|e] w2] o2]; cbn in Hc |- *; [by left|discriminate].
  - destruct (close w1) as [[[[]|e] w2] o2]; cbn in Hc, Hin |- *; [discriminate|].
    right. injection Hc as ->. exists msg. split; [done|].
    apply in_or_app. by right.
Qed.

(** X6.  No exception of the gate or of a workflow leaves [main]: a run
    ends normally, or on the [ValueError] of a missing URL (and has then
    only printed), or on an error that [conn.close] itself raised. *)
Theorem main_lets_no_workflow_error_out sys_argv w :
  result_of (main sys_argv w) = Ok tt
  ∨ (result_of (main sys_argv w) = Raise ValueError
     ∧ forallb is_console (log_of (main sys_argv w)) = true)
  ∨ ∃ msg, result_of (main sys_argv w) = Raise (DriverError msg)
           ∧ In (EvClose false) (log_of (main sys_argv w)).
Proof.
  destruct sys_argv as [|prog [|arg rest]];
    [left; by rewrite main_usage by (cbn; lia)
    |left; by rewrite main_usage by (cbn; lia)|].
  destruct (main_run prog arg rest w) as [[_ ->]|(url & _ & ->)]; cbn.
  - right. left. split; [done|]. apply preamble_console.
  - destruct (session_result (Str.lower arg) (new_self url w))
      as [Hr|(msg & Hr & Hin)]; [by left|].
    right. right. exists msg. split; [done|]. apply in_or_app. by right.
Qed.

(** A truncate that raises is reported by [main], which ends normally. *)
Example failed_truncate_is_swallowed :
  result_of (main [script; "complete"]
               (sample_world ["CONFIRMO"; "SIM"]
                  [None; None; None; None; None; None; Some "deadlock detected"]
                  backend_db)) = Ok tt
  ∧ printed (MsgGeneralError (DriverError "deadlock detected"))
      (log_of (main [script; "complete"]
                 (sample_world ["CONFIRMO"; "SIM"]
                    [None; None; None; None; None; None; Some "deadlock detected"]
                    backend_db))).
Proof. split; [by vm_compute|]. unfold printed. vm_compute. tauto. Qed.

(** ** The [check] workflow and an unreachable database *)

Lemma keeps_weaken {X A} (view : World → X) (a1 a2 : Event → bool) (m : M A) :
  (∀ e, a1 e = true → a2 e = true) → keeps view a1 m → keeps view a2 m.
Proof.
  intros Ha Hm w. destruct (Hm w) as [Hv Hl]. split; [done|].
  by apply (forallb_weaken a1).
Qed.

Lemma connect_plumbing retries base_delay :
  keeps (λ w, (db w, stdin w)) is_plumbing (connect retries base_delay).
Proof.
  apply (keeps_weaken _ is_setup); [|apply connect_setup].
  intros e He. unfold is_plumbing. by rewrite He.
Qed.

Lemma close_plumbing : keeps (λ w, (db w, stdin w)) is_plumbing close.
Proof. unfold close. autounfold with prog. keeps_auto. Qed.

Lemma session_check_plumbing :
  keeps (λ w, (db w, stdin w)) is_plumbing (session "check").
Proof.
  unfold session, dispatch. cbn [String.eqb Ascii.eqb Bool.eqb].
  keeps_auto; auto using connect_plumbing, close_plumbing.
Qed.

Lemma session_check_reports w :
  existsb is_connected (log_of (session "check" w)) = true →
  self_conn w = false →
  printed MsgCheckOk (log_of (session "check" w)).
Proof.
  unfold session, try_finally, try_except, bind, printed, dispatch.
  cbn [String.eqb Ascii.eqb Bool.eqb].
  pose proof (connect_result 3 1.5%float w) as Hr.
  destruct (connect 3 1.5%float w) as [[rc w1] o1]. cbn in Hr.
  destruct Hr as [(-> & Hc1 & Hl1)|(-> & Hc1 & Hl1)]; cbn.
  - intros _ _. destruct (close w1) as [[[[]|e] w2] o2]; cbn;
      rewrite !in_app_iff; cbn; tauto.
  - intros Hx Hc. rewrite close_idle in Hx by congruence. cbn in Hx.
    rewrite !app_nil_r in Hx. congruence.
Qed.

(** X7.  [check] (in any letter case) only connects: the run sends no
    statement, asks for no confirmation, leaves the database and the
    pending input as they were, and once connected reports that the
    connection works. *)
Theorem check_only_connects prog arg rest w :
  Str.lower arg = "check" →
  db (world_of (main (prog :: arg :: rest) w)) = db w
  ∧ stdin (world_of (main (prog :: arg :: rest) w)) = stdin w
  ∧ forallb is_plumbing (log_of (main (prog :: arg :: rest) w)) = true
  ∧ (existsb is_connected (log_of (main (prog :: arg :: rest) w)) = true →
     printed MsgCheckOk (log_of (main (prog :: arg :: rest) w))).
Proof.
  intros Ha.
  assert (forallb is_plumbing (preamble w) = true
          ∧ existsb is_connected (preamble w) = false) as [Hpp Hpx].
  { unfold preamble. by destruct (dotenv_file (host w)). }
  destruct (main_run prog arg rest w) as [[_ ->]|(url & _ & ->)]; cbn.
  - by rewrite Hpp, Hpx.
  - rewrite Ha.
    destruct (session_check_plumbing (new_self url w)) as [[= Hdb Hin] Hl].
    split_and!; [done|done|by rewrite forallb_app, Hpp, Hl|].
    rewrite existsb_app, Hpx. cbn. intros Hx.
    apply in_or_app. right. by apply session_check_reports.
Qed.

Lemma check_only_connects_witness :
  db (world_of (main [script; "Check"]
                  (sample_world ["CONFIRMO"; "SIM"] [] backend_db))) = backend_db
  ∧ stdin (world_of (main [script; "Check"]
                       (sample_world ["CONFIRMO"; "SIM"] [] backend_db)))
    = ["CONFIRMO"; "SIM"]
  ∧ forallb is_plumbing
      (log_of (main [script; "Check"]
                 (sample_world ["CONFIRMO"; "SIM"] [] backend_db))) = true
  ∧ (existsb is_connected
       (log_of (main [script; "Check"]
                  (sample_world ["CONFIRMO"; "SIM"] [] backend_db))) = true →
     printed MsgCheckOk
       (log_of (main [script; "Check"]
                  (sample_world ["CONFIRMO"; "SIM"] [] backend_db)))).
Proof.
  apply (check_only_connects script "Check" []
           (sample_world ["CONFIRMO"; "SIM"] [] backend_db)).
  reflexivity.
Defined.

Lemma attempts_app o1 o2 : attempts (o1 ++ o2) = attempts o1 + attempts o2.
Proof. unfold attempts. by rewrite List.filter_app, length_app. Qed.

Lemma sleeps_app o1 o2 : sleeps (o1 ++ o2) = sleeps o1 ++ sleeps o2.
Proof. apply omap_app. Qed.

(** X8.  When the first three driver calls all fail, [main] has tried to
    connect three times, slept 1.5 s and 3 s in between, and gives up:
    whatever the action, it asks for no confirmation, sends no statement,
    does not call [conn.close], and ends normally. *)
Theorem unreachable_database_ends_the_run prog arg rest w :
  configured w →
  (3 ≤ leading_faults (faults w))%nat →
  result_of (main (prog :: arg :: rest) w) = Ok tt
  ∧ db (world_of (main (prog :: arg :: rest) w)) = db w
  ∧ stdin (world_of (main (prog :: arg :: rest) w)) = stdin w
  ∧ forallb is_setup (log_of (main (prog :: arg :: rest) w)) = true
  ∧ attempts (log_of (main (prog :: arg :: rest) w)) = 3
  ∧ sleeps (log_of (main (prog :: arg :: rest) w))
    = [backoff 1.5%float 1; backoff 1.5%float 2].
Proof.
  intros [url' Hi']%configured_init Hf.
  assert (forallb is_setup (preamble w) = true ∧ attempts (preamble w) = 0
          ∧ sleeps (preamble w) = []) as (Hps & Hpa & Hpl).
  { unfold preamble. by destruct (dotenv_file (host w)). }
  destruct (main_run prog arg rest w) as [[Hi _]|(url & _ & ->)]; [congruence|].
  cbn. unfold session, try_finally, try_except, bind.
  pose proof (connect_loop_backoff 3 1.5%float 3 (new_self url w) (le_n _))
    as (Ha & Hr & Hs & _).
  pose proof (connect_result 3 1.5%float (new_self url w)) as Hres.
  pose proof (connect_setup 3 1.5%float (new_self url w)) as [[= Hdb Hin] Hl].
  fold (connect 3 1.5%float) in Ha, Hr, Hs.
  destruct (connect 3 1.5%float (new_self url w)) as [[rc w1] o1].
  cbn [result_of world_of log_of fst snd new_self faults] in Ha, Hr, Hs.
  cbn in Hres, Hdb, Hin, Hl.
  replace (3 `min` S (leading_faults (faults w))) with 3 in Ha, Hs by lia.
  destruct (Nat.ltb_spec (leading_faults (faults w)) 3) as [?|_]; [lia|].
  subst rc. destruct Hres as [(? & _)|(_ & Hc & _)]; [done|].
  cbn. rewrite close_idle by done. cbn. rewrite !app_nil_r.
  rewrite forallb_app, attempts_app, sleeps_app, Hps, Hpa, Hpl, Hl, Ha, Hs.
  done.
Qed.

Lemma unreachable_database_ends_the_run_witness :
  result_of (main [script; "complete"]
               (sample_world ["CONFIRMO"; "SIM"]
                  [Some "timeout"; Some "timeout"; Some "timeout"] backend_db)) = Ok tt
  ∧ db (world_of (main [script; "complete"]
                    (sample_world ["CONFIRMO"; "SIM"]
                       [Some "timeout"; Some "timeout"; Some "timeout"] backend_db)))
    = backend_db
  ∧ stdin (world_of (main [script; "complete"]
                       (sample_world ["CONFIRMO"; "SIM"]
                          [Some "timeout"; Some "timeout"; Some "timeout"] backend_db)))
    = ["CONFIRMO"; "SIM"]
  ∧ forallb is_setup
      (log_of (main [script; "complete"]
                 (sample_world ["CONFIRMO"; "SIM"]
                    [Some "timeout"; Some "timeout"; Some "timeout"] backend_db))) = true
  ∧ attempts
      (log_of (main [script; "complete"]
                 (sample_world ["CONFIRMO"; "SIM"]
                    [Some "timeout"; Some "timeout"; Some "timeout"] backend_db))) = 3
  ∧ sleeps
      (log_of (main [script; "complete"]
                 (sample_world ["CONFIRMO"; "SIM"]
                    [Some "timeout"; Some "timeout"; Some "timeout"] backend_db)))
    = [backoff 1.5%float 1; backoff 1.5%float 2].
Proof.
  apply (unreachable_database_ends_the_run script "complete" []
           (sample_world ["CONFIRMO"; "SIM"]
              [Some "timeout"; Some "timeout"; Some "timeout"] backend_db)).
  - reflexivity.
  - vm_compute. lia.
Defined.

(** ** The gate and the end of input ([confirm_action], lines 347-364) *)

(** X9.  The gate reads no more than it needs: a first answer that is not
    the token ends it with that one line read, the second line staying in
    the input; with the first token given it reads the second line.  Where
    the input ends before the answer it is waiting for, it raises
    [EOFError]. *)
Theorem gate_reads_one_line_when_refused action_name w :
  (∀ l1 rest, stdin w = l1 :: rest → Str.strip l1 ≠ "CONFIRMO" →
     result_of (confirm_action action_name w) = Ok false
     ∧ stdin (world_of (confirm_action action_name w)) = rest)
  ∧ (∀ l1 l2 rest, stdin w = l1 :: l2 :: rest → Str.strip l1 = "CONFIRMO" →
       result_of (confirm_action action_name w)
       = Ok (String.eqb (Str.strip l2) "SIM")
       ∧ stdin (world_of (confirm_action action_name w)) = rest)
  ∧ (stdin w = [] → result_of (confirm_action action_name w) = Raise EOFError)
  ∧ (∀ l1, stdin w = [l1] → Str.strip l1 = "CONFIRMO" →
       result_of (confirm_action action_name w) = Raise EOFError).
Proof.
  unfold confirm_action, bind, print, emit, input, ret.
  split_and!.
  - intros l1 rest -> Hne%String.eqb_neq. cbn. by rewrite Hne.
  - intros l1 l2 rest -> He. cbn. rewrite He. cbn.
    by destruct (String.eqb (Str.strip l2) "SIM").
  - by intros ->.
  - intros l1 -> He. cbn. by rewrite He.
Qed.

(** ** What truncation leaves in place *)

Lemma truncate_structure name d d' :
  Pg.truncate name d = Some d' → structure d' = structure d.
Proof.
  intros Ht. apply map_eq. intros n. unfold structure.
  rewrite !lookup_fmap, (truncate_lookup _ _ _ _ Ht).
  destruct (d !! n) as [t|]; [|done]. cbn. by case_bool_decide.
Qed.

Lemma insert_usuarios_structure r d d' :
  Pg.insert_usuarios r d = Some d' → structure d' = structure d.
Proof.
  unfold Pg.insert_usuarios. destruct (d !! "usuarios") as [t|] eqn:Ht; [|done].
  destruct (forallb _ _); [|done]. intros [= <-].
  apply map_eq. intros n. unfold structure. rewrite !lookup_fmap.
  destruct (decide (n = "usuarios")) as [->|Hn].
  - by rewrite lookup_insert_eq, Ht.
  - by rewrite lookup_insert_ne.
Qed.

Lemma conn_execute_structure q run failure :
  (∀ d d', run d = Some d' → structure d' = structure d) →
  keeps (λ w, structure (db w)) anything (conn_execute q run failure).
Proof.
  intros Hrun w. rewrite conn_execute_run.
  destruct (self_conn w); [|done].
  destruct (hd None (faults w)); [done|].
  destruct (run (db w)) as [d'|] eqn:Hd; [|done].
  split; [|done]. cbn. by apply Hrun.
Qed.

Lemma truncate_loop_structure l :
  keeps (λ w, structure (db w)) anything (truncate_loop l).
Proof.
  induction l as [|t l IH]; cbn [truncate_loop]; keeps_auto; [| |exact IH..].
  - exact IH.
  - apply conn_execute_structure, truncate_structure.
Qed.

Lemma truncate_all_tables_structure :
  keeps (λ w, structure (db w)) anything truncate_all_tables.
Proof.
  unfold truncate_all_tables, conn_fetch_pg_tables, the_conn.
  keeps_auto; apply truncate_loop_structure.
Qed.

Lemma backup_data_structure : keeps (λ w, structure (db w)) anything backup_data.
Proof. unfold backup_data. autounfold with prog. keeps_auto. Qed.

Lemma create_admin_user_structure :
  keeps (λ w, structure (db w)) anything create_admin_user.
Proof.
  unfold create_admin_user, import_generate_password_hash, conn_insert_usuarios.
  keeps_auto. intros w. apply conn_execute_structure.
  intros d d'. apply insert_usuarios_structure.
Qed.

(** X10.  Truncate-all, and with it both workflows, leave the structure of
    the database as it was, whether they return or raise: the same tables
    exist, each with the columns and foreign keys it had. *)
Theorem truncation_keeps_the_structure w :
  structure (db (world_of (truncate_all_tables w))) = structure (db w)
  ∧ ∀ wf, structure (db (world_of (workflow wf w))) = structure (db w).
Proof.
  split; [apply truncate_all_tables_structure|].
  intros wf.
  assert (keeps (λ w, structure (db w)) anything (workflow wf)) as H; [|apply H].
  destruct wf; unfold workflow, reset_complete, reset_data_only; keeps_auto;
    auto using backup_data_structure, truncate_all_tables_structure,
      create_admin_user_structure.
Qed.

(** ** When the seed is carried out *)

Section UsesUp.

Lemma uses_up_ret {A} (a : A) : uses_up (ret a).
Proof. intros w. by exists 0. Qed.

Lemma uses_up_raise {A} (e : Exn) : uses_up (@raise A e).
Proof. intros w. by exists 0. Qed.

Lemma uses_up_get {A} (f : World → A) : uses_up (get f).
Proof. intros w. by exists 0. Qed.

Lemma uses_up_emit (e : Event) : uses_up (emit e).
Proof. intros w. by exists 0. Qed.

Lemma uses_up_modify (f : World → World) :
  (∀ w, faults (f w) = faults w) → uses_up (modify f).
Proof. intros Hf w. exists 0. cbn. apply Hf. Qed.

Lemma uses_up_next_fault : uses_up next_fault.
Proof. intros w. exists 1. cbn. by destruct (faults w). Qed.

Lemma uses_up_bind {A B} (m : M A) (f : A → M B) :
  uses_up m → (∀ a, uses_up (f a)) → uses_up (bind m f).
Proof.
  intros Hm Hf w. unfold bind. destruct (Hm w) as [k Hk].
  destruct (m w) as [[[a|e] w1] o1]; cbn in Hk |- *; [|by exists k].
  destruct (Hf a w1) as [k' Hk']. destruct (f a w1) as [[r w2] o2]. cbn in Hk' |- *.
  exists (k + k'). by rewrite Hk', Hk, drop_drop.
Qed.

Lemma uses_up_try_except {A} (m : M A) (h : Exn → M A) :
  uses_up m → (∀ e, uses_up (h e)) → uses_up (try_except m h).
Proof.
  intros Hm Hh w. unfold try_except. destruct (Hm w) as [k Hk].
  destruct (m w) as [[[a|e] w1] o1]; cbn in Hk |- *; [by exists k|].
  destruct (Hh e w1) as [k' Hk']. destruct (h e w1) as [[r w2] o2]. cbn in Hk' |- *.
  exists (k + k'). by rewrite Hk', Hk, drop_drop.
Qed.

End UsesUp.

Ltac uses_up_step :=
  lazymatch goal with
  | |- uses_up (bind _ _) => apply uses_up_bind; [|intros ?]
  | |- uses_up (try_except _ _) => apply uses_up_try_except; [|intros ?]
  | |- uses_up (ret _) => apply uses_up_ret
  | |- uses_up (raise _) => apply uses_up_raise
  | |- uses_up (get _) => apply uses_up_get
  | |- uses_up (print _) => apply uses_up_emit
  | |- uses_up (emit _) => apply uses_up_emit
  | |- uses_up (modify _) => apply uses_up_modify; intros ?; reflexivity
  | |- uses_up next_fault => apply uses_up_next_fault
  | |- uses_up (if ?b then _ else _) => destruct b
  | |- uses_up (match ?x with _ => _ end) => destruct x
  end.

Lemma uses_up_calm {A} (m : M A) w : uses_up m → calm w → calm (world_of (m w)).
Proof.
  intros Hm Hf. destruct (Hm w) as [k Hk]. unfold calm in *. rewrite Hk.
  by apply Forall_drop.
Qed.

Lemma backup_data_uses_up : uses_up backup_data.
Proof. unfold backup_data. autounfold with prog. repeat uses_up_step. Qed.

Lemma truncate_loop_uses_up l : uses_up (truncate_loop l).
Proof.
  induction l as [|t l IH]; cbn [truncate_loop]; autounfold with prog;
    repeat uses_up_step; exact IH.
Qed.

Lemma truncate_all_tables_uses_up : uses_up truncate_all_tables.
Proof.
  unfold truncate_all_tables. autounfold with prog. repeat uses_up_step;
    apply truncate_loop_uses_up.
Qed.

Lemma seed_columns_of_row u h : (admin_row u h).*1 = seed_columns.
Proof. reflexivity. Qed.

(** The seed INSERT is carried out exactly when there is a connection, the
    driver does not fail, werkzeug can be imported and [usuarios] is there
    with every column the INSERT names. *)
Lemma create_admin_user_seeds w :
  existsb is_seeded (log_of (create_admin_user w)) = true ↔
  self_conn w = true ∧ hd None (faults w) = None
  ∧ is_Some (werkzeug (host w))
  ∧ ∃ t, db w !! "usuarios" = Some t ∧ seed_columns ⊆ columns t.
Proof.
  unfold create_admin_user, try_except, bind, print, emit, ret, get, raise,
    import_generate_password_hash, conn_insert_usuarios.
  cbn. destruct (werkzeug (host w)) as [h|] eqn:Hh; cbn;
    [|split; [done|by intros (_ & _ & [? ?] & _)]].
  rewrite conn_execute_run.
  destruct (self_conn w); [|split; [done|by intros [? _]]].
  destruct (hd None (faults w)); [split; [done|by intros (_ & ? & _)]|].
  unfold Pg.insert_usuarios. rewrite seed_columns_of_row.
  destruct (db w !! "usuarios") as [t|]; [|split; [done|by intros (_ & _ & _ & ? & ? & _)]].
  destruct (forallb _ _) eqn:Hcols; cbn.
  - split; [intros _|done]. split_and!; [done|done|by eexists|].
    exists t. split; [done|]. intros c Hc%list_elem_of_In.
    rewrite forallb_forall in Hcols. specialize (Hcols c Hc).
    by apply bool_decide_eq_true in Hcols.
  - split; [done|]. intros (_ & _ & _ & t' & [= <-] & Hsub).
    assert (forallb (λ c, bool_decide (c ∈ columns t)) seed_columns = true) as H;
      [|congruence].
    apply forallb_forall. intros c Hc%list_elem_of_In.
    apply bool_decide_eq_true. by apply Hsub.
Qed.

Lemma executed_true_is_sql q o :
  In (EvExecute q true) (List.filter is_sql o) ↔ In (EvExecute q true) o.
Proof. rewrite filter_In. cbn. tauto. Qed.

Lemma carried_out_elem q o : q ∈ carried_out o ↔ In (EvExecute q true) o.
Proof.
  unfold carried_out. rewrite list_elem_of_omap. split.
  - intros (e & He%list_elem_of_In & Hq).
    destruct e as [| | | | |q' [|]|]; try done. by injection Hq as ->.
  - intros H%list_elem_of_In. by exists (EvExecute q true).
Qed.

Lemma usuarios_is_a_target d :
  is_Some (d !! "usuarios") → "usuarios" ∈ truncate_targets d.
Proof.
  intros Hu. unfold truncate_targets. apply list_elem_of_fmap. exists (Some "usuarios").
  split; [done|]. apply list_elem_of_In, filter_In. split; [|done].
  apply list_elem_of_In, without_migrations_elem. split; [|done].
  apply pg_tables_elem. by exists "usuarios".
Qed.

(** With a connection, no fault, werkzeug and a [usuarios] table that has
    the columns of the INSERT, a workflow returns, having truncated
    [usuarios] and carried out the seed. *)
Lemma workflow_seeds wf w t :
  self_conn w = true → calm w → is_Some (werkzeug (host w)) →
  db w !! "usuarios" = Some t → seed_columns ⊆ columns t →
  result_of (workflow wf w) = Ok tt
  ∧ usuarios_truncated (log_of (workflow wf w))
  ∧ existsb is_seeded (log_of (workflow wf w)) = true.
Proof.
  intros Hc Hf Hlib Hu Hcols.
  pose proof (workflow_steps wf w) as H. cbn zeta in H.
  pose proof (backup_data_frame w) as [[= Hdb Hh] _].
  pose proof (backup_data_work w) as [Hcb _].
  pose proof (uses_up_calm backup_data w backup_data_uses_up Hf) as Hfb.
  set (wb := world_of (backup_data w)) in *.
  pose proof (truncate_all_tables_frame wb) as [Hht _].
  pose proof (truncate_all_tables_work wb) as [Hct _].
  pose proof (truncate_all_tables_structure wb) as [Hst _].
  pose proof (uses_up_calm truncate_all_tables wb truncate_all_tables_uses_up Hfb) as Hft.
  pose proof (truncate_all_tables_succeeds wb ltac:(congruence) Hfb) as Hrt.
  pose proof (truncate_all_tables_carried_out wb) as (_ & _ & Hcar & _).
  cbn zeta in Hcar.
  specialize (Hcar ltac:(congruence) (calm_now _ Hfb)).
  apply Hcar in Hrt as Hall.
  set (wt := world_of (truncate_all_tables wb)) in *.
  assert (∃ t', db wt !! "usuarios" = Some t' ∧ columns t' = columns t) as (t' & Hu' & Hc').
  { apply (f_equal (λ m, m !! "usuarios")) in Hst. unfold structure in Hst.
    rewrite !lookup_fmap, Hdb, Hu in Hst. cbn in Hst.
    destruct (db wt !! "usuarios") as [t'|]; [|done]. injection Hst as Hcs _.
    by exists t'. }
  assert (existsb is_seeded (log_of (create_admin_user wt)) = true) as Hseed.
  { apply create_admin_user_seeds. split_and!; [congruence|by apply calm_now|congruence|].
    exists t'. by rewrite Hc'. }
  rewrite Hrt in H. destruct H as (Hr & _ & Hl). split_and!; [done| |].
  - unfold usuarios_truncated. apply executed_true_is_sql. rewrite Hl.
    apply executed_true_is_sql. rewrite !in_app_iff. right. left.
    apply carried_out_elem. rewrite Hall. apply list_elem_of_fmap.
    exists "usuarios". split; [done|]. apply usuarios_is_a_target.
    rewrite Hdb, Hu. by eexists.
  - rewrite <- seeded_is_sql, Hl, seeded_is_sql, !existsb_app, Hseed.
    by rewrite !orb_true_r.
Qed.

(** On the sample database both hold; with the [usuarios] table of
    [create_tables] the seed is refused for its column [nivel]. *)
Example seed_on_the_sample_databases :
  existsb is_seeded (log_of (workflow Data (sample_connected [] [] backend_db))) = true
  ∧ printed (MsgAdminError (DriverError (Pg.undefined_column "nivel" "usuarios")))
      (log_of (workflow Data
                 (sample_connected [] [] (<["usuarios" := usuarios_create_tables]> ∅)))).
Proof. split; [vm_compute; reflexivity|]. unfold printed. vm_compute. tauto. Qed.

(** ** What CASCADE reaches *)

(** With a foreign key to a truncated table, CASCADE empties the migration
    table as well. *)
Example cascade_reaches_referencing_tables :
  rows <$> db (world_of (truncate_all_tables
                 (sample_connected [] []
                    (<["alembic_version" :=
                         {| columns := ["version_num"; "usuario_id"];
                            references := ["usuarios"];
                            rows := [[("version_num", VStr "3f2a9c1d7b10")]] |}]>
                       backend_db)))) !! "alembic_version"
  = Some [].
Proof. vm_compute. reflexivity. Qed.

(** ** The identifier test (lines 121 and 157) *)

Lemma ident_rest_words s :
  Str.ident_rest s = true
  ↔ ∃ body, (s = body ∨ s = body +:+ newline)
            ∧ forallb Str.is_word (chars body) = true.
Proof.
  induction s as [|c s IH]; cbn [Str.ident_rest].
  - split; [|done]. intros _. exists "". by split; [left|].
  - destruct (Str.is_word c) eqn:Hc.
    + rewrite IH. split.
      * intros (body & Hs & Hb). exists (String c body). cbn. rewrite Hc, Hb.
        split; [|done]. destruct Hs as [->| ->]; [by left|by right].
      * intros ([|c' body] & Hs & Hb).
        -- destruct Hs as [|Hs]; [done|]. injection Hs as -> ->. done.
        -- cbn in Hb. apply andb_true_iff in Hb as [_ Hb]. exists body.
           split; [|done]. destruct Hs as [Hs|Hs]; injection Hs as _ ->; [by left|by right].
    + split.
      * intros [Hn%N.eqb_eq ->%String.eqb_eq]%andb_true_iff.
        exists "". split; [|done]. right. cbn. f_equal.
        unfold Str.code in Hn. by rewrite <- (ascii_N_embedding c), Hn.
      * intros ([|c' body] & Hs & Hb).
        -- destruct Hs as [|Hs]; [done|]. by injection Hs as -> ->.
        -- cbn in Hb. apply andb_true_iff in Hb as [Hc' _].
           destruct Hs as [Hs|Hs]; injection Hs as -> _; congruence.
Qed.

(** X12.  What the identifier test lets through: exactly the names made
    of a letter or underscore followed by letters, digits and underscores,
    with or without one newline at the very end (Python's [$]).  Such a
    name holds no double quote, so it cannot end the quoted identifier it
    is put into. *)
Theorem identifier_test_characterised s :
  (Str.re_match_identifier s = true
   ↔ ∃ c body, (s = String c body ∨ s = String c body +:+ newline)
               ∧ Str.is_alpha_ c = true
               ∧ forallb Str.is_word (chars body) = true)
  ∧ (Str.re_match_identifier s = true → double_quote ∉ chars s).
Proof.
  assert (Str.re_match_identifier s = true
          ↔ ∃ c body, (s = String c body ∨ s = String c body +:+ newline)
                      ∧ Str.is_alpha_ c = true
                      ∧ forallb Str.is_word (chars body) = true) as Hiff.
  { destruct s as [|c s]; cbn [Str.re_match_identifier].
    - split; [done|]. intros (c & body & [Hs|Hs] & _); discriminate Hs.
    - rewrite andb_true_iff, ident_rest_words. split.
      + intros (Hc & body & Hs & Hb). exists c, body.
        split; [|done]. destruct Hs as [->| ->]; [by left|by right].
      + intros (c' & body & Hs & Hc & Hb).
        destruct Hs as [Hs|Hs]; injection Hs as -> ->;
          (split; [done|]); exists body; (split; [|done]); [by left|by right]. }
  split; [exact Hiff|].
  intros (c & body & Hs & Hc & Hb)%Hiff.
  assert (double_quote ∉ chars (String c body)) as Hq.
  { cbn. intros [Heq|Hin]%elem_of_cons; [by subst c|].
    rewrite forallb_forall in Hb. by specialize (Hb _ (proj1 (list_elem_of_In _ _) Hin)). }
  destruct Hs as [->| ->]; [done|].
  rewrite append_cons. cbn. intros [Heq|Hin]%elem_of_cons; [by subst c|].
  apply Hq. right. clear -Hin. induction body as [|b body IH].
  - cbn in Hin. by apply list_elem_of_singleton in Hin.
  - rewrite append_cons in Hin. cbn in Hin |- *.
    apply elem_of_cons in Hin as [Heq|Hin]; [subst b; by left|right; by apply IH].
Qed.

(** ** The backup only reads ([backup_data], lines 71-101) *)

(** X13.  [backup_data] gives nothing to [conn.execute].  With a
    connection it asks for the four tables in the order usuarios, produtos,
    clientes, vendas and stops at the first fetch that fails: the fetches
    before it came back, the failed one is the last query, no table after
    it is asked for, and the answer is the empty mapping exactly when a
    fetch failed; each query uses up one outcome of the driver.  Without a
    connection it asks for nothing. *)
Theorem backup_reads_in_order_and_stops w :
  executed (log_of (backup_data w)) = []
  ∧ (self_conn w = false →
     queries (log_of (backup_data w)) = [] ∧ result_of (backup_data w) = Ok ∅)
  ∧ (self_conn w = true →
     fetched (log_of (backup_data w))
     = take (fetches_before_failure (faults w) (db w) backup_tables) backup_tables
     ∧ queries (log_of (backup_data w))
       = SelectAll
           <$> take (S (fetches_before_failure (faults w) (db w) backup_tables))
                    backup_tables
     ∧ (fetches_before_failure (faults w) (db w) backup_tables < 4 ↔
        result_of (backup_data w) = Ok ∅)
     ∧ faults (world_of (backup_data w))
       = drop (4 `min` S (fetches_before_failure (faults w) (db w) backup_tables))
              (faults w)).
Proof.
  unfold backup_data, try_except, bind, print, emit, ret, backup_tables. cbn.
  rewrite conn_fetch_all_run.
  destruct (self_conn w) eqn:Hc; [|by split_and!].
  split_and!; [|done|intros _].
  - destruct (hd None (faults w)); [done|].
    destruct (db w !! "usuarios") as [t1|]; [|done].
    cbn. rewrite conn_fetch_all_run. cbn. rewrite Hc.
    destruct (hd None (tail (faults w))); [done|].
    destruct (db w !! "produtos") as [t2|]; [|done].
    cbn. rewrite conn_fetch_all_run. cbn. rewrite Hc.
    destruct (hd None (tail (tail (faults w)))); [done|].
    destruct (db w !! "clientes") as [t3|]; [|done].
    cbn. rewrite conn_fetch_all_run. cbn. rewrite Hc.
    destruct (hd None (tail (tail (tail (faults w))))); [done|].
    by destruct (db w !! "vendas") as [t4|].
  - unfold after_call. cbn.
    destruct (db w !! "usuarios") as [t1|] eqn:H1,
      (db w !! "produtos") as [t2|] eqn:H2,
      (db w !! "clientes") as [t3|] eqn:H3,
      (db w !! "vendas") as [t4|] eqn:H4;
      destruct (faults w) as [|[m1|] [|[m2|] [|[m3|] [|[m4|] fs]]]];
      cbn; rewrite ?conn_fetch_all_run; cbn; rewrite ?Hc, ?H1, ?H2, ?H3, ?H4; cbn;
      rewrite ?conn_fetch_all_run; cbn; rewrite ?Hc, ?H1, ?H2, ?H3, ?H4; cbn;
      rewrite ?conn_fetch_all_run; cbn; rewrite ?Hc, ?H1, ?H2, ?H3, ?H4; cbn;
      split_and!.
    all: try done.
    all: try (split; [intros ?; first [done|lia]|]).
    all: try (intros _; lia).
    all: intros H;
      apply (f_equal (λ r, match r with Ok m => m !! "vendas" | Raise _ => None end)) in H;
      by rewrite lookup_insert_eq, lookup_empty in H.
Qed.

(** [usuarios] comes back, [produtos] is not there: two queries, the
    second refused, and nothing is asked of [clientes] and [vendas]. *)
Example backup_stops_at_the_missing_table :
  log_of (backup_data (sample_connected [] [] (<["usuarios" := usuarios_backend]> ∅)))
  = [EvPrint MsgBackupStart;
     EvFetch (SelectAll "usuarios") true;
     EvPrint (MsgBackupSaved "usuarios" 2);
     EvFetch (SelectAll "produtos") false;
     EvPrint (MsgBackupError (DriverError (Pg.undefined_table "produtos")))].
Proof. vm_compute. reflexivity. Qed.

(** ** A truncate that fails *)

Lemma truncate_loop_failure l w :
  existsb is_failed_truncate (log_of (truncate_loop l w)) = true →
  ∃ e, result_of (truncate_loop l w) = Raise e.
Proof.
  revert w. induction l as [|t l IH]; intros w; cbn [truncate_loop]; [done|].
  destruct (safe_name t); cbn [negb]; [|apply IH].
  unfold bind, conn_truncate. rewrite conn_execute_run.
  destruct (self_conn w); [|done].
  destruct (hd None (faults w)); [by eexists|].
  destruct (Pg.truncate (or_empty t) (db w)) as [d'|]; [|by eexists].
  cbn. specialize (IH (set_db d' (after_call w))).
  by destruct (truncate_loop l (set_db d' (after_call w))) as [[r w'] o].
Qed.

Lemma truncate_all_tables_failure w :
  existsb is_failed_truncate (log_of (truncate_all_tables w)) = true →
  ∃ e, result_of (truncate_all_tables w) = Raise e.
Proof.
  unfold truncate_all_tables, try_except, bind, print, emit, raise. cbn.
  rewrite conn_fetch_pg_tables_run.
  destruct (self_conn w); [|done].
  destruct (hd None (faults w)); [done|]. cbn.
  destruct (Pg.pg_tables (db w)) as [|t0 l0]; [done|].
  pose proof (truncate_loop_failure (without_migrations (t0 :: l0)) (after_call w))
    as Hl.
  destruct (truncate_loop _ (after_call w)) as [[[[]|e] w'] o]; cbn in Hl |- *.
  - rewrite existsb_app. cbn. rewrite orb_false_r. intros [e He]%Hl. done.
  - intros _. by eexists.
Qed.

Lemma backup_data_no_execute :
  keeps (λ _, tt) (λ e, not_insert e && not_truncate_failure e) backup_data.
Proof. unfold backup_data. autounfold with prog. keeps_auto. Qed.

Lemma truncate_loop_no_insert l : keeps (λ _, tt) not_insert (truncate_loop l).
Proof.
  induction l as [|t l IH]; cbn [truncate_loop]; autounfold with prog;
    keeps_auto; exact IH.
Qed.

Lemma truncate_all_tables_no_insert : keeps (λ _, tt) not_insert truncate_all_tables.
Proof.
  unfold truncate_all_tables. autounfold with prog. keeps_auto;
    apply truncate_loop_no_insert.
Qed.

Lemma create_admin_user_no_truncate :
  keeps (λ _, tt) not_truncate_failure create_admin_user.
Proof. unfold create_admin_user. autounfold with prog. keeps_auto. Qed.

Lemma existsb_filter_sql (p : Event → bool) o :
  (∀ e, p e = true → is_sql e = true) →
  existsb p (List.filter is_sql o) = existsb p o.
Proof.
  intros Hp. induction o as [|e o IH]; [done|]. cbn.
  destruct (is_sql e) eqn:He; cbn; rewrite IH; [done|].
  destruct (p e) eqn:Hpe; [|done]. apply Hp in Hpe. congruence.
Qed.

Lemma forallb_negb_existsb (p : Event → bool) o :
  forallb (λ e, negb (p e)) o = true → existsb p o = false.
Proof.
  induction o as [|e o IH]; [done|]. cbn.
  intros [He Ho]%andb_true_iff. rewrite (IH Ho). by destruct (p e).
Qed.

(** X14.  A TRUNCATE that fails ends the workflow there: the workflow
    raises, and the seed INSERT is not sent. *)
Theorem failed_truncate_ends_the_workflow wf w :
  existsb is_failed_truncate (log_of (workflow wf w)) = true →
  (∃ e, result_of (workflow wf w) = Raise e)
  ∧ existsb is_insert (log_of (workflow wf w)) = false.
Proof.
  intros Hf.
  pose proof (workflow_steps wf w) as H. cbn zeta in H.
  pose proof (backup_data_no_execute w) as [_ Hb].
  pose proof (truncate_all_tables_no_insert (world_of (backup_data w))) as [_ Ht].
  pose proof (truncate_all_tables_failure (world_of (backup_data w))) as Htf.
  pose proof (create_admin_user_no_truncate
                (world_of (truncate_all_tables (world_of (backup_data w)))))
    as [_ Ha].
  assert (existsb is_failed_truncate (log_of (backup_data w)) = false
          ∧ existsb is_insert (log_of (backup_data w)) = false) as [Hb1 Hb2].
  { split; apply forallb_negb_existsb; revert Hb; apply forallb_weaken;
      intros e [? ?]%andb_true_iff; done. }
  apply forallb_negb_existsb in Ht, Ha.
  rewrite <- (existsb_filter_sql is_failed_truncate) in Hf by (by intros [| | | |[]|[]|]).
  rewrite <- (existsb_filter_sql is_insert) by (by intros [| | | |[]|[]|]).
  destruct (result_of (truncate_all_tables (world_of (backup_data w)))) as [[]|e]
    eqn:Hr; destruct H as (Hres & _ & Hl); rewrite Hl in *;
    rewrite existsb_filter_sql, ?existsb_app in *
      by (by intros [| | | |[]|[]|]).
  - rewrite Hb1, Ha, orb_false_r in Hf. cbn in Hf.
    destruct (Htf Hf) as [e He]. congruence.
  - split; [by exists e|]. by rewrite Hb2, Ht.
Qed.

Lemma failed_truncate_ends_the_workflow_witness :
  (∃ e, result_of (workflow Data
                     (sample_connected [] [None; None; None; None; None; Some "deadlock detected"]
                        backend_db)) = Raise e)
  ∧ existsb is_insert
      (log_of (workflow Data
                 (sample_connected [] [None; None; None; None; None; Some "deadlock detected"]
                    backend_db))) = false.
Proof.
  apply (failed_truncate_ends_the_workflow Data
           (sample_connected [] [None; None; None; None; None; Some "deadlock detected"]
              backend_db)).
  vm_compute. reflexivity.
Defined.

#[local] Arguments rresult {A} !x /.
#[local] Arguments rworld {A} !x /.
#[local] Arguments rlog {A} !x /.
#[local] Arguments drop_all_tables : simpl never.
#[local] Arguments create_tables : simpl never.

Lemma ddl_execute_run q run w :
  ddl_execute q run w =
    if self_conn w then
      match hd None (faults w), run (db w) with
      | Some msg, _ => (Raise (DriverError msg), after_call w, [RbExecute q false])
      | None, inl failure =>
          (Raise (DriverError failure), after_call w, [RbExecute q false])
      | None, inr d' => (Ok tt, set_db d' (after_call w), [RbExecute q true])
      end
    else (Raise AttributeError, w, []).
Proof.
  unfold ddl_execute, rbind, lift, the_conn, bind, get, next_fault, raise, ret,
    after_call.
  destruct (self_conn w); cbn; [|done].
  destruct (hd None (faults w)); cbn; [done|].
  by destruct (run (db w)).
Qed.

Lemma rebuilt_app o1 o2 : rebuilt (o1 ++ o2) = rebuilt o1 ++ rebuilt o2.
Proof. apply omap_app. Qed.

Lemma rebuilt_shared o : rebuilt (Shared <$> o) = [].
Proof. induction o as [|e o IH]; [done|]. exact IH. Qed.

(** *** [drop_all_tables] *)

Lemma drop_lookup name d n :
  is_Some (Ddl.drop name d !! n) ↔ is_Some (d !! n) ∧ n ≠ name.
Proof.
  unfold Ddl.drop. rewrite lookup_fmap, fmap_is_Some.
  destruct (decide (n = name)) as [->|Hn].
  - rewrite lookup_delete_eq. split; [by intros [? ?]|by intros [_ ?]].
  - rewrite lookup_delete_ne by done. tauto.
Qed.

Lemma drop_loop_run l w :
  self_conn w = true →
  rresult (drop_loop l w) = Ok tt
  ∧ rebuilt (rlog (drop_loop l w))
    = DropTable <$> (or_empty <$> List.filter safe_name l).
Proof.
  revert w. induction l as [|t l IH]; intros w Hc; cbn [drop_loop List.filter]; [done|].
  destruct (safe_name t); cbn [negb]; [|by apply IH].
  unfold rbind, rtry_except, conn_drop, rprint. rewrite ddl_execute_run, Hc.
  destruct (hd None (faults w)); cbn.
  - specialize (IH (after_call w) Hc).
    destruct (drop_loop l (after_call w)) as [[r w'] o]. cbn in IH |- *.
    destruct IH as [-> IH]. split; [done|]. by rewrite IH.
  - specialize (IH (set_db (Ddl.drop (or_empty t) (db w)) (after_call w)) Hc).
    destruct (drop_loop l _) as [[r w'] o]. cbn in IH |- *.
    destruct IH as [-> IH]. split; [done|]. by rewrite IH.
Qed.

Lemma drop_loop_tables l w :
  self_conn w = true → calm w →
  ∀ n, is_Some (db (rworld (drop_loop l w)) !! n)
       ↔ is_Some (db w !! n) ∧ n ∉ (or_empty <$> List.filter safe_name l).
Proof.
  revert w. induction l as [|t l IH]; intros w Hc Hf n; cbn [drop_loop List.filter].
  - cbn. rewrite elem_of_nil. tauto.
  - destruct (safe_name t); cbn [negb]; [|by apply IH].
    unfold rbind, rtry_except, conn_drop, rprint.
    rewrite ddl_execute_run, Hc, (calm_now _ Hf). cbn.
    specialize (IH (set_db (Ddl.drop (or_empty t) (db w)) (after_call w)) Hc
                  (calm_after_call _ Hf) n).
    destruct (drop_loop l _) as [[r w'] o]. cbn in IH |- *.
    rewrite IH, drop_lookup, not_elem_of_cons. tauto.
Qed.

(** X15.  Once the catalog has come back, [drop_all_tables] gives a DROP
    to every catalog entry whose name passes the identifier test, in
    catalog order, the migration table among them, and returns: a DROP
    that fails is reported and the next one is sent all the same.  It
    raises only when the catalog cannot be fetched, and has then dropped
    nothing. *)
Theorem drop_all_tries_every_safe_name w :
  (self_conn w = true → hd None (faults w) = None →
   rresult (drop_all_tables w) = Ok tt
   ∧ rebuilt (rlog (drop_all_tables w))
     = DropTable <$> (or_empty <$> List.filter safe_name (Pg.pg_tables (db w))))
  ∧ (self_conn w = false ∨ hd None (faults w) ≠ None →
     (∃ e, rresult (drop_all_tables w) = Raise e)
     ∧ rebuilt (rlog (drop_all_tables w)) = []
     ∧ db (rworld (drop_all_tables w)) = db w).
Proof.
  unfold drop_all_tables, rbind, rtry_except, rprint, rraise, lift. cbn.
  rewrite conn_fetch_pg_tables_run. split.
  - intros Hc Hh. rewrite Hc, Hh. cbn.
    destruct (Pg.pg_tables (db w)) as [|t0 l0]; [done|].
    pose proof (drop_loop_run (t0 :: l0) (after_call w) Hc) as [Hr Hl].
    destruct (drop_loop (t0 :: l0) (after_call w)) as [[r w'] o].
    cbn in Hr |- *. subst r. cbn. split; [done|].
    unfold rebuilt in *. cbn in Hl |- *. rewrite omap_app, Hl. cbn.
    by rewrite app_nil_r.
  - intros [-> |Hf]; [by split; [eexists|]|].
    destruct (self_conn w); [|by split; [eexists|]].
    destruct (hd None (faults w)); [|done]. by split; [eexists|].
Qed.

(** X16.  With a connection and no fault, [drop_all_tables] leaves only
    tables that were there and whose names fail the identifier test:
    every table with a name that passes is gone, and none has appeared. *)
Theorem drop_all_leaves_only_unsafe_names w :
  self_conn w = true → calm w →
  ∀ n, (Str.re_match_identifier n = true →
        db (rworld (drop_all_tables w)) !! n = None)
       ∧ (is_Some (db (rworld (drop_all_tables w)) !! n) → is_Some (db w !! n)).
Proof.
  intros Hc Hf n.
  assert (is_Some (db (rworld (drop_all_tables w)) !! n)
          → is_Some (db w !! n) ∧ Str.re_match_identifier n = false) as H.
  { unfold drop_all_tables, rbind, rtry_except, rprint, rraise, lift. cbn.
    rewrite conn_fetch_pg_tables_run, Hc, (calm_now _ Hf). cbn.
    destruct (Pg.pg_tables (db w)) as [|t0 l0] eqn:Hp.
    - cbn. rewrite (pg_tables_nil _ Hp), lookup_empty. by intros [? ?].
    - remember (t0 :: l0) as l eqn:El.
      pose proof (drop_loop_tables l (after_call w) Hc (calm_after_call _ Hf) n) as Hl.
      destruct (drop_loop l (after_call w)) as [[[[]|e] w'] o];
        cbn in Hl |- *; rewrite Hl, <- Hp; clear Hl.
      all: intros [Hd Hn]; (split; [done|]).
      all: destruct (Str.re_match_identifier n) eqn:Hm; [|done]; destruct Hn;
        apply list_elem_of_fmap; exists (Some n);
        assert (safe_name (Some n) = true) as Hs
          by (unfold safe_name, or_empty; cbn; by destruct n);
        (split; [by rewrite or_empty_safe|]);
        apply list_elem_of_In, filter_In; (split; [|done]);
        apply list_elem_of_In, pg_tables_elem; by exists n. }
  split; [|by intros [? _]%H].
  intros Hm. destruct (db (rworld (drop_all_tables w)) !! n) as [t|] eqn:Hd; [|done].
  destruct H as [_ H]; [by eexists|]. congruence.
Qed.

Lemma drop_all_leaves_only_unsafe_names_witness :
  (Str.re_match_identifier "usuarios" = true →
   db (rworld (drop_all_tables (sample_connected [] [] catalog_with_unsafe_name)))
     !! "usuarios" = None)
  ∧ (is_Some (db (rworld (drop_all_tables
                            (sample_connected [] [] catalog_with_unsafe_name)))
              !! "usuarios")
     → is_Some (catalog_with_unsafe_name !! "usuarios")).
Proof.
  apply (drop_all_leaves_only_unsafe_names
           (sample_connected [] [] catalog_with_unsafe_name)).
  - reflexivity.
  - constructor.
Defined.

(** The migration table is dropped with the rest; the table with the
    unsafe name stays. *)
Example drop_all_on_catalog_with_unsafe_name :
  rebuilt (rlog (drop_all_tables (sample_connected [] [] catalog_with_unsafe_name)))
  = [DropTable "usuarios"; DropTable "alembic_version"]
  ∧ db (rworld (drop_all_tables (sample_connected [] [] catalog_with_unsafe_name)))
    = <["my-table" := produtos_sample]> ∅.
Proof. split; by vm_compute. Qed.

(** A DROP that fails does not stop the next one. *)
Example drop_all_goes_on_after_a_failure :
  rresult (drop_all_tables
             (sample_connected [] [None; Some "lock timeout"] backend_db)) = Ok tt
  ∧ rebuilt (rlog (drop_all_tables
                     (sample_connected [] [None; Some "lock timeout"] backend_db)))
    = [DropTable "clientes"; DropTable "usuarios"; DropTable "alembic_version";
       DropTable "vendas"; DropTable "produtos"]
  ∧ dom (db (rworld (drop_all_tables
                       (sample_connected [] [None; Some "lock timeout"] backend_db))))
    = {["clientes"]}.
Proof. split_and!; by vm_compute. Qed.

(** *** [create_tables] *)

#[local] Arguments ddl_execute : simpl never.

Lemma create_accepted n cols refs d :
  d !! n = None → Forall (λ r, is_Some (d !! r)) refs →
  Ddl.create n cols refs d
  = inr (<[n := {| columns := cols; references := refs; rows := [] |}]> d).
Proof.
  intros Hn Hr. unfold Ddl.create. rewrite Hn.
  assert (List.find (λ r, negb (bool_decide (is_Some (d !! r)))) refs = None) as ->;
    [|done].
  induction Hr as [|r refs Hr _ IH]; [done|]. cbn.
  by rewrite bool_decide_eq_true_2.
Qed.

Lemma create_refused n cols refs d : is_Some (d !! n) → ∃ msg, Ddl.create n cols refs d = inl msg.
Proof. intros [t Ht]. unfold Ddl.create. rewrite Ht. by eexists. Qed.

Lemma create_inr n cols refs d d' :
  Ddl.create n cols refs d = inr d' →
  d !! n = None
  ∧ d' = <[n := {| columns := cols; references := refs; rows := [] |}]> d.
Proof.
  unfold Ddl.create. destruct (d !! n); [done|].
  destruct (List.find _ _); [done|]. by intros [= <-].
Qed.

Lemma ddl_execute_accepted q run w d' :
  self_conn w = true → calm w → run (db w) = inr d' →
  ddl_execute q run w = (Ok tt, set_db d' (after_call w), [RbExecute q true]).
Proof. intros Hc Hf Hr. by rewrite ddl_execute_run, Hc, (calm_now _ Hf), Hr. Qed.

Lemma Forall_tail_keeps {A} (P : A → Prop) (l : list A) :
  Forall P l → Forall P (tail l).
Proof. intros H. destruct H; [done|]. done. Qed.

Ltac still_calm :=
  unfold calm in *; cbn; repeat apply Forall_tail_keeps; assumption.

Lemma create_tables_run w :
  self_conn w = true → calm w →
  (∀ n, n ∈ fresh_names → db w !! n = None) →
  rresult (create_tables w) = Ok tt
  ∧ db (rworld (create_tables w)) = list_to_map fresh_schema ∪ db w
  ∧ rebuilt (rlog (create_tables w))
    = (λ nt : string * Table, CreateTable nt.1 (columns nt.2) (references nt.2))
        <$> fresh_schema.
Proof.
  intros Hc Hf Hn.
  assert (∀ n, n ∈ fresh_names → db w !! n = None) as Hn' by done.
  unfold fresh_names in Hn'. cbn in Hn'.
  unfold create_tables, rbind, rtry_except, rprint, conn_create.
  cbv beta iota.
  rewrite (ddl_execute_accepted _ _ w
             (<["usuarios" := {| columns := usuarios_columns; references := [];
                                 rows := [] |}]> (db w)) Hc Hf)
    by (apply create_accepted; [apply Hn'; set_solver|done]).
  cbv beta iota.
  match goal with
  | |- context [ddl_execute ?q ?run ?w1] =>
      rewrite (ddl_execute_accepted q run w1
                 (<["produtos" := {| columns := produtos_columns; references := [];
                                     rows := [] |}]> (db w1)) Hc)
        by first [still_calm|apply create_accepted;
            [cbn; rewrite lookup_insert_ne by done; apply Hn'; set_solver|done]]
  end.
  cbv beta iota.
  match goal with
  | |- context [ddl_execute ?q ?run ?w1] =>
      rewrite (ddl_execute_accepted q run w1
                 (<["clientes" := {| columns := clientes_columns; references := [];
                                     rows := [] |}]> (db w1)) Hc)
        by first [still_calm|apply create_accepted;
            [cbn; rewrite !lookup_insert_ne by done; apply Hn'; set_solver|done]]
  end.
  cbv beta iota.
  match goal with
  | |- context [ddl_execute ?q ?run ?w1] =>
      rewrite (ddl_execute_accepted q run w1
                 (<["vendas" := {| columns := vendas_columns; references := ["usuarios"];
                                   rows := [] |}]> (db w1)) Hc)
        by first [still_calm|apply create_accepted;
            [cbn; rewrite !lookup_insert_ne by done; apply Hn'; set_solver
            |cbn; repeat constructor; rewrite !lookup_insert_ne by done;
             by rewrite lookup_insert_eq]]
  end.
  cbv beta iota.
  match goal with
  | |- context [ddl_execute ?q ?run ?w1] =>
      rewrite (ddl_execute_accepted q run w1
                 (<["itens_venda" := {| columns := itens_venda_columns;
                                        references := ["vendas"]; rows := [] |}]> (db w1)) Hc)
        by first [still_calm|apply create_accepted;
            [cbn; rewrite !lookup_insert_ne by done; apply Hn'; set_solver
            |cbn; repeat constructor; by rewrite lookup_insert_eq]]
  end.
  cbn. split; [done|]. split; [|done].
  apply map_eq. intros n. rewrite lookup_union, !lookup_insert, lookup_empty.
  repeat case_decide; simplify_eq; try done.
  all: by match goal with |- context [_ ∪ ?o] => destruct o end.
Qed.

(** X17.  With a connection, no fault and none of its five tables there
    yet, [create_tables] returns, having sent its five CREATE TABLE
    statements in the order usuarios, produtos, clientes, vendas,
    itens_venda, which is an order in which every foreign key finds its
    table; the five tables are then there, empty, with the columns and
    foreign keys of the statements, and the other tables are untouched. *)
Theorem create_tables_builds_the_five_tables w :
  self_conn w = true → calm w →
  (∀ n, n ∈ fresh_names → db w !! n = None) →
  rresult (create_tables w) = Ok tt
  ∧ db (rworld (create_tables w)) = list_to_map fresh_schema ∪ db w
  ∧ rebuilt (rlog (create_tables w))
    = (λ nt : string * Table, CreateTable nt.1 (columns nt.2) (references nt.2))
        <$> fresh_schema
  ∧ ∀ n t, (n, t) ∈ fresh_schema → db (rworld (create_tables w)) !! n = Some t.
Proof.
  intros Hc Hf Hn.
  destruct (create_tables_run w Hc Hf Hn) as (Hr & Hd & Hl).
  split_and!; [done..|].
  intros n t Hin. rewrite Hd. apply lookup_union_Some_l.
  apply elem_of_list_to_map_1; [|done].
  apply NoDup_ListNoDup. cbn. repeat (constructor; [cbn; intuition discriminate|]).
  constructor.
Qed.

Lemma create_tables_builds_the_five_tables_witness :
  rresult (create_tables (sample_connected [] [] unsafe_only_db)) = Ok tt
  ∧ db (rworld (create_tables (sample_connected [] [] unsafe_only_db)))
    = list_to_map fresh_schema ∪ unsafe_only_db
  ∧ rebuilt (rlog (create_tables (sample_connected [] [] unsafe_only_db)))
    = (λ nt : string * Table, CreateTable nt.1 (columns nt.2) (references nt.2))
        <$> fresh_schema
  ∧ ∀ n t, (n, t) ∈ fresh_schema →
           db (rworld (create_tables (sample_connected [] [] unsafe_only_db)))
             !! n = Some t.
Proof.
  apply (create_tables_builds_the_five_tables
           (sample_connected [] [] unsafe_only_db)).
  - reflexivity.
  - constructor.
  - intros n Hn. unfold fresh_names in Hn. cbn in Hn.
    rewrite !elem_of_cons, elem_of_nil in Hn.
    destruct Hn as [->|[->|[->|[->|[->|[]]]]]]; by vm_compute.
Defined.

Lemma create_tables_outcome w :
  (∃ e, rresult (create_tables w) = Raise e)
  ∨ (rresult (create_tables w) = Ok tt
     ∧ (∀ n, n ∈ fresh_names → db w !! n = None)
     ∧ db (rworld (create_tables w)) = list_to_map fresh_schema ∪ db w).
Proof.
  unfold create_tables, rbind, rtry_except, rprint, rraise, conn_create.
  cbv beta iota.
  rewrite ddl_execute_run.
  destruct (self_conn w) eqn:Hc; [|left; by eexists].
  destruct (hd None (faults w)) eqn:Hf0; [left; by eexists|].
  destruct (Ddl.create "usuarios" _ _ (db w)) as [?|d1] eqn:E1; [left; by eexists|].
  apply create_inr in E1 as [N1 ->]. cbn [set_db after_call db self_conn faults set_faults].
  cbv beta iota.
  rewrite ddl_execute_run. cbn [set_db after_call db self_conn faults set_faults].
  rewrite Hc.
  destruct (hd None (tail (faults w))) eqn:Hf1; [left; by eexists|].
  destruct (Ddl.create "produtos" _ _ _) as [?|d2] eqn:E2; [left; by eexists|].
  apply create_inr in E2 as [N2 ->]. cbv beta iota.
  rewrite ddl_execute_run. cbn [set_db after_call db self_conn faults set_faults].
  rewrite Hc.
  destruct (hd None (tail (tail (faults w)))) eqn:Hf2; [left; by eexists|].
  destruct (Ddl.create "clientes" _ _ _) as [?|d3] eqn:E3; [left; by eexists|].
  apply create_inr in E3 as [N3 ->]. cbv beta iota.
  rewrite ddl_execute_run. cbn [set_db after_call db self_conn faults set_faults].
  rewrite Hc.
  destruct (hd None (tail (tail (tail (faults w))))) eqn:Hf3; [left; by eexists|].
  destruct (Ddl.create "vendas" _ _ _) as [?|d4] eqn:E4; [left; by eexists|].
  apply create_inr in E4 as [N4 ->]. cbv beta iota.
  rewrite ddl_execute_run. cbn [set_db after_call db self_conn faults set_faults].
  rewrite Hc.
  destruct (hd None (tail (tail (tail (tail (faults w)))))) eqn:Hf4; [left; by eexists|].
  destruct (Ddl.create "itens_venda" _ _ _) as [?|d5] eqn:E5; [left; by eexists|].
  apply create_inr in E5 as [N5 ->]. cbv beta iota.
  right. cbn. split; [done|].
  rewrite !lookup_insert_ne in N2 by done. rewrite !lookup_insert_ne in N3 by done.
  rewrite !lookup_insert_ne in N4 by done. rewrite !lookup_insert_ne in N5 by done.
  split.
  - intros n Hn. unfold fresh_names in Hn. cbn in Hn.
    rewrite !elem_of_cons, elem_of_nil in Hn.
    by destruct Hn as [->|[->|[->|[->|[->|[]]]]]].
  - apply map_eq. intros n. rewrite lookup_union, !lookup_insert, lookup_empty.
    repeat case_decide; simplify_eq; try done.
    all: by match goal with |- context [_ ∪ ?o] => destruct o end.
Qed.

(** X18.  [create_tables] is not repeatable: where one of its five tables
    exists already it raises, and run twice in a row it raises at the
    second run if not at the first. *)
Theorem create_tables_refuses_existing_tables w :
  (∀ n, n ∈ fresh_names → is_Some (db w !! n) →
        ∃ e, rresult (create_tables w) = Raise e)
  ∧ ∃ e, rresult (rbind create_tables (λ _, create_tables) w) = Raise e.
Proof.
  split.
  - intros n Hn [t Ht].
    destruct (create_tables_outcome w) as [He|(_ & Hnone & _)]; [done|].
    rewrite (Hnone n Hn) in Ht. done.
  - unfold rbind.
    destruct (create_tables_outcome w) as [[e He]|(Hr & _ & Hd)].
    + destruct (create_tables w) as [[r w1] o1]. cbn in He. subst r. by exists e.
    + destruct (create_tables w) as [[r w1] o1] eqn:Hrun. cbn in Hr, Hd. subst r.
      destruct (create_tables_outcome w1) as [[e He]|(_ & Hnone & _)].
      * destruct (create_tables w1) as [[r w2] o2]. cbn in He |- *. subst r.
        by exists e.
      * specialize (Hnone "usuarios" ltac:(unfold fresh_names; cbn; set_solver)).
        rewrite Hd in Hnone. apply lookup_union_None_1 in Hnone as [Hnone _].
        by vm_compute in Hnone.
Qed.

(** *** Drop, rebuild, seed *)

Lemma drop_loop_keeps_going l w :
  self_conn w = true → calm w →
  self_conn (rworld (drop_loop l w)) = true ∧ calm (rworld (drop_loop l w)).
Proof.
  revert w. induction l as [|t l IH]; intros w Hc Hf; cbn [drop_loop]; [done|].
  destruct (safe_name t); cbn [negb]; [|by apply IH].
  unfold rbind, rtry_except, conn_drop, rprint.
  rewrite ddl_execute_run, Hc, (calm_now _ Hf). cbn.
  specialize (IH (set_db (Ddl.drop (or_empty t) (db w)) (after_call w)) Hc
                (calm_after_call _ Hf)).
  by destruct (drop_loop l _) as [[r w'] o].
Qed.

Lemma drop_all_tables_run w :
  self_conn w = true → calm w →
  rresult (drop_all_tables w) = Ok tt
  ∧ self_conn (rworld (drop_all_tables w)) = true
  ∧ calm (rworld (drop_all_tables w))
  ∧ ∀ n, is_Some (db (rworld (drop_all_tables w)) !! n)
         → is_Some (db w !! n) ∧ Str.re_match_identifier n = false.
Proof.
  intros Hc Hf.
  unfold drop_all_tables, rbind, rtry_except, rprint, rraise, lift. cbn.
  rewrite conn_fetch_pg_tables_run, Hc, (calm_now _ Hf). cbn.
  destruct (Pg.pg_tables (db w)) as [|t0 l0] eqn:Hp.
  - cbn. split_and!; [done|done|by apply calm_after_call|].
    intros n. rewrite (pg_tables_nil _ Hp), lookup_empty. by intros [? ?].
  - remember (t0 :: l0) as l eqn:El.
    pose proof (drop_loop_run l (after_call w) Hc) as [Hr _].
    pose proof (drop_loop_keeps_going l (after_call w) Hc (calm_after_call _ Hf))
      as [Hc' Hf'].
    pose proof (drop_loop_tables l (after_call w) Hc (calm_after_call _ Hf)) as Hl.
    destruct (drop_loop l (after_call w)) as [[r w'] o]. cbn in Hr, Hc', Hf', Hl |- *.
    subst r. cbn. split_and!; [done..|].
    intros n [Hd Hn]%Hl. split; [done|].
    destruct (Str.re_match_identifier n) eqn:Hm; [|done]. destruct Hn.
    apply list_elem_of_fmap. exists (Some n).
    assert (safe_name (Some n) = true) as Hs
      by (unfold safe_name, or_empty; cbn; by destruct n).
    split; [by rewrite or_empty_safe|].
    apply list_elem_of_In, filter_In. split; [|done].
    rewrite <- Hp. apply list_elem_of_In, pg_tables_elem. by exists n.
Qed.

(** X19.  Drop-all followed by [create_tables], on a database all of
    whose table names pass the identifier test, with a connection and no
    fault: both return, and the database is then exactly the five tables
    of [create_tables], empty. *)
Theorem drop_then_create_gives_the_fresh_schema w :
  self_conn w = true → calm w →
  (∀ n, is_Some (db w !! n) → Str.re_match_identifier n = true) →
  rresult (rbind drop_all_tables (λ _, create_tables) w) = Ok tt
  ∧ db (rworld (rbind drop_all_tables (λ _, create_tables) w))
    = list_to_map fresh_schema.
Proof.
  intros Hc Hf Hsafe. unfold rbind.
  destruct (drop_all_tables_run w Hc Hf) as (Hr & Hc1 & Hf1 & Hleft).
  destruct (drop_all_tables w) as [[r w1] o1]. cbn in Hr, Hc1, Hf1, Hleft. subst r.
  assert (db w1 = ∅) as Hempty.
  { apply map_eq. intros n. rewrite lookup_empty.
    destruct (db w1 !! n) as [t|] eqn:Hn; [|done].
    destruct (Hleft n) as [Hd Hm]; [by eexists|].
    rewrite (Hsafe n Hd) in Hm. done. }
  destruct (create_tables_run w1 Hc1 Hf1) as (Hr2 & Hd2 & _).
  { intros n _. by rewrite Hempty, lookup_empty. }
  destruct (create_tables w1) as [[r w2] o2]. cbn in Hr2, Hd2 |- *.
  split; [done|]. by rewrite Hd2, Hempty, (right_id ∅ (∪)).
Qed.

Lemma drop_then_create_gives_the_fresh_schema_witness :
  rresult (rbind drop_all_tables (λ _, create_tables)
             (sample_connected [] [] backend_db)) = Ok tt
  ∧ db (rworld (rbind drop_all_tables (λ _, create_tables)
                  (sample_connected [] [] backend_db)))
    = list_to_map fresh_schema.
Proof.
  apply (drop_then_create_gives_the_fresh_schema (sample_connected [] [] backend_db)).
  - reflexivity.
  - constructor.
  - intros n [t Ht]. unfold backend_db in Ht. cbn in Ht.
    rewrite !lookup_insert, lookup_empty in Ht.
    repeat case_decide; simplify_eq; by vm_compute.
Defined.

Lemma insert_needs_nivel r d t :
  d !! "usuarios" = Some t → "nivel" ∈ r.*1 → "nivel" ∉ columns t →
  Pg.insert_usuarios r d = None.
Proof.
  intros Ht Hin Hnot. unfold Pg.insert_usuarios. rewrite Ht.
  destruct (forallb _ _) eqn:Hall; [|done].
  rewrite forallb_forall in Hall.
  specialize (Hall "nivel" (proj1 (list_elem_of_In _ _) Hin)).
  by apply bool_decide_eq_true_1 in Hall.
Qed.

(** X20.  The seed does not fit the schema of [create_tables]: its INSERT
    names the column [nivel] (and [salario], [pode_...]), which the
    [usuarios] table of [create_tables] does not have.  On a [usuarios]
    table without [nivel] the seed is refused and reported, the table is
    as before; so after a [create_tables] that returned, the seed leaves
    [usuarios] empty. *)
Theorem seed_does_not_fit_create_tables w :
  (∀ t, db w !! "usuarios" = Some t → "nivel" ∉ columns t →
        result_of (create_admin_user w) = Ok tt
        ∧ existsb is_seeded (log_of (create_admin_user w)) = false
        ∧ db (world_of (create_admin_user w)) = db w)
  ∧ (rresult (create_tables w) = Ok tt →
     existsb is_seeded (log_of (create_admin_user (rworld (create_tables w)))) = false
     ∧ rows <$> db (world_of (create_admin_user (rworld (create_tables w))))
                !! "usuarios"
       = Some []).
Proof.
  assert (∀ w0 t, db w0 !! "usuarios" = Some t → "nivel" ∉ columns t →
            result_of (create_admin_user w0) = Ok tt
            ∧ existsb is_seeded (log_of (create_admin_user w0)) = false
            ∧ db (world_of (create_admin_user w0)) = db w0) as Hseed.
  { intros w0 t Ht Hn.
    unfold create_admin_user, try_except, bind, print, emit, ret, get, raise,
      import_generate_password_hash, conn_insert_usuarios.
    cbn. destruct (werkzeug (host w0)) as [h|]; cbn; [|done].
    rewrite conn_execute_run.
    destruct (self_conn w0); [|done].
    destruct (hd None (faults w0)); [done|].
    rewrite (insert_needs_nivel _ _ t Ht); [done| |done].
    apply list_elem_of_In. cbn. tauto. }
  split; [apply Hseed|].
  intros Hr.
  destruct (create_tables_outcome w) as [[e He]|(_ & _ & Hd)]; [congruence|].
  assert (db (rworld (create_tables w)) !! "usuarios"
          = Some {| columns := usuarios_columns; references := []; rows := [] |}) as Hu.
  { rewrite Hd. apply lookup_union_Some_l. by vm_compute. }
  destruct (Hseed _ _ Hu) as (_ & Hs & Hdb).
  { intros H%list_elem_of_In. cbn in H. intuition discriminate. }
  split; [done|]. by rewrite Hdb, Hu.
Qed.
